(** * DEVO: column type inference and the iCSV metadata protocol

    A shallow embedding of [devo/enrichment.py] and [devo/validation.py].

    Python [str] values are lists of characters; a character is a code
    point of the Latin-1 range (type [ascii], 0..255).  Python dictionaries
    are insertion-ordered association lists.  Functions that may raise
    return [option] ([None] stands for the exception).  The collaborators
    that live outside the repository (dateutil, the [datetime] arithmetic,
    [csv.Sniffer], the csv reader and writer, binary floating point, the
    frictionless validator, the clock) are variables of the section. *)

From Stdlib Require Import List Ascii Bool Arith ZArith Lia Permutation.
Import ListNotations.

(** ** Python strings *)

Definition str := list ascii.

Inductive str_lit : Set :=
| LitNil
| LitCons (c : ascii) (s : str_lit).

Fixpoint lit_of_bytes (bs : list Byte.byte) : str_lit :=
  match bs with
  | [] => LitNil
  | b :: r => LitCons (ascii_of_byte b) (lit_of_bytes r)
  end.

Fixpoint bytes_of_lit (s : str_lit) : list Byte.byte :=
  match s with
  | LitNil => []
  | LitCons c r => byte_of_ascii c :: bytes_of_lit r
  end.

Declare Scope str_scope.
Delimit Scope str_scope with str.
#[warnings="-via-type-remapping,-via-type-mismatch"]
String Notation str lit_of_bytes bytes_of_lit
  (via str_lit mapping [[nil] => LitNil, [cons] => LitCons]) : str_scope.
Open Scope str_scope.
Open Scope bool_scope.

Definition chr (n : nat) : ascii := ascii_of_nat n.
Definition NL : ascii := chr 10.
Definition CR : ascii := chr 13.
Definition TAB : ascii := chr 9.

Fixpoint str_eqb (a b : str) : bool :=
  match a, b with
  | [], [] => true
  | x :: a', y :: b' => Ascii.eqb x y && str_eqb a' b'
  | _, _ => false
  end.

Definition str_in (s : str) (l : list str) : bool := existsb (str_eqb s) l.

(** [str.isspace] on the Latin-1 range: U+0009..000D, U+001C..0020,
    U+0085 and U+00A0. *)
Definition is_space (c : ascii) : bool :=
  let n := nat_of_ascii c in
  ((9 <=? n) && (n <=? 13)) || ((28 <=? n) && (n <=? 32))
  || (n =? 133) || (n =? 160).

(** The class [\d] (and [[0-9]]) on the Latin-1 range. *)
Definition is_digit (c : ascii) : bool :=
  let n := nat_of_ascii c in (48 <=? n) && (n <=? 57).

Definition digit_val (c : ascii) : Z := Z.of_nat (nat_of_ascii c) - 48.

Fixpoint lstrip_by (p : ascii -> bool) (s : str) : str :=
  match s with
  | c :: s' => if p c then lstrip_by p s' else s
  | [] => []
  end.

Fixpoint rstrip_by (p : ascii -> bool) (s : str) : str :=
  match s with
  | c :: s' =>
      match rstrip_by p s' with
      | [] => if p c then [] else [c]
      | r => c :: r
      end
  | [] => []
  end.

(** [s.strip()], [s.lstrip("#")], [s.rstrip("\n")]. *)
Definition strip (s : str) : str := rstrip_by is_space (lstrip_by is_space s).
Definition lstrip_hash (s : str) : str := lstrip_by (Ascii.eqb "#") s.
Definition rstrip_nl (s : str) : str := rstrip_by (Ascii.eqb NL) s.

(** [str.lower] on the Latin-1 range. *)
Definition lower_char (c : ascii) : ascii :=
  let n := nat_of_ascii c in
  if ((65 <=? n) && (n <=? 90))
     || ((192 <=? n) && (n <=? 222) && negb (n =? 215))
  then chr (n + 32) else c.

Definition lower (s : str) : str := map lower_char s.

Fixpoint startswith (s p : str) : bool :=
  match p, s with
  | [], _ => true
  | a :: p', b :: s' => Ascii.eqb a b && startswith s' p'
  | _ :: _, [] => false
  end.

(** [sep.join(l)]. *)
Fixpoint join (sep : str) (l : list str) : str :=
  match l with
  | [] => []
  | [x] => x
  | x :: r => x ++ sep ++ join sep r
  end.

(** [s.split(sep)] for a non-empty [sep]; [skip] counts the characters of
    a separator occurrence still to be passed over. *)
Fixpoint split_go (sep : str) (skip : nat) (s : str) : list str :=
  match s with
  | [] => [[]]
  | c :: s' =>
      match skip with
      | S k => split_go sep k s'
      | O =>
          if startswith s sep then [] :: split_go sep (length sep - 1) s'
          else match split_go sep 0 s' with
               | h :: t => (c :: h) :: t
               | [] => [[c]]
               end
      end
  end.

(** [s.split(sep)]; an empty separator raises [ValueError]. *)
Definition py_split (sep s : str) : option (list str) :=
  match sep with
  | [] => None
  | _ => Some (split_go sep 0 s)
  end.

(** [s.split("|")]. *)
Definition split_pipe (s : str) : list str := split_go "|" 0 s.

(** [s.replace(old, new)] for a non-empty [old]. *)
Definition py_replace (old new s : str) : str := join new (split_go old 0 s).

(** [sub in s]. *)
Fixpoint contains (sub s : str) : bool :=
  startswith s sub
  || match s with
     | [] => false
     | _ :: s' => contains sub s'
     end.

(** [c in s] for a character, and [s.split(c, 1)] when it holds. *)
Definition contains_char (c : ascii) (s : str) : bool := existsb (Ascii.eqb c) s.

Fixpoint split_once (c : ascii) (s : str) : str * str :=
  match s with
  | [] => ([], [])
  | x :: s' =>
      if Ascii.eqb x c then ([], s')
      else let (a, b) := split_once c s' in (x :: a, b)
  end.

(** Text-mode reading with universal newlines: ["\r\n"] and ["\r"] read as
    ["\n"]; iterating the file yields the lines with their terminator. *)
Fixpoint translate_newlines (s : str) : str :=
  match s with
  | [] => []
  | c :: s' =>
      if Ascii.eqb c CR then
        match s' with
        | d :: s'' => if Ascii.eqb d NL then NL :: translate_newlines s''
                      else NL :: translate_newlines s'
        | [] => [NL]
        end
      else c :: translate_newlines s'
  end.

Fixpoint raw_lines (s : str) : list str :=
  match s with
  | [] => []
  | c :: s' =>
      if Ascii.eqb c NL then [c] :: raw_lines s'
      else match raw_lines s' with
           | [] => [[c]]
           | l :: ls => (c :: l) :: ls
           end
  end.

Definition file_lines (content : str) : list str :=
  raw_lines (translate_newlines content).

(** [str(n)] for integers. *)
Fixpoint str_of_uint (d : Decimal.uint) : str :=
  match d with
  | Decimal.Nil => []
  | Decimal.D0 d => "0"%char :: str_of_uint d
  | Decimal.D1 d => "1"%char :: str_of_uint d
  | Decimal.D2 d => "2"%char :: str_of_uint d
  | Decimal.D3 d => "3"%char :: str_of_uint d
  | Decimal.D4 d => "4"%char :: str_of_uint d
  | Decimal.D5 d => "5"%char :: str_of_uint d
  | Decimal.D6 d => "6"%char :: str_of_uint d
  | Decimal.D7 d => "7"%char :: str_of_uint d
  | Decimal.D8 d => "8"%char :: str_of_uint d
  | Decimal.D9 d => "9"%char :: str_of_uint d
  end.

Definition str_of_nat (n : nat) : str := str_of_uint (Nat.to_uint n).

Definition str_of_Z (z : Z) : str :=
  match Z.to_int z with
  | Decimal.Pos d => str_of_uint d
  | Decimal.Neg d => "-"%char :: str_of_uint d
  end.

(** ** Python dictionaries (insertion ordered) *)

Definition dict (V : Type) := list (str * V).

Fixpoint dict_get {V} (d : dict V) (k : str) : option V :=
  match d with
  | [] => None
  | (k', v) :: r => if str_eqb k' k then Some v else dict_get r k
  end.

(** [d[k] = v]: an existing key keeps its position. *)
Fixpoint dict_set {V} (d : dict V) (k : str) (v : V) : dict V :=
  match d with
  | [] => [(k, v)]
  | (k', v') :: r =>
      if str_eqb k' k then (k', v) :: r else (k', v') :: dict_set r k v
  end.

Definition dict_mem {V} (d : dict V) (k : str) : bool :=
  match dict_get d k with Some _ => true | None => false end.

(** ** The fragment of [re] the program uses *)

Inductive re : Type :=
| Eps
| Lit (c : ascii)
| LitI (c : ascii)
| Cls (p : ascii -> bool)
| Seq (a b : re)
| Alt (a b : re)
| Opt (a : re)
| Plus (p : ascii -> bool)
| Grp (name : ascii) (a : re)
| Dollar.

(** Remainders left by [p+], longest match first. *)
Fixpoint plus_rests (p : ascii -> bool) (s : str) : list str :=
  match s with
  | c :: s' => if p c then plus_rests p s' ++ [s'] else []
  | [] => []
  end.

Definition groups := list (ascii * str).

(** All ways to match [r] at the start of [s], in the order the
    backtracking matcher tries them: the captured groups and the rest. *)
Fixpoint rmatch (r : re) (s : str) : list (groups * str) :=
  match r with
  | Eps => [([], s)]
  | Lit c =>
      match s with
      | x :: s' => if Ascii.eqb x c then [([], s')] else []
      | [] => []
      end
  | LitI c =>
      match s with
      | x :: s' =>
          if Ascii.eqb (lower_char x) (lower_char c) then [([], s')] else []
      | [] => []
      end
  | Cls p =>
      match s with
      | x :: s' => if p x then [([], s')] else []
      | [] => []
      end
  | Seq a b =>
      flat_map (fun m1 =>
                  map (fun m2 => (fst m1 ++ fst m2, snd m2)) (rmatch b (snd m1)))
               (rmatch a s)
  | Alt a b => rmatch a s ++ rmatch b s
  | Opt a => rmatch a s ++ [([], s)]
  | Plus p => map (fun s' => ([], s')) (plus_rests p s)
  | Grp n a =>
      map (fun m => ((n, firstn (length s - length (snd m)) s) :: fst m, snd m))
          (rmatch a s)
  | Dollar =>
      match s with
      | [] => [([], s)]
      | [c] => if Ascii.eqb c NL then [([], s)] else []
      | _ => []
      end
  end.

(** [bool(pattern.match(s))]. *)
Definition re_match (r : re) (s : str) : bool :=
  match rmatch r s with [] => false | _ :: _ => true end.

(** [bool(pattern.search(s))]. *)
Fixpoint re_search (r : re) (s : str) : bool :=
  re_match r s || match s with [] => false | _ :: s' => re_search r s' end.

Fixpoint seqs (l : list re) : re :=
  match l with
  | [] => Eps
  | [r] => r
  | r :: l' => Seq r (seqs l')
  end.

Fixpoint alts (l : list re) : re :=
  match l with
  | [] => Eps
  | [r] => r
  | r :: l' => Alt r (alts l')
  end.

(** Every character, and whether an expression can only match strings
    that hold a digit (a sufficient test). *)
Definition all_ascii : list ascii := map ascii_of_nat (seq 0 256).

Definition only_digits (p : ascii -> bool) : bool :=
  forallb (fun c => implb (p c) (is_digit c)) all_ascii.

Fixpoint needs_digit (r : re) : bool :=
  match r with
  | Eps => false
  | Lit c => is_digit c
  | LitI _ => false
  | Cls p => only_digits p
  | Seq a b => needs_digit a || needs_digit b
  | Alt a b => needs_digit a && needs_digit b
  | Opt _ => false
  | Plus p => only_digits p
  | Grp _ a => needs_digit a
  | Dollar => false
  end.

Definition in_range (a b : ascii) : re :=
  Cls (fun c => (nat_of_ascii a <=? nat_of_ascii c)
                && (nat_of_ascii c <=? nat_of_ascii b)).

Definition digit : re := Cls is_digit.

(** [INT_RE = ^-?\d+$] and [FLOAT_RE = ^-?\d+\.\d+$]. *)
Definition INT_RE : re := seqs [Opt (Lit "-"); Plus is_digit; Dollar].
Definition FLOAT_RE : re :=
  seqs [Opt (Lit "-"); Plus is_digit; Lit "."; Plus is_digit; Dollar].

(** ** [int()] and [float()] on strings *)

(** The longest prefix of the shape [digit (_? digit)*], underscores
    dropped, and what follows it. *)
Fixpoint take_digitpart (s : str) : str * str :=
  match s with
  | c :: r =>
      if is_digit c then
        match r with
        | u :: ((d :: _) as r') =>
            if Ascii.eqb u "_" && is_digit d
            then let (ds, rest) := take_digitpart r' in (c :: ds, rest)
            else let (ds, rest) := take_digitpart r in (c :: ds, rest)
        | _ => let (ds, rest) := take_digitpart r in (c :: ds, rest)
        end
      else ([], s)
  | [] => ([], [])
  end.

Definition digits_value (ds : str) : Z :=
  fold_left (fun acc c => 10 * acc + digit_val c)%Z ds 0%Z.

Definition take_sign (s : str) : bool * str :=
  match s with
  | c :: r =>
      if Ascii.eqb c "-" then (true, r)
      else if Ascii.eqb c "+" then (false, r)
      else (false, s)
  | [] => (false, s)
  end.

(** The white space [int] and [float] skip at both ends is that of the C
    locale, narrower than that of [str.strip].  The text they read: a
    string that is not all ASCII first has its other white space turned
    into spaces and is cut at the first character that is neither ASCII
    nor white space, [?] taking its place (no decimal digit lies above
    ASCII among the characters of this model). *)
Definition is_c_space (c : ascii) : bool :=
  let n := nat_of_ascii c in (n =? 32) || ((9 <=? n) && (n <=? 13)).

Definition is_ascii (s : str) : bool :=
  forallb (fun c => nat_of_ascii c <? 128) s.

Fixpoint transform_space (s : str) : str :=
  match s with
  | [] => []
  | c :: r =>
      if nat_of_ascii c <? 127 then c :: transform_space r
      else if is_space c then " "%char :: transform_space r
      else ["?"%char]
  end.

Definition number_text (s : str) : str :=
  let t := if is_ascii s then s else transform_space s in
  rstrip_by is_c_space (lstrip_by is_c_space t).

(** The number of digits of a string. *)
Definition digit_count (s : str) : nat := length (filter is_digit s).

(** What [int(s)] reads: the sign and the digits, for a text made of
    one optional sign and decimal digits with single underscores between
    them. *)
Definition int_literal (s : str) : option (bool * str) :=
  let (neg, body) := take_sign (number_text s) in
  match take_digitpart body with
  | ((_ :: _) as ds, []) => Some (neg, ds)
  | _ => None
  end.

(** What [float(s)] reads; the rounding to binary64 is [float_of_literal]
    below. *)
Inductive float_literal : Type :=
| FLDec (neg : bool) (int_part frac_part : str) (exponent : Z)
| FLInf (neg : bool)
| FLNan (neg : bool).

Definition parse_exponent (s : str) : option Z :=
  match s with
  | [] => Some 0%Z
  | e :: r =>
      if Ascii.eqb (lower_char e) "e" then
        let (neg, body) := take_sign r in
        match take_digitpart body with
        | ((_ :: _) as ds, []) =>
            Some (if neg then (- digits_value ds)%Z else digits_value ds)
        | _ => None
        end
      else None
  end.

Definition parse_float_literal (s : str) : option float_literal :=
  let (neg, body) := take_sign (number_text s) in
  let low := lower body in
  if str_eqb low "inf" || str_eqb low "infinity" then Some (FLInf neg)
  else if str_eqb low "nan" then Some (FLNan neg)
  else
    let (ip, r1) := take_digitpart body in
    let (fp, r2) :=
      match r1 with
      | c :: r => if Ascii.eqb c "." then take_digitpart r else ([], r1)
      | [] => ([], r1)
      end in
    match ip, fp with
    | [], [] => None
    | _, _ =>
        match parse_exponent r2 with
        | Some e => Some (FLDec neg ip fp e)
        | None => None
        end
    end.

(** ** [datetime.strptime]: the regular expression of a format *)

Definition directive (d : ascii) : option re :=
  if Ascii.eqb d "Y" then Some (Grp "Y" (seqs [digit; digit; digit; digit]))
  else if Ascii.eqb d "m" then
    Some (Grp "m" (alts [Seq (Lit "1") (in_range "0" "2");
                         Seq (Lit "0") (in_range "1" "9");
                         in_range "1" "9"]))
  else if Ascii.eqb d "d" then
    Some (Grp "d" (alts [Seq (Lit "3") (in_range "0" "1");
                         Seq (in_range "1" "2") digit;
                         Seq (Lit "0") (in_range "1" "9");
                         in_range "1" "9";
                         Seq (Lit " ") (in_range "1" "9")]))
  else if Ascii.eqb d "H" then
    Some (Grp "H" (alts [Seq (Lit "2") (in_range "0" "3");
                         Seq (in_range "0" "1") digit;
                         digit]))
  else if Ascii.eqb d "M" then
    Some (Grp "M" (alts [Seq (in_range "0" "5") digit; digit]))
  else if Ascii.eqb d "S" then
    Some (Grp "S" (alts [Seq (Lit "6") (in_range "0" "1");
                         Seq (in_range "0" "5") digit;
                         digit]))
  else if Ascii.eqb d "z" then
    Some (Grp "z"
      (Alt (seqs [Cls (fun c => Ascii.eqb c "+" || Ascii.eqb c "-");
                  digit; digit; Opt (Lit ":"); in_range "0" "5"; digit;
                  Opt (seqs [Opt (Lit ":"); in_range "0" "5"; digit;
                             Opt (seqs [Lit "."; digit;
                                        Opt (Seq digit
                                        (Opt (Seq digit
                                        (Opt (Seq digit
                                        (Opt (Seq digit
                                        (Opt digit))))))))])])])
           (Lit "Z")))
  else if Ascii.eqb d "%" then Some (Lit "%")
  else None.

(** [TimeRE.pattern]: a run of white space in the format becomes [\s+],
    [%x] becomes the expression of the directive, every other character
    stands for itself; the expression is compiled with [IGNORECASE]. *)
Fixpoint strptime_pattern (fmt : str) : option re :=
  match fmt with
  | [] => Some Eps
  | c :: rest =>
      if Ascii.eqb c "%" then
        match rest with
        | d :: rest' =>
            match directive d, strptime_pattern rest' with
            | Some r, Some k => Some (Seq r k)
            | _, _ => None
            end
        | [] => None
        end
      else
        match strptime_pattern rest with
        | Some k =>
            if is_space c then
              match rest with
              | c' :: _ => if is_space c' then Some k
                           else Some (Seq (Plus is_space) k)
              | [] => Some (Seq (Plus is_space) k)
              end
            else Some (Seq (LitI c) k)
        | None => None
        end
  end.

(** The match [_strptime] takes: the first one the matcher finds, which
    must use up the whole string. *)
Definition strptime_groups (s fmt : str) : option groups :=
  match strptime_pattern fmt with
  | Some r =>
      match rmatch r s with
      | (g, []) :: _ => Some g
      | _ => None
      end
  | None => None
  end.

(** ** [devo/enrichment.py] *)

Definition ENRICHMENT_COMMON_MISSING : list str :=
  [""; "NA"; "N/A"; "na"; "n/a"; "NULL"; "null"; "nan"; "NaN";
   "-999"; "-999.0"; "-999.000000"].

Inductive coltype : Set := TInteger | TNumber | TDatetime | TString.

Definition coltype_name (t : coltype) : str :=
  match t with
  | TInteger => "integer"
  | TNumber => "number"
  | TDatetime => "datetime"
  | TString => "string"
  end.

(** The formats of [try_parse_datetime]. *)
Definition fmts : list str :=
  ["%Y-%m-%d %H:%M:%S"; "%Y-%m-%d %H:%M"; "%Y-%m-%d"; "%d.%m.%Y";
   "%d/%m/%Y"; "%m/%d/%Y"; "%Y/%m/%d"; "%d-%m-%Y"; "%Y%m%dT%H%M%S";
   "%Y-%m-%dT%H:%M:%S%z"; "%Y-%m-%dT%H:%M:%S"].

(** The formats of [compute_datetime_minmax]. *)
Definition minmax_fmts : list str :=
  ["%Y-%m-%d %H:%M:%S"; "%Y-%m-%d %H:%M"; "%Y-%m-%d"; "%d.%m.%Y";
   "%d/%m/%Y"; "%m/%d/%Y"; "%Y/%m/%d"; "%d-%m-%Y"; "%Y%m%dT%H%M%S"].

Definition is_some {A} (o : option A) : bool :=
  match o with Some _ => true | None => false end.

Definition is_nil {A} (l : list A) : bool :=
  match l with [] => true | _ :: _ => false end.

Definition enumerate {A} (l : list A) : list (nat * A) :=
  combine (seq 0 (length l)) l.

Fixpoint index_of (x : str) (l : list str) : option nat :=
  match l with
  | [] => None
  | y :: r => if str_eqb y x then Some 0
              else option_map S (index_of x r)
  end.

(** [min(l)] and [max(l)]: the first extremal element. *)
Definition py_min {A} (lt : A -> A -> bool) (l : list A) : option A :=
  match l with
  | [] => None
  | x :: r => Some (fold_left (fun best y => if lt y best then y else best) r x)
  end.

Definition py_max {A} (lt : A -> A -> bool) (l : list A) : option A :=
  match l with
  | [] => None
  | x :: r => Some (fold_left (fun best y => if lt best y then y else best) r x)
  end.

Fixpoint map_opt {A B} (f : A -> option B) (l : list A) : option (list B) :=
  match l with
  | [] => Some []
  | x :: r =>
      match f x, map_opt f r with
      | Some y, Some ys => Some (y :: ys)
      | _, _ => None
      end
  end.

(** First success of [f] along [l]. *)
Fixpoint first_some {A B} (f : A -> option B) (l : list A) : option B :=
  match l with
  | [] => None
  | x :: r => match f x with Some y => Some y | None => first_some f r end
  end.

Definition pad_to {A} (n : nat) (x : A) (l : list A) : list A :=
  l ++ repeat x (n - length l).

(** [r + [""] * (n - len(r))] when shorter, [r[:n]] when longer. *)
Definition normalize_row (n : nat) (r : list str) : list str :=
  if length r <? n then pad_to n [] r
  else if n <? length r then firstn n r
  else r.

(** ** Stand-ins for the collaborators, used in the examples

    Tables without quoted cells: a line is split at every delimiter, a
    row is written by joining its cells.  [month_name_parse] accepts the
    English month abbreviations, as dateutil's parser does. *)

Definition line_end (c : ascii) : bool := Ascii.eqb c NL || Ascii.eqb c CR.

Definition plain_csv_reader (delimiter content : str)
  : option (list (list str)) :=
  Some (map (fun l => split_go delimiter 0 (rstrip_by line_end l))
            (raw_lines content)).

Definition plain_csv_writerow (delimiter : str) (row : list str) : str :=
  join delimiter row ++ [CR; NL].

Definition month_name_parse (s : str) : option unit :=
  if str_in (lower s)
       ["jan"; "feb"; "mar"; "apr"; "may"; "jun"; "jul"; "aug"; "sep";
        "oct"; "nov"; "dec"]
  then Some tt else None.

(** A file whose first five lines are split by [;] and whose next five
    by [,], and what [csv.Sniffer] answers on its two samples: [;] on the
    first five lines, no delimiter on the first ten. *)
Definition mixed_csv : str :=
  concat (map (fun l => l ++ [NL])
              ["a;b"; "1;2"; "3;4"; "5;6"; "7;8";
               "1,2,3"; "1,2,3"; "1,2,3"; "1,2,3"; "1,2,3"]).

Definition mixed_csv_sniff (sample : str) : option str :=
  if str_eqb sample (concat (firstn 5 (file_lines mixed_csv)))
  then Some ";" else None.

(** Floats kept as the literals they were read from. *)
Definition keep_literal (x : float_literal) : float_literal := x.
Definition never_lt (a b : float_literal) : bool := false.
Definition literal_repr (x : float_literal) : str :=
  match x with
  | FLDec neg ip fp _ => (if neg then "-" else "") ++ ip ++ "." ++ fp
  | FLInf neg => (if neg then "-" else "") ++ "inf"
  | FLNan _ => "nan"
  end.

(** An iCSV file whose [types] and [min] lists are both shorter than its
    [fields] list. *)
Definition two_short_lists_icsv : str :=
  concat (map (fun l => l ++ [NL])
              ["# iCSV 1.0 UTF-8"; "# [METADATA]"; "# field_delimiter = |";
               ""; "# [FIELDS]"; "# fields = a|b"; "# types = integer";
               "# min = 1"; ""; "# [DATA]"; "a|b"; "1|2"]).

Definition no_iso (s : str) : option unit := None.
Definition any_groups (g : groups) : option unit := Some tt.
Definition unit_extremum (l : list unit) : option unit := Some tt.
Definition unit_isoformat (d : unit) : str := "2020-01-01T00:00:00".
Definition no_sniff (sample : str) : option str := None.

Section Devo.

(** The limit of the interpreter on the number of digits [int] reads
    ([sys.get_int_max_str_digits()]: 4300 unless set otherwise, 0 for no
    limit). *)
Variable int_max_str_digits : nat.

(** Binary floating point: how a literal is rounded, how two floats
    compare, and how [str] prints one. *)
Variable float : Type.
Variable float_of_literal : float_literal -> float.
Variable float_lt : float -> float -> bool.
Variable float_repr : float -> str.

(** [datetime] values: dateutil's [parse] when the import succeeded,
    [datetime.fromisoformat], the value [strptime] builds from the
    matched groups, [min]/[max] of a list (a mix of naive and aware
    values raises), [isoformat], and the reading of the clock. *)
Variable datetime : Type.
Variable date_parse : option (str -> option datetime).
Variable fromisoformat : str -> option datetime.
Variable datetime_of_groups : groups -> option datetime.
Variable datetime_min datetime_max : list datetime -> option datetime.
Variable isoformat : datetime -> str.
Variable utcnow : datetime.

(** The csv module: the delimiter [Sniffer().sniff] finds in a sample,
    the rows [csv.reader] yields for a delimiter, the line
    [csv.writer] writes for a row. *)
Variable sniff : str -> option str.
Variable csv_reader : str -> str -> option (list (list str)).
Variable csv_writerow : str -> list str -> str.

(** [__name__] of the enrichment module. *)
Variable module_name : str.

Inductive pyval : Type :=
| VInt (z : Z)
| VFloat (f : float)
| VStr (s : str).

Definition py_str (v : pyval) : str :=
  match v with
  | VInt z => str_of_Z z
  | VFloat f => float_repr f
  | VStr s => s
  end.

(** [int(s)]: a [ValueError] when the text is not an integer literal,
    and when it has more digits than the limit (the sign and the
    underscores do not count; up to 640 digits are never refused). *)
Definition exceeds_int_max_str_digits (digits : nat) : bool :=
  (640 <? digits) && (0 <? int_max_str_digits)
  && (int_max_str_digits <? digits).

Definition py_int (s : str) : option Z :=
  match int_literal s with
  | Some (neg, ds) =>
      if exceeds_int_max_str_digits (length ds) then None
      else Some (if neg then (- digits_value ds)%Z else digits_value ds)
  | None => None
  end.

Definition py_float (s : str) : option float :=
  option_map float_of_literal (parse_float_literal s).

Definition strptime (s fmt : str) : option datetime :=
  match strptime_groups s fmt with
  | Some g => datetime_of_groups g
  | None => None
  end.

(** The parsers [try_parse_datetime] runs one after the other. *)
Definition datetime_cascade (s : str) : bool :=
  if match date_parse with
     | Some parse => is_some (parse s)
     | None => false
     end
  then true
  else if is_some (fromisoformat s) then true
  else existsb (fun fmt => is_some (strptime s fmt)) fmts.

Definition try_parse_datetime (s : str) : bool :=
  if is_nil s then false
  else
    let s := strip s in
    if negb (re_search (in_range "0" "9") s) then false
    else datetime_cascade s.

(** [try_parse_datetime] with the digit test taken out. *)
Definition try_parse_datetime_no_digit_test (s : str) : bool :=
  if is_nil s then false else datetime_cascade (strip s).

Definition prune (values : list str) (missing_values : list str) : list str :=
  map strip (filter (fun v => negb (str_in (strip v) missing_values)) values).

(** The three flags after the loop over the pruned values. *)
Definition infer_flags (pruned : list str) : bool * bool * bool :=
  fold_left
    (fun '(is_int, is_float, is_datetime) v =>
       ((if negb (re_match INT_RE v) then false else is_int),
        (if negb (re_match INT_RE v || re_match FLOAT_RE v)
         then false else is_float),
        (if negb (try_parse_datetime v) then false else is_datetime)))
    pruned (true, true, true).

Definition infer_column_type (values : list str) (missing_values : list str)
  : coltype :=
  let pruned := prune values missing_values in
  if is_nil pruned then TString
  else
    let '(is_int, is_float, is_datetime) := infer_flags pruned in
    if is_int then TInteger
    else if is_float then TNumber
    else if is_datetime then TDatetime
    else TString.

Definition detect_delimiter (sample_text : str) : str :=
  match sniff sample_text with
  | Some d => d
  | None => ","
  end.

(** The delimiter [load_rows_with_frictionless] hands to [csv.reader]. *)
Definition reader_delimiter (content : str) (delimiter : option str) : str :=
  match delimiter with
  | None => detect_delimiter (concat (firstn 10 (file_lines content)))
  | Some d => d
  end.

Definition load_rows_with_frictionless (content : str) (delimiter : option str)
  : option (list str * list (list str) * nat) :=
  match csv_reader (reader_delimiter content delimiter) content with
  | None => None
  | Some [] => Some ([], [], 0)
  | Some (r :: rows) => Some (map strip r, rows, length rows)
  end.

Definition compute_numeric_minmax (pruned : list str) (as_type : coltype)
  : option pyval * option pyval :=
  if is_nil pruned then (None, None)
  else
    match as_type with
    | TInteger =>
        match map_opt py_int pruned with
        | Some nums =>
            (option_map VInt (py_min Z.ltb nums),
             option_map VInt (py_max Z.ltb nums))
        | None => (None, None)
        end
    | _ =>
        match map_opt py_float pruned with
        | Some nums =>
            (option_map VFloat (py_min float_lt nums),
             option_map VFloat (py_max float_lt nums))
        | None => (None, None)
        end
    end.

Definition parse_for_minmax (v : str) : option datetime :=
  match date_parse with
  | Some parse => parse v
  | None =>
      match fromisoformat v with
      | Some dt => Some dt
      | None => first_some (strptime v) minmax_fmts
      end
  end.

Definition compute_datetime_minmax (pruned : list str)
  : option (option str * option str) :=
  let parsed :=
    flat_map (fun v => match parse_for_minmax v with
                       | Some dt => [dt]
                       | None => []
                       end) pruned in
  if is_nil parsed then Some (None, None)
  else
    match datetime_min parsed, datetime_max parsed with
    | Some mn, Some mx => Some (Some (isoformat mn), Some (isoformat mx))
    | _, _ => None
    end.

Definition detect_geometry_hint (header : list str)
  : option str * option str :=
  let lower_h := map lower header in
  if str_in "geometry" lower_h then
    match index_of "geometry" lower_h with
    | Some idx => (Some ("column:" ++ nth idx header []), None)
    | None => (None, None)
    end
  else
    let '(lat_idx, lon_idx) :=
      fold_left
        (fun '(lat_idx, lon_idx) '(i, h) =>
           ((if str_in h ["lat"; "latitude"] then Some i else lat_idx),
            (if str_in h ["lon"; "lng"; "longitude"] then Some i
             else lon_idx)))
        (enumerate lower_h) (None, None) in
    match lat_idx, lon_idx with
    | Some la, Some lo =>
        (Some ("column:" ++ nth la header [] ++ "," ++ nth lo header []),
         Some "EPSG:4326")
    | _, _ => (None, None)
    end.

(** The header names [detect_geometry_hint] looks for, and the last
    element of a list with a property. *)
Definition is_geometry_name (h : str) : bool := str_eqb (lower h) "geometry".
Definition is_latitude_name (h : str) : bool :=
  str_in (lower h) ["lat"; "latitude"].
Definition is_longitude_name (h : str) : bool :=
  str_in (lower h) ["lon"; "lng"; "longitude"].

Definition last_such {A} (p : A -> bool) (l : list A) : option A :=
  find p (rev l).

Fixpoint last_index {A} (p : A -> bool) (l : list A) : option nat :=
  match l with
  | [] => None
  | x :: r =>
      match last_index p r with
      | Some i => Some (S i)
      | None => if p x then Some 0 else None
      end
  end.

(** The [constraints] dictionary of a column. *)
Record constraints : Type := {
  minimum : option pyval;
  maximum : option pyval;
  required : bool
}.

(** The [info] dictionary of a column; [info_min] and [info_max] are
    [None] when the key is absent and [Some None] when it holds [None]. *)
Record col_info : Type := {
  info_name : str;
  info_type : coltype;
  info_min : option (option pyval);
  info_max : option (option pyval);
  info_constraints : option constraints;
  info_missing_count : nat;
  info_description : str
}.

Record schema_field : Type := {
  field_name : str;
  field_type : str;
  field_format : option str;
  field_description : option str;
  field_constraints : option constraints
}.

Record schema : Type := {
  schema_fields : list schema_field;
  schema_missing_values : list str
}.

Definition build_frictionless_schema (header : list str)
           (col_infos : list col_info) (missing_values : list str) : schema :=
  {| schema_fields :=
       map (fun info =>
              {| field_name := info_name info;
                 field_type := coltype_name (info_type info);
                 field_format := None;
                 field_description :=
                   if is_nil (info_description info) then None
                   else Some (info_description info);
                 field_constraints := info_constraints info |})
           col_infos;
     schema_missing_values := missing_values |}.

(** Python truthiness of an optional string. *)
Definition truthy (o : option str) : bool :=
  match o with
  | Some (_ :: _) => true
  | _ => false
  end.

Definition opt_line (key : str) (cond : bool) (o : option str) : list str :=
  match o with
  | Some v => if cond then [key ++ " = " ++ v] else []
  | None => []
  end.

Definition build_icsv_metadata_section
           (field_delimiter : str) (header : list str) (rows_count : nat)
           (nodata_value geometry_hint srid_hint application_profile
            : option str) : list str :=
  ["iCSV_version = 1.0"]
    ++ opt_line "application_profile" (truthy application_profile)
         application_profile
    ++ ["field_delimiter = " ++ field_delimiter]
    ++ ["rows = " ++ str_of_nat rows_count]
    ++ ["columns = " ++ str_of_nat (length header)]
    ++ ["creation_date = " ++ isoformat utcnow ++ "Z"]
    ++ opt_line "nodata" true nodata_value
    ++ opt_line "geometry" (truthy geometry_hint) geometry_hint
    ++ opt_line "srid" (truthy srid_hint) srid_hint
    ++ ["generator = DEVO " ++ module_name].

(** [c.get(key, "")] with [None] turned into [""], then [str]. *)
Definition bound_cell (b : option (option pyval)) : str :=
  match b with
  | Some (Some v) => py_str v
  | _ => []
  end.

Definition build_fields_section (header : list str)
           (col_infos : list col_info) (field_delimiter : str) : list str :=
  let _join := join field_delimiter in
  let fields_vals := header in
  let types_vals := map (fun c => coltype_name (info_type c)) col_infos in
  let min_vals := map (fun c => bound_cell (info_min c)) col_infos in
  let max_vals := map (fun c => bound_cell (info_max c)) col_infos in
  let missing_count_vals :=
    map (fun c => str_of_nat (info_missing_count c)) col_infos in
  let desc_vals := map info_description col_infos in
  ["fields = " ++ _join fields_vals;
   "types = " ++ _join types_vals;
   "min = " ++ _join min_vals;
   "max = " ++ _join max_vals;
   "missing_count = " ++ _join missing_count_vals;
   "description = " ++ _join desc_vals].

(** The number of occurrences of a character. *)
Fixpoint count_char (d : ascii) (s : str) : nat :=
  match s with
  | [] => 0
  | c :: s' => (if Ascii.eqb c d then 1 else 0) + count_char d s'
  end.

Definition sum_counts (d : ascii) (l : list str) : nat :=
  fold_right (fun x n => count_char d x + n) 0 l.

(** The key/value pairs behind the lines of the two blocks. *)
Definition kv_line (kv : str * str) : str := fst kv ++ " = " ++ snd kv.

Definition opt_pair (key : str) (cond : bool) (o : option str)
  : list (str * str) :=
  match o with
  | Some v => if cond then [(key, v)] else []
  | None => []
  end.

Definition metadata_table
           (field_delimiter : str) (header : list str) (rows_count : nat)
           (nodata_value geometry_hint srid_hint application_profile
            : option str) : list (str * str) :=
  [("iCSV_version", "1.0")]
    ++ opt_pair "application_profile" (truthy application_profile)
         application_profile
    ++ [("field_delimiter", field_delimiter)]
    ++ [("rows", str_of_nat rows_count)]
    ++ [("columns", str_of_nat (length header))]
    ++ [("creation_date", isoformat utcnow ++ "Z")]
    ++ opt_pair "nodata" true nodata_value
    ++ opt_pair "geometry" (truthy geometry_hint) geometry_hint
    ++ opt_pair "srid" (truthy srid_hint) srid_hint
    ++ [("generator", "DEVO " ++ module_name)].

Definition fields_table (header : list str) (col_infos : list col_info)
  : list (str * list str) :=
  [("fields", header);
   ("types", map (fun c => coltype_name (info_type c)) col_infos);
   ("min", map (fun c => bound_cell (info_min c)) col_infos);
   ("max", map (fun c => bound_cell (info_max c)) col_infos);
   ("missing_count",
    map (fun c => str_of_nat (info_missing_count c)) col_infos);
   ("description", map info_description col_infos)].

(** A value without line break; a cell without line break and without the
    delimiter; a key as the builder writes them. *)
Definition no_linebreak (s : str) : bool :=
  forallb (fun c => negb (line_end c)) s.

Definition cell_ok (d : ascii) (s : str) : bool :=
  forallb (fun c => negb (Ascii.eqb c d) && negb (line_end c)) s.

Definition key_char (c : ascii) : bool :=
  negb (is_space c) && negb (Ascii.eqb c "=").

Definition key_ok (k : str) : bool :=
  match k with
  | [] => false
  | c :: _ => negb (Ascii.eqb c "[") && forallb key_char k
  end.

Definition comment_lines (lines : list str) : str :=
  concat (map (fun line => "# " ++ line ++ [NL]) lines).

(** The text [write_icsv] writes, for a delimiter the csv writer
    accepts. *)
Definition write_icsv (header_meta_lines fields_meta_lines : list str)
           (data_header : list str) (rows : list (list str))
           (field_delimiter : str) : str :=
  ("# iCSV 1.0 UTF-8" ++ [NL])
    ++ ("# [METADATA]" ++ [NL])
    ++ comment_lines header_meta_lines
    ++ [NL]
    ++ ("# [FIELDS]" ++ [NL])
    ++ comment_lines fields_meta_lines
    ++ [NL]
    ++ ("# [DATA]" ++ [NL])
    ++ csv_writerow field_delimiter data_header
    ++ concat (map (fun r =>
                      csv_writerow field_delimiter
                        (if length r <? length data_header
                         then pad_to (length data_header) [] r else r))
                   rows).

(** The missing tokens met in the data cells, row by row, and the most
    frequent one, the first met winning a tie: the first token of the
    scan that no other token outnumbers. *)
Definition observed_placeholders (rows : list (list str)) : list str :=
  filter (fun c => str_in c ENRICHMENT_COMMON_MISSING) (concat rows).

Definition count_of (t : str) (l : list str) : nat :=
  length (filter (str_eqb t) l).

Definition most_frequent_first (observed : list str) : str :=
  match find (fun t =>
                forallb (fun u => count_of u observed <=? count_of t observed)
                        observed)
             observed with
  | Some t => t
  | None => []
  end.

(** The distinct elements of a list in the order they are first met, and
    the first element of a list of counts with the greatest count. *)
Fixpoint first_occurrences (l : list str) : list str :=
  match l with
  | [] => []
  | x :: r => x :: filter (fun y => negb (str_eqb y x)) (first_occurrences r)
  end.

Fixpoint argmax_first (es : list (str * nat)) : option (str * nat) :=
  match es with
  | [] => None
  | e :: r =>
      match argmax_first r with
      | None => Some e
      | Some m => if snd e <? snd m then Some m else Some e
      end
  end.

(** An entry of the counts with the occurrences of its key in [l] added. *)
Definition add_counts (l : list str) (e : str * nat) : str * nat :=
  (fst e, snd e + count_of (fst e) l).

(** [counts[c] = counts.get(c, 0) + 1]. *)
Definition incr_count (counts : dict nat) (c : str) : dict nat :=
  dict_set counts c
    (match dict_get counts c with Some n => n | None => 0 end + 1).

(** The placeholder counts of the nodata detection, in the order the
    tokens are first met. *)
Definition count_placeholders (rows : list (list str)) : dict nat :=
  fold_left
    (fun counts r =>
       fold_left
         (fun counts c =>
            if str_in c ENRICHMENT_COMMON_MISSING
            then incr_count counts c
            else counts)
         r counts)
    rows [].

Definition detect_nodata (rows : list (list str)) : str :=
  match py_max (fun a b : str * nat => snd a <? snd b)
               (count_placeholders rows) with
  | Some (token, _) => token
  | None => []
  end.

Definition resolve_nodata (nodata_override : option str)
           (rows : list (list str)) : str :=
  match nodata_override with
  | Some v => v
  | None => detect_nodata rows
  end.

Definition is_missing_cell (v : str) : bool :=
  str_in v ENRICHMENT_COMMON_MISSING || str_eqb v "".

Definition make_constraints (mn mx : option pyval) (req : bool)
  : option constraints :=
  match mn, mx, req with
  | None, None, false => None
  | _, _, _ => Some {| minimum := mn; maximum := mx; required := req |}
  end.

(** The body of the loop over the columns of [make_icsv_from_csv]. *)
Definition column_profile (name : str) (col : list str) : option col_info :=
  let col_values := map strip col in
  let pruned := filter (fun v => negb (is_missing_cell v)) col_values in
  let inferred_type := infer_column_type col_values ENRICHMENT_COMMON_MISSING in
  let req := (length pruned =? length col_values) && (0 <? length col_values) in
  let missing_count := length (filter is_missing_cell col_values) in
  match inferred_type with
  | TInteger | TNumber =>
      let '(mn, mx) := compute_numeric_minmax pruned inferred_type in
      Some {| info_name := name; info_type := inferred_type;
              info_min := Some mn; info_max := Some mx;
              info_constraints := make_constraints mn mx req;
              info_missing_count := missing_count;
              info_description := [] |}
  | TDatetime =>
      match compute_datetime_minmax pruned with
      | Some (mn_dt, mx_dt) =>
          Some {| info_name := name; info_type := inferred_type;
                  info_min := Some (option_map VStr mn_dt);
                  info_max := Some (option_map VStr mx_dt);
                  info_constraints :=
                    make_constraints (option_map VStr mn_dt)
                                     (option_map VStr mx_dt) req;
                  info_missing_count := missing_count;
                  info_description := [] |}
      | None => None
      end
  | TString =>
      Some {| info_name := name; info_type := inferred_type;
              info_min := None; info_max := None;
              info_constraints := make_constraints None None req;
              info_missing_count := missing_count;
              info_description := [] |}
  end.

(** Column [i] of the normalised rows. *)
Definition column (rows : list (list str)) (i : nat) : list str :=
  map (fun r => nth i r []) rows.

Definition column_profiles (header : list str) (rows : list (list str))
  : option (list col_info) :=
  map_opt (fun '(i, name) => column_profile name (column rows i))
          (enumerate header).

(** The delimiter of the produced file. *)
Definition icsv_delimiter (content : str) (user_delimiter : option str) : str :=
  let detected_delim :=
    match user_delimiter with
    | Some d => d
    | None => detect_delimiter (concat (firstn 5 (file_lines content)))
    end in
  if negb (str_eqb detected_delim ",") then detected_delim else "|".

(** The local variables of [make_icsv_from_csv] when it reaches
    [write_icsv]. *)
Record enrichment : Type := {
  e_header : list str;
  e_raw_rows : list (list str);
  e_rows : list (list str);
  e_row_count : nat;
  e_icsv_delim : str;
  e_nodata_value : str;
  e_col_infos : list col_info;
  e_schema : schema;
  e_metadata_lines : list str;
  e_fields_lines : list str
}.

Definition enrich (content : str)
           (user_delimiter nodata_override application_profile : option str)
  : option enrichment :=
  match load_rows_with_frictionless content user_delimiter with
  | None => None
  | Some (header, raw_rows, row_count) =>
      let icsv_delim := icsv_delimiter content user_delimiter in
      let nodata_value := resolve_nodata nodata_override raw_rows in
      let rows := map (normalize_row (length header)) raw_rows in
      match column_profiles header rows with
      | None => None
      | Some col_infos =>
          let sch := build_frictionless_schema header col_infos
                       ENRICHMENT_COMMON_MISSING in
          let '(geometry_hint, srid_hint) := detect_geometry_hint header in
          let metadata_lines :=
            build_icsv_metadata_section icsv_delim header row_count
              (Some nodata_value) geometry_hint srid_hint
              application_profile in
          let fields_lines := build_fields_section header col_infos icsv_delim in
          Some {| e_header := header; e_raw_rows := raw_rows; e_rows := rows;
                  e_row_count := row_count; e_icsv_delim := icsv_delim;
                  e_nodata_value := nodata_value; e_col_infos := col_infos;
                  e_schema := sch; e_metadata_lines := metadata_lines;
                  e_fields_lines := fields_lines |}
      end
  end.

(** [make_icsv_from_csv] on the text of the input file: the text of the
    iCSV file and the schema it writes. *)
Definition make_icsv_from_csv (content : str)
           (user_delimiter nodata_override application_profile : option str)
  : option (str * schema) :=
  match enrich content user_delimiter nodata_override application_profile with
  | Some e =>
      Some (write_icsv (e_metadata_lines e) (e_fields_lines e) (e_header e)
                       (e_rows e) (e_icsv_delim e),
            e_schema e)
  | None => None
  end.

(** ** [devo/validation.py] *)

Definition ERROR_SUGGESTIONS : dict str :=
  [("type-error",
    "Check that values in this column match the expected type (e.g., numbers, ISO datetimes).");
   ("missing-cell",
    "Consider filling missing values, setting a nodata marker, or making the field optional.");
   ("blank-row",
    "There is an unexpected blank row; remove or investigate formatting issues.");
   ("extra-cell", "A row has too many cells: check delimiter or quoting.");
   ("duplicate-label",
    "Duplicate column name: rename columns to unique names.");
   ("default",
    "Inspect the flagged value and fix formatting or data entry issues.")].

Inductive section_name : Set := InMetadata | InFields.

(** The loop of [parse_icsv_metadata] over the lines of the file. *)
Fixpoint parse_lines (lines : list str) (section : option section_name)
         (metadata : dict str) (fields_meta : dict (list str))
  : dict str * dict (list str) :=
  match lines with
  | [] => (metadata, fields_meta)
  | raw_line :: rest =>
      let line := rstrip_nl raw_line in
      if str_eqb (strip line) "# [METADATA]" then
        parse_lines rest (Some InMetadata) metadata fields_meta
      else if str_eqb (strip line) "# [FIELDS]" then
        parse_lines rest (Some InFields) metadata fields_meta
      else if str_eqb (strip line) "# [DATA]" then
        (metadata, fields_meta)
      else if startswith line "#" && is_some section then
        let content := strip (lstrip_hash line) in
        if contains_char "=" content then
          let (key, value) := split_once "=" content in
          let key := strip key in
          let value := strip value in
          match section with
          | Some InMetadata =>
              parse_lines rest section (dict_set metadata key value)
                          fields_meta
          | _ =>
              parse_lines rest section metadata
                (dict_set fields_meta key (map strip (split_pipe value)))
          end
        else parse_lines rest section metadata fields_meta
      else parse_lines rest section metadata fields_meta
  end.

(** The second pass: every list is joined with ["|"] again and split
    by the declared delimiter. *)
Definition resplit (delim : str) (fields_meta : dict (list str))
  : option (dict (list str)) :=
  map_opt (fun '(k, v) =>
             match py_split delim (join "|" v) with
             | Some parts => Some (k, map strip parts)
             | None => None
             end)
          fields_meta.

(** [parse_icsv_metadata] on the text of the file.  The file is read as
    UTF-8 text: [content] is the text of a file that decodes.  A file
    that does not decode makes the reading raise where the decoder meets
    the bytes; such files are outside the model. *)
Definition parse_icsv_metadata (content : str)
  : option (dict str * dict (list str)) :=
  let '(metadata, fields_meta) :=
    parse_lines (file_lines content) None [] [] in
  match dict_get metadata "field_delimiter" with
  | Some delim =>
      match resplit delim fields_meta with
      | Some corrected => Some (metadata, corrected)
      | None => None
      end
  | None => Some (metadata, fields_meta)
  end.

(** The message of a list whose length is not the number of fields. *)
Definition inconsistent_count_error (key : str) (num found : nat) : str :=
  "Inconsistent count in '" ++ key ++ "': expected " ++ str_of_nat num
    ++ ", found " ++ str_of_nat found.

Definition is_inconsistency_error (e : str) : bool :=
  startswith e "Inconsistent count in '".

(** The entries of the FIELDS map that [check_metadata] reports. *)
Definition wrong_length (num : nat) (entry : str * list str) : bool :=
  negb (str_eqb (fst entry) "fields") && negb (is_nil (snd entry))
  && negb (length (snd entry) =? num).

Definition check_metadata (metadata : dict str)
           (fields_meta : dict (list str)) : list str :=
  (if negb (dict_mem metadata "field_delimiter")
      || match dict_get metadata "field_delimiter" with
         | Some v => is_nil v
         | None => true
         end
   then ["Missing required metadata: field_delimiter"] else [])
  ++ match dict_get fields_meta "fields" with
     | None => ["Missing [FIELDS] 'fields' list"]
     | Some fields =>
         let num := length fields in
         flat_map
           (fun '(key, values) =>
              if negb (str_eqb key "fields") && negb (is_nil values)
                 && negb (length values =? num)
              then [inconsistent_count_error key num (length values)]
              else [])
           fields_meta
     end.

(** The loop of [_read_data_rows]. *)
Fixpoint read_data_loop (delimiter : str) (lines : list str) (in_data : bool)
         (header : list str) (rows : list (list str))
  : option (list str * list (list str)) :=
  match lines with
  | [] => Some (header, rows)
  | raw :: rest =>
      let line := rstrip_nl raw in
      if str_eqb (strip line) "# [DATA]" then
        read_data_loop delimiter rest true header rows
      else if negb in_data then
        read_data_loop delimiter rest in_data header rows
      else if startswith (strip line) "#" then
        read_data_loop delimiter rest in_data header rows
      else if str_eqb (strip line) "" then
        read_data_loop delimiter rest in_data header rows
      else
        match csv_reader delimiter line with
        | Some (parts :: _) =>
            if is_nil header
            then read_data_loop delimiter rest in_data (map strip parts) rows
            else read_data_loop delimiter rest in_data header (rows ++ [parts])
        | _ => None
        end
  end.

Definition _read_data_rows (content delimiter : str)
  : option (list str * list (list str)) :=
  read_data_loop delimiter (file_lines content) false [] [].

(** [float(v) if "." in v else int(v)], the text itself when that fails. *)
Definition parse_bound (v : str) : pyval :=
  if contains_char "." v then
    match py_float v with Some f => VFloat f | None => VStr v end
  else
    match py_int v with Some z => VInt z | None => VStr v end.

Definition bound_at (vals : list str) (i : nat) : option pyval :=
  match nth_error vals i with
  | Some ((_ :: _) as v) => Some (parse_bound v)
  | _ => None
  end.

Definition dict_get_list (d : dict (list str)) (k : str) : list str :=
  match dict_get d k with Some l => l | None => [] end.

Definition build_schema_from_metadata (fields_meta : dict (list str))
  : schema :=
  let fields := dict_get_list fields_meta "fields" in
  let types := dict_get_list fields_meta "types" in
  let description := dict_get_list fields_meta "description" in
  let min_vals := dict_get_list fields_meta "min" in
  let max_vals := dict_get_list fields_meta "max" in
  {| schema_fields :=
       map (fun '(i, name) =>
              {| field_name := name;
                 field_type :=
                   match nth_error types i with
                   | Some ((_ :: _) as t) => t
                   | _ => "string"
                   end;
                 field_format := None;
                 field_description :=
                   match nth_error description i with
                   | Some ((_ :: _) as d) => Some d
                   | _ => None
                   end;
                 field_constraints :=
                   make_constraints (bound_at min_vals i)
                                    (bound_at max_vals i) false |})
           (enumerate fields);
     schema_missing_values := [""; "NA"; "N/A"; "null"; "-999"; "-999.0"] |}.

(** One row of [report.flatten]. *)
Record issue : Type := {
  issue_row : option nat;
  issue_col : option nat;
  issue_code : str;
  issue_message : str
}.

Record report : Type := {
  report_valid : bool;
  report_issues : list issue
}.

(** [n or '?']. *)
Definition or_question (n : option nat) : str :=
  match n with
  | Some ((S _) as k) => str_of_nat k
  | _ => "?"
  end.

Definition _format_report (rep : report) : str :=
  if report_valid rep then "Data validation [OK]"
  else
    join [NL]
      ("Data validation errors:"
         :: flat_map
              (fun i =>
                 let suggestion :=
                   match dict_get ERROR_SUGGESTIONS (issue_code i) with
                   | Some s => s
                   | None =>
                       match dict_get ERROR_SUGGESTIONS "default" with
                       | Some s => s
                       | None => []
                       end
                   end in
                 [("  Row " ++ or_question (issue_row i) ++ ", Col "
                     ++ or_question (issue_col i) ++ " ["
                     ++ issue_code i ++ "]: " ++ issue_message i);
                  ("    Suggestion: " ++ suggestion)])
              (report_issues rep)).

(** The frictionless validator run on the normalised table: a report,
    or the message of the exception it raised; and the name of the
    temporary file. *)
Variable frictionless_validate : str -> schema -> report + str.
Variable tmp_name : str.

(** What [validate_icsv] does to the outside, in order. *)
Inductive event : Type :=
| EvWrite (path text : str)
| EvReadDataRows (path delimiter : str)
| EvBuildSchema
| EvValidate (path : str)
| EvRemove (path : str).

Fixpoint dict_remove {V} (d : dict V) (k : str) : dict V :=
  match d with
  | [] => []
  | (k', v) :: r =>
      if str_eqb k' k then r else (k', v) :: dict_remove r k
  end.

Definition metadata_report_text (meta_errors : list str) : str :=
  if negb (is_nil meta_errors) then
    concat (map (fun e => "ERROR: " ++ e ++ [NL]) meta_errors)
      ++ [NL] ++ "Please fix metadata issues above." ++ [NL]
  else "OK: Metadata checks passed." ++ [NL].

Definition abort_notice : str :=
  "Validation aborted due to metadata errors. See metadata report." ++ [NL].

Definition data_report_path (infile : str) (out_report : option str) : str :=
  match out_report with
  | Some ((_ :: _) as p) => p
  | _ => py_replace ".icsv" "_data_report.txt" infile
  end.

Definition metadata_report_path (infile : str) : str :=
  py_replace ".icsv" "_metadata_report.txt" infile.

(** [csv.writer(fh, delimiter=d)]: a [TypeError] unless [d] is one
    character; otherwise the writer, given by the line it writes for a
    row. *)
Definition csv_writer (delimiter : str) : option (list str -> str) :=
  match delimiter with
  | [_] => Some (csv_writerow delimiter)
  | _ => None
  end.

(** [validate_icsv] over a file system [fs] (path to text): the result,
    the file system afterwards and the trace of events.  [None] stands
    for a run that ends with an exception: a file that is missing or
    cannot be parsed, a data line the csv reader refuses, a delimiter
    the csv writer refuses (the temporary file, created just before, is
    then left behind). *)
Definition validate_icsv (fs : dict str) (infile : str)
           (out_report : option str)
  : option (bool * str * dict str * list event) :=
  let out_report := data_report_path infile out_report in
  match dict_get fs infile with
  | None => None
  | Some content =>
      match parse_icsv_metadata content with
      | None => None
      | Some (metadata, fields_meta) =>
          let meta_errors := check_metadata metadata fields_meta in
          let meta_report_path := metadata_report_path infile in
          let meta_text := metadata_report_text meta_errors in
          let fs1 := dict_set fs meta_report_path meta_text in
          let log1 := [EvWrite meta_report_path meta_text] in
          if negb (is_nil meta_errors) then
            Some (false, out_report, dict_set fs1 out_report abort_notice,
                  log1 ++ [EvWrite out_report abort_notice])
          else
            let delim :=
              match dict_get metadata "field_delimiter" with
              | Some d => d
              | None => "|"
              end in
            match dict_get fs1 infile with
            | None => None
            | Some content1 =>
                match _read_data_rows content1 delim with
                | None => None
                | Some (header, data_rows) =>
                    let sch := build_schema_from_metadata fields_meta in
                    match csv_writer delim with
                    | None => None
                    | Some writerow =>
                        let tmp_text :=
                          writerow
                            (if negb (is_nil header) then header
                             else dict_get_list fields_meta "fields")
                            ++ concat
                                 (map (fun r =>
                                         writerow
                                           (normalize_row (length header) r))
                                      data_rows) in
                        let fs2 := dict_set fs1 tmp_name tmp_text in
                        let log2 :=
                          log1 ++ [EvReadDataRows infile delim; EvBuildSchema;
                                   EvWrite tmp_name tmp_text;
                                   EvValidate tmp_name] in
                        match frictionless_validate tmp_text sch with
                        | inl rep =>
                            let summary := _format_report rep in
                            Some (report_valid rep, out_report,
                                  dict_remove
                                    (dict_set fs2 out_report summary)
                                    tmp_name,
                                  log2 ++ [EvWrite out_report summary;
                                           EvRemove tmp_name])
                        | inr e =>
                            let text := "Validation failed: " ++ e ++ [NL] in
                            Some (false, out_report,
                                  dict_remove (dict_set fs2 out_report text)
                                              tmp_name,
                                  log2 ++ [EvWrite out_report text;
                                           EvRemove tmp_name])
                        end
                    end
                end
            end
      end
  end.


(** ** Conditions on what is written

    An optional value without line break; the blocks of an enrichment
    that hold one key and one value per line and whose FIELDS cells can
    be told apart: the delimiter [d] is not white space, the header is
    not empty, no METADATA value holds a line break, and no cell of the
    FIELDS block holds the delimiter or a line break. *)
Definition opt_no_linebreak (o : option str) : bool :=
  match o with
  | Some v => no_linebreak v
  | None => true
  end.

Definition plain_blocks (d : ascii) (application_profile : option str)
           (e : enrichment) : bool :=
  negb (is_space d) && negb (is_nil (e_header e))
  && no_linebreak (isoformat utcnow) && no_linebreak module_name
  && no_linebreak (e_nodata_value e) && opt_no_linebreak application_profile
  && forallb (fun kv => forallb (cell_ok d) (snd kv))
             (fields_table (e_header e) (e_col_infos e)).

(** The blocks of an enrichment that hold one key and one value per
    line, whatever the delimiter is. *)
Definition plain_lines (application_profile : option str) (e : enrichment)
  : bool :=
  no_linebreak (e_icsv_delim e)
  && no_linebreak (isoformat utcnow) && no_linebreak module_name
  && no_linebreak (e_nodata_value e) && opt_no_linebreak application_profile
  && forallb (fun kv => forallb no_linebreak (snd kv))
             (fields_table (e_header e) (e_col_infos e)).

(** [metadata.get("field_delimiter", "|")], and the table [validate_icsv]
    writes to the temporary file: the header of the DATA section, or the
    names of the FIELDS block when there is none, and the rows cut or
    padded to the length of that header. *)
Definition delimiter_of (metadata : dict str) : str :=
  match dict_get metadata "field_delimiter" with
  | Some d => d
  | None => "|"
  end.

Definition validation_table (delim : str) (fields_meta : dict (list str))
           (header : list str) (data_rows : list (list str)) : str :=
  csv_writerow delim
    (if negb (is_nil header) then header
     else dict_get_list fields_meta "fields")
    ++ concat (map (fun r => csv_writerow delim
                               (normalize_row (length header) r))
                   data_rows).

(** The lines [_read_data_rows] looks at: the lines after the first
    [# [DATA]] line, and among them those that are neither a comment nor
    blank; and the cells the csv reader finds in one line. *)
Definition is_data_marker (raw : str) : bool :=
  str_eqb (strip (rstrip_nl raw)) "# [DATA]".

Fixpoint data_section (lines : list str) : list str :=
  match lines with
  | [] => []
  | raw :: rest => if is_data_marker raw then rest else data_section rest
  end.

Definition data_line (raw : str) : bool :=
  let line := strip (rstrip_nl raw) in
  negb (startswith line "#") && negb (str_eqb line "").

Definition line_cells (delimiter raw : str) : option (list str) :=
  match csv_reader delimiter (rstrip_nl raw) with
  | Some (parts :: _) => Some parts
  | _ => None
  end.


(** * Properties *)

Set Default Proof Using "Type".

(** ** Strings and lists *)

Lemma str_eqb_eq (a b : str) : str_eqb a b = true <-> a = b.
Proof.
  revert b; induction a as [|x a IH]; destruct b as [|y b]; simpl;
    try (split; [discriminate | intro H; discriminate H]).
  - split; reflexivity.
  - rewrite andb_true_iff, Ascii.eqb_eq, IH.
    split; [intros [-> ->]; reflexivity | intros [= -> ->]; auto].
Qed.

Lemma str_eqb_refl (a : str) : str_eqb a a = true.
Proof. apply str_eqb_eq; reflexivity. Qed.

Lemma str_eqb_neq (a b : str) : str_eqb a b = false <-> a <> b.
Proof.
  rewrite <- str_eqb_eq. destruct (str_eqb a b); split; congruence.
Qed.

Lemma str_in_In (s : str) (l : list str) : str_in s l = true <-> In s l.
Proof.
  unfold str_in. rewrite existsb_exists. split.
  - intros [x [Hin Heq]]. apply str_eqb_eq in Heq. subst; assumption.
  - intro Hin. exists s. split; [assumption | apply str_eqb_refl].
Qed.

Lemma is_nil_true {A} (l : list A) : is_nil l = true <-> l = [].
Proof. destruct l; simpl; split; congruence. Qed.

Lemma is_nil_false {A} (l : list A) : is_nil l = false <-> l <> [].
Proof. destruct l; simpl; split; congruence. Qed.

Lemma filter_map_swap {A B} (f : A -> B) (p : B -> bool) (l : list A) :
  map f (filter (fun x => p (f x)) l) = filter p (map f l).
Proof.
  induction l as [|x l IH]; simpl; [reflexivity|].
  destruct (p (f x)); simpl; rewrite IH; reflexivity.
Qed.

Lemma filter_all {A} (p : A -> bool) (l : list A) :
  forallb p l = true -> filter p l = l.
Proof.
  induction l as [|x l IH]; simpl; [reflexivity|].
  rewrite andb_true_iff. intros [Hx Hl]. rewrite Hx, IH; auto.
Qed.

Lemma filter_none {A} (p : A -> bool) (l : list A) :
  forallb (fun x => negb (p x)) l = true -> filter p l = [].
Proof.
  induction l as [|x l IH]; simpl; [reflexivity|].
  rewrite andb_true_iff. intros [Hx Hl].
  apply negb_true_iff in Hx. rewrite Hx. auto.
Qed.

(** ** The type inferrer *)

Lemma is_missing_cell_in (v : str) :
  is_missing_cell v = str_in v ENRICHMENT_COMMON_MISSING.
Proof.
  unfold is_missing_cell, ENRICHMENT_COMMON_MISSING, str_in.
  cbn [existsb]. destruct (str_eqb v ""); simpl.
  - reflexivity.
  - apply orb_false_r.
Qed.

(** The pruned values of [infer_column_type], for the fixed set of
    missing tokens: the stripped cells that are neither empty nor a
    missing token. *)
Lemma prune_fixed (values : list str) :
  prune values ENRICHMENT_COMMON_MISSING
  = filter (fun v => negb (is_missing_cell v)) (map strip values).
Proof.
  unfold prune.
  rewrite (filter_map_swap strip
             (fun v => negb (str_in v ENRICHMENT_COMMON_MISSING))).
  apply filter_ext. intro v. rewrite is_missing_cell_in. reflexivity.
Qed.

Lemma infer_flags_fold (pruned : list str) (a b c : bool) :
  fold_left
    (fun '(is_int, is_float, is_datetime) v =>
       ((if negb (re_match INT_RE v) then false else is_int),
        (if negb (re_match INT_RE v || re_match FLOAT_RE v)
         then false else is_float),
        (if negb (try_parse_datetime v) then false else is_datetime)))
    pruned (a, b, c)
  = (a && forallb (re_match INT_RE) pruned,
     b && forallb (fun v => re_match INT_RE v || re_match FLOAT_RE v) pruned,
     c && forallb try_parse_datetime pruned).
Proof.
  revert a b c; induction pruned as [|v l IH]; intros a b c; simpl.
  - rewrite !andb_true_r. reflexivity.
  - rewrite IH.
    destruct (re_match INT_RE v), (re_match FLOAT_RE v),
      (try_parse_datetime v), a, b, c; reflexivity.
Qed.

Lemma infer_flags_forallb (pruned : list str) :
  infer_flags pruned
  = (forallb (re_match INT_RE) pruned,
     forallb (fun v => re_match INT_RE v || re_match FLOAT_RE v) pruned,
     forallb try_parse_datetime pruned).
Proof. unfold infer_flags. rewrite infer_flags_fold. reflexivity. Qed.

Lemma infer_column_type_eq (values missing_values : list str) :
  infer_column_type values missing_values
  = let pruned := prune values missing_values in
    if is_nil pruned then TString
    else if forallb (re_match INT_RE) pruned then TInteger
    else if forallb (fun v => re_match INT_RE v || re_match FLOAT_RE v) pruned
    then TNumber
    else if forallb try_parse_datetime pruned then TDatetime
    else TString.
Proof.
  unfold infer_column_type. cbv zeta. rewrite infer_flags_forallb.
  reflexivity.
Qed.

Lemma lstrip_by_head (p : ascii -> bool) (s : str) :
  match lstrip_by p s with
  | [] => True
  | c :: _ => p c = false
  end.
Proof.
  induction s as [|c s IH]; simpl; [exact I|].
  destruct (p c) eqn:E; [exact IH | exact E].
Qed.

Lemma lstrip_by_fix (p : ascii -> bool) (c : ascii) (s : str) :
  p c = false -> lstrip_by p (c :: s) = c :: s.
Proof. intro H; simpl; rewrite H; reflexivity. Qed.

Lemma rstrip_by_cons (p : ascii -> bool) (c : ascii) (s : str) :
  p c = false -> rstrip_by p (c :: s) = c :: rstrip_by p s.
Proof. intro H; simpl. rewrite H. destruct (rstrip_by p s); reflexivity. Qed.

Lemma rstrip_by_idem (p : ascii -> bool) (s : str) :
  rstrip_by p (rstrip_by p s) = rstrip_by p s.
Proof.
  induction s as [|c s IH]; simpl; [reflexivity|].
  destruct (rstrip_by p s) as [|d r] eqn:E.
  - destruct (p c) eqn:Ec; simpl; [reflexivity | rewrite Ec; reflexivity].
  - change (rstrip_by p (c :: d :: r)) with
      (match rstrip_by p (d :: r) with
       | [] => if p c then [] else [c]
       | r' => c :: r'
       end).
    rewrite IH. reflexivity.
Qed.

Lemma strip_idem (s : str) : strip (strip s) = strip s.
Proof.
  unfold strip.
  pose proof (lstrip_by_head is_space s) as H.
  destruct (lstrip_by is_space s) as [|c t]; [reflexivity|].
  rewrite (rstrip_by_cons _ _ t H), (lstrip_by_fix _ _ _ H).
  rewrite <- (rstrip_by_cons _ _ t H). apply rstrip_by_idem.
Qed.

Lemma map_strip_idem (l : list str) : map strip (map strip l) = map strip l.
Proof.
  rewrite map_map. apply map_ext. intro; apply strip_idem.
Qed.

(** The pruned list of [make_icsv_from_csv] is the pruned list of
    [infer_column_type] on the stripped column. *)
Lemma prune_col_values (col : list str) :
  prune (map strip col) ENRICHMENT_COMMON_MISSING
  = filter (fun v => negb (is_missing_cell v)) (map strip col).
Proof. rewrite prune_fixed, map_strip_idem. reflexivity. Qed.

Lemma forallb_ext_in {A} (f g : A -> bool) (l : list A) :
  (forall x, In x l -> f x = g x) -> forallb f l = forallb g l.
Proof.
  induction l as [|x l IH]; intro H; [reflexivity|].
  cbn [forallb]. rewrite (H x (or_introl eq_refl)), IH; [reflexivity|].
  intros y Hy. apply H. right; exact Hy.
Qed.

(** On a value that is stripped and not empty, [try_parse_datetime] is
    the digit test followed by the cascade of parsers. *)
Lemma try_parse_datetime_stripped (v : str) :
  v <> [] -> strip v = v ->
  try_parse_datetime v
  = re_search (in_range "0" "9") v && datetime_cascade v.
Proof.
  intros Hne Hs. unfold try_parse_datetime.
  apply is_nil_false in Hne. rewrite Hne. cbv zeta. rewrite Hs.
  destruct (re_search (in_range "0" "9") v); reflexivity.
Qed.

Lemma pruned_value (values : list str) (v : str) :
  In v (filter (fun v => negb (is_missing_cell v)) (map strip values)) ->
  v <> [] /\ strip v = v.
Proof.
  intro H. apply filter_In in H as [Hin Hm].
  apply in_map_iff in Hin as [c [<- _]]. split; [|apply strip_idem].
  intro E. rewrite E in Hm. discriminate Hm.
Qed.

(** C1 (as amended).  For the fixed set of missing tokens and with
    [pruned] the stripped cells that are neither empty nor a missing
    token: an empty [pruned] gives [string]; otherwise the type is
    [integer] when every pruned value matches [-?digits], else [number]
    when every one matches [-?digits] or [-?digits.digits], else
    [datetime] when every one holds a digit and is accepted by the
    cascade of parsers (the test [try_parse_datetime] makes: a value
    without a digit is not a date, whatever the parsers say), else
    [string].  A non-empty column of integer-looking values is thus
    [integer], also when every value parses as a date. *)
Theorem infer_column_type_priority (values : list str) :
  infer_column_type values ENRICHMENT_COMMON_MISSING
  = let pruned := filter (fun v => negb (is_missing_cell v)) (map strip values) in
    if is_nil pruned then TString
    else if forallb (re_match INT_RE) pruned then TInteger
    else if forallb (fun v => re_match INT_RE v || re_match FLOAT_RE v) pruned
    then TNumber
    else if forallb (fun v => re_search (in_range "0" "9") v
                              && datetime_cascade v) pruned
    then TDatetime
    else TString.
Proof.
  rewrite infer_column_type_eq, prune_fixed. cbv zeta.
  rewrite (forallb_ext_in try_parse_datetime
             (fun v => re_search (in_range "0" "9") v && datetime_cascade v)).
  - reflexivity.
  - intros v Hv. destruct (pruned_value values v Hv) as [Hne Hs].
    apply try_parse_datetime_stripped; assumption.
Qed.

Lemma length_filter_strip (p : str -> bool) (col : list str) :
  length (filter p (map strip col))
  = length (filter (fun c => p (strip c)) col).
Proof. rewrite <- (filter_map_swap strip p col). apply length_map. Qed.

Lemma missing_count_of_profile (name : str) (col : list str) (info : col_info) :
  column_profile name col = Some info ->
  info_missing_count info
  = length (filter (fun c => is_missing_cell (strip c)) col).
Proof.
  unfold column_profile.
  destruct (infer_column_type (map strip col) ENRICHMENT_COMMON_MISSING).
  - destruct (compute_numeric_minmax _ _). intros [= <-].
    apply length_filter_strip.
  - destruct (compute_numeric_minmax _ _). intros [= <-].
    apply length_filter_strip.
  - destruct (compute_datetime_minmax _) as [[mn mx]|]; [|discriminate].
    intros [= <-]. apply length_filter_strip.
  - intros [= <-]. apply length_filter_strip.
Qed.

(** The body of the loop returns a profile unless the type is [datetime]
    and the least and greatest dates cannot be computed. *)
Lemma column_profile_none (name : str) (col : list str) :
  column_profile name col = None ->
  infer_column_type (map strip col) ENRICHMENT_COMMON_MISSING = TDatetime
  /\ compute_datetime_minmax
       (filter (fun v => negb (is_missing_cell v)) (map strip col))
     = None.
Proof.
  unfold column_profile.
  destruct (infer_column_type (map strip col) ENRICHMENT_COMMON_MISSING).
  - destruct (compute_numeric_minmax _ _). discriminate.
  - destruct (compute_numeric_minmax _ _). discriminate.
  - destruct (compute_datetime_minmax _) as [[mn mx]|]; [discriminate|].
    intros _. split; reflexivity.
  - discriminate.
Qed.

(** C7.  [missing_count] is the number of cells that, once stripped, are
    empty or a missing token: every column gets a profile with this
    count, except a [datetime] column whose least and greatest dates
    make [compute_datetime_minmax] raise, which ends the run.  A column
    made only of such cells has type [string], carries no [min] and no
    [max] key (both rendered as the empty string in the FIELDS block),
    and its [missing_count] is the number of its cells. *)
Theorem all_missing_column (name : str) (col : list str) :
  match column_profile name col with
  | Some info =>
      info_missing_count info
      = length (filter (fun c => is_missing_cell (strip c)) col)
  | None =>
      infer_column_type (map strip col) ENRICHMENT_COMMON_MISSING = TDatetime
      /\ compute_datetime_minmax
           (filter (fun v => negb (is_missing_cell v)) (map strip col))
         = None
  end
  /\ (forallb (fun c => is_missing_cell (strip c)) col = true ->
      exists info,
        column_profile name col = Some info
        /\ info_type info = TString
        /\ info_min info = None /\ info_max info = None
        /\ bound_cell (info_min info) = "" /\ bound_cell (info_max info) = ""
        /\ info_missing_count info = length col).
Proof.
  split.
  { destruct (column_profile name col) as [info|] eqn:E.
    - apply (missing_count_of_profile name col info E).
    - apply (column_profile_none name col E). }
  intro Hall.
  assert (Ht : infer_column_type (map strip col) ENRICHMENT_COMMON_MISSING
               = TString).
  { rewrite infer_column_type_eq, prune_col_values. cbv zeta.
    rewrite <- (filter_map_swap strip (fun v => negb (is_missing_cell v))).
    rewrite (filter_none (fun c => negb (is_missing_cell (strip c)))).
    - reflexivity.
    - rewrite forallb_forall in Hall |- *. intros c Hc.
      rewrite negb_involutive. apply Hall, Hc. }
  unfold column_profile. rewrite Ht.
  eexists. split; [reflexivity|]. cbn [info_type info_min info_max
    info_missing_count bound_cell].
  repeat split.
  rewrite length_filter_strip, (filter_all _ _ Hall). reflexivity.
Qed.

(** ** Characters *)

Lemma digit_not_space (c : ascii) : is_digit c = true -> is_space c = false.
Proof.
  unfold is_digit, is_space. cbv zeta.
  rewrite andb_true_iff, !Nat.leb_le. intros [H1 H2].
  repeat (apply orb_false_iff; split);
    rewrite ?andb_false_iff, ?Nat.leb_gt, ?Nat.eqb_neq; lia.
Qed.

Lemma digit_lower (c : ascii) : is_digit c = true -> lower_char c = c.
Proof.
  unfold is_digit, lower_char. cbv zeta.
  rewrite andb_true_iff, !Nat.leb_le. intros [H1 H2].
  replace (65 <=? nat_of_ascii c) with false
    by (symmetry; apply Nat.leb_gt; lia).
  replace (192 <=? nat_of_ascii c) with false
    by (symmetry; apply Nat.leb_gt; lia).
  reflexivity.
Qed.

Lemma digit_neq (c k : ascii) :
  is_digit c = true -> is_digit k = false -> Ascii.eqb c k = false.
Proof.
  intros Hc Hk. destruct (Ascii.eqb_spec c k) as [->|]; congruence.
Qed.

Lemma space_neq (c k : ascii) :
  is_space c = false -> is_space k = true -> Ascii.eqb c k = false.
Proof.
  intros Hc Hk. destruct (Ascii.eqb_spec c k) as [->|]; congruence.
Qed.

(** ** Stripping *)

Lemma rstrip_by_keep (p : ascii -> bool) (x y : str) :
  y <> [] -> forallb (fun c => negb (p c)) y = true ->
  rstrip_by p (x ++ y) = x ++ y.
Proof.
  intros Hy Hall. induction x as [|c x IH]; simpl.
  - clear Hy. induction y as [|c y IH]; [reflexivity|].
    simpl in Hall. apply andb_true_iff in Hall as [Hc Hall].
    apply negb_true_iff in Hc. rewrite (rstrip_by_cons _ _ _ Hc), IH; auto.
  - rewrite IH. destruct (x ++ y) eqn:E; [|reflexivity].
    apply app_eq_nil in E as [_ E]. contradiction.
Qed.

Lemma rstrip_by_drop (p : ascii -> bool) (x y : str) :
  forallb p y = true -> rstrip_by p (x ++ y) = rstrip_by p x.
Proof.
  intro Hall. induction x as [|c x IH]; simpl.
  - induction y as [|c y IH]; [reflexivity|].
    simpl in Hall. apply andb_true_iff in Hall as [Hc Hall].
    simpl. rewrite (IH Hall), Hc. reflexivity.
  - rewrite IH. reflexivity.
Qed.

Lemma rstrip_by_none (p : ascii -> bool) (x : str) :
  forallb (fun c => negb (p c)) x = true -> rstrip_by p x = x.
Proof.
  intro H. destruct x as [|c x]; [reflexivity|].
  apply (rstrip_by_keep p [] (c :: x)); [discriminate | exact H].
Qed.

(** ** The regular expressions *)

Lemma re_match_true (r : re) (s : str) :
  re_match r s = true <-> exists m, In m (rmatch r s).
Proof.
  unfold re_match. destruct (rmatch r s) as [|m l]; simpl.
  - split; [discriminate | intros [m []]].
  - split; [intros _; exists m; auto | reflexivity].
Qed.

Lemma in_rmatch_seq (a b : re) (s : str) (m : groups * str) :
  In m (rmatch (Seq a b) s) <->
  exists m1 m2, In m1 (rmatch a s) /\ In m2 (rmatch b (snd m1))
                /\ m = (fst m1 ++ fst m2, snd m2).
Proof.
  simpl. rewrite in_flat_map. split.
  - intros [m1 [H1 H2]]. apply in_map_iff in H2 as [m2 [E H2]].
    exists m1, m2. auto.
  - intros [m1 [m2 [H1 [H2 E]]]]. exists m1. split; [assumption|].
    apply in_map_iff. exists m2. auto.
Qed.

Lemma in_plus_rests (p : ascii -> bool) (s r : str) :
  In r (plus_rests p s) <->
  exists ds, ds <> [] /\ forallb p ds = true /\ s = ds ++ r.
Proof.
  revert r; induction s as [|c s IH]; intro r; simpl.
  - split; [intros [] | intros [ds [Hne [_ E]]]].
    destruct ds; [congruence | discriminate].
  - destruct (p c) eqn:Ec.
    + rewrite in_app_iff, IH. simpl. split.
      * intros [[ds [Hne [Hall E]]] | [E | []]].
        -- exists (c :: ds). simpl. rewrite Ec, Hall, E.
           repeat split. discriminate.
        -- exists [c]. simpl. rewrite Ec, E. repeat split. discriminate.
      * intros [ds [Hne [Hall E]]].
        destruct ds as [|d ds]; [congruence|].
        simpl in E. injection E as <- E. simpl in Hall.
        apply andb_true_iff in Hall as [_ Hall].
        destruct ds as [|d' ds].
        -- right; left. exact E.
        -- left. exists (d' :: ds). repeat split; auto. discriminate.
    + split; [intros [] | intros [ds [Hne [Hall E]]]].
      destruct ds as [|d ds]; [congruence|].
      simpl in E. injection E as <- E. simpl in Hall. rewrite Ec in Hall.
      discriminate.
Qed.

Lemma in_rmatch_plus (p : ascii -> bool) (s : str) (m : groups * str) :
  In m (rmatch (Plus p) s) <->
  fst m = [] /\ exists ds, ds <> [] /\ forallb p ds = true /\ s = ds ++ snd m.
Proof.
  simpl. rewrite in_map_iff. split.
  - intros [r [<- H]]. simpl. split; [reflexivity|].
    apply in_plus_rests, H.
  - intros [Hg H]. exists (snd m). split.
    + destruct m; simpl in *; subst; reflexivity.
    + apply in_plus_rests, H.
Qed.

Lemma in_rmatch_dollar (s : str) (m : groups * str) :
  In m (rmatch Dollar s) -> snd m = s /\ (s = [] \/ s = [NL]).
Proof.
  simpl. destruct s as [|c [|d s]].
  - intros [<- | []]. auto.
  - destruct (Ascii.eqb_spec c NL) as [->|]; [|intros []].
    intros [<- | []]. auto.
  - intros [].
Qed.

Lemma in_rmatch_opt_lit (k : ascii) (s : str) (m : groups * str) :
  In m (rmatch (Opt (Lit k)) s) -> s = k :: snd m \/ s = snd m.
Proof.
  simpl. rewrite in_app_iff. intros [H | [<- | []]]; [|right; reflexivity].
  destruct s as [|c s]; [destruct H|].
  destruct (Ascii.eqb_spec c k) as [->|]; [|destruct H].
  destruct H as [<- | []]. left; reflexivity.
Qed.

(** A value matching [INT_RE]: an optional minus sign, one or more
    digits, and possibly the final newline that [$] tolerates. *)
Lemma INT_RE_shape (v : str) :
  re_match INT_RE v = true ->
  exists sign ds tail,
    v = sign ++ ds ++ tail /\ (sign = [] \/ sign = "-")
    /\ ds <> [] /\ forallb is_digit ds = true
    /\ (tail = [] \/ tail = [NL]).
Proof.
  intro H. apply re_match_true in H as [m H]. unfold INT_RE in H.
  cbn [seqs] in H.
  apply in_rmatch_seq in H as [m1 [m2 [H1 [H2 _]]]].
  apply in_rmatch_seq in H2 as [m3 [m4 [H3 [H4 _]]]].
  apply in_rmatch_plus in H3 as [_ [ds [Hne [Hds E]]]].
  apply in_rmatch_dollar in H4 as [_ Ht].
  apply in_rmatch_opt_lit in H1.
  exists (if str_eqb v (snd m1) then [] else "-"), ds, (snd m3).
  rewrite <- E.
  destruct H1 as [H1 | H1].
  - assert (str_eqb v (snd m1) = false) as ->.
    { apply str_eqb_neq. rewrite H1. intro F.
      apply (f_equal (@length ascii)) in F. simpl in F. lia. }
    auto 10.
  - rewrite H1, str_eqb_refl. auto 10.
Qed.

(** A value matching [FLOAT_RE]. *)
Lemma FLOAT_RE_shape (v : str) :
  re_match FLOAT_RE v = true ->
  exists sign ds fs tail,
    v = sign ++ ds ++ "." ++ fs ++ tail /\ (sign = [] \/ sign = "-")
    /\ ds <> [] /\ forallb is_digit ds = true
    /\ fs <> [] /\ forallb is_digit fs = true
    /\ (tail = [] \/ tail = [NL]).
Proof.
  intro H. apply re_match_true in H as [m H]. unfold FLOAT_RE in H.
  cbn [seqs] in H.
  apply in_rmatch_seq in H as [m1 [m2 [H1 [H2 _]]]].
  apply in_rmatch_seq in H2 as [m3 [m4 [H3 [H4 _]]]].
  apply in_rmatch_seq in H4 as [m5 [m6 [H5 [H6 _]]]].
  apply in_rmatch_seq in H6 as [m7 [m8 [H7 [H8 _]]]].
  apply in_rmatch_plus in H3 as [_ [ds [Hne [Hds E]]]].
  apply in_rmatch_plus in H7 as [_ [fs [Hnf [Hfs E']]]].
  apply in_rmatch_dollar in H8 as [_ Ht].
  apply in_rmatch_opt_lit in H1.
  assert (E5 : snd m3 = "." ++ snd m5).
  { simpl in H5. destruct (snd m3) as [|c r]; [destruct H5|].
    destruct (Ascii.eqb_spec c ".") as [->|]; [|destruct H5].
    destruct H5 as [<- | []]. reflexivity. }
  exists (if str_eqb v (snd m1) then [] else "-"), ds, fs, (snd m7).
  rewrite <- E', <- E5, <- E.
  destruct H1 as [H1 | H1].
  - assert (str_eqb v (snd m1) = false) as ->.
    { apply str_eqb_neq. rewrite H1. intro F.
      apply (f_equal (@length ascii)) in F. simpl in F. lia. }
    auto 12.
  - rewrite H1, str_eqb_refl. auto 12.
Qed.

(** ** [int()] and [float()] cannot fail on the numeric patterns *)

Lemma take_digitpart_digits (ds rest : str) :
  forallb is_digit ds = true ->
  (rest = [] \/ exists x r, rest = x :: r /\ is_digit x = false
                            /\ Ascii.eqb x "_" = false) ->
  take_digitpart (ds ++ rest) = (ds, rest).
Proof.
  intros Hds Hrest. induction ds as [|c ds IH].
  - simpl. destruct Hrest as [-> | [x [r [-> [Hx _]]]]]; [reflexivity|].
    simpl. rewrite Hx. reflexivity.
  - simpl in Hds. apply andb_true_iff in Hds as [Hc Hds].
    specialize (IH Hds).
    change ((c :: ds) ++ rest) with (c :: (ds ++ rest)).
    cbn [take_digitpart]. rewrite Hc.
    destruct (ds ++ rest) as [|u [|d r']] eqn:E.
    + rewrite IH. reflexivity.
    + rewrite IH. reflexivity.
    + assert (Hu : Ascii.eqb u "_" = false).
      { destruct ds as [|u' ds'].
        - simpl in E. destruct Hrest as [-> | [x [r [-> [_ Hx]]]]];
            [discriminate|]. injection E as -> _. exact Hx.
        - simpl in E. injection E as -> _. simpl in Hds.
          apply andb_true_iff in Hds as [Hu _].
          apply digit_neq; [assumption | reflexivity]. }
      rewrite Hu. cbn [andb]. rewrite IH. reflexivity.
Qed.

Lemma take_digitpart_all (ds : str) :
  forallb is_digit ds = true -> take_digitpart ds = (ds, []).
Proof.
  intro H. pose proof (take_digitpart_digits ds [] H (or_introl eq_refl)) as E.
  rewrite app_nil_r in E. exact E.
Qed.

(** A character of a numeric text: ASCII and no white space of the C
    locale. *)
Lemma digit_number_char (c : ascii) :
  is_digit c = true ->
  (nat_of_ascii c <? 128) && negb (is_c_space c) = true.
Proof.
  unfold is_digit, is_c_space. cbv zeta.
  rewrite andb_true_iff, !Nat.leb_le. intros [H1 H2].
  apply andb_true_iff. split; [apply Nat.ltb_lt; lia|].
  apply negb_true_iff, orb_false_iff. split.
  - apply Nat.eqb_neq. lia.
  - apply andb_false_iff. right. apply Nat.leb_gt. lia.
Qed.

Lemma digits_number_chars (ds : str) :
  forallb is_digit ds = true ->
  forallb (fun c => (nat_of_ascii c <? 128) && negb (is_c_space c)) ds = true.
Proof.
  rewrite !forallb_forall. intros H c Hc. apply digit_number_char, H, Hc.
Qed.

(** The text [int] and [float] read in [sign body tail]. *)
Lemma number_text_numeric (sign body tail : str) :
  (sign = [] \/ sign = "-") -> body <> [] ->
  forallb (fun c => (nat_of_ascii c <? 128) && negb (is_c_space c)) body
  = true ->
  (tail = [] \/ tail = [NL]) ->
  number_text (sign ++ body ++ tail) = sign ++ body.
Proof.
  intros Hs Hb Hall Ht. unfold number_text.
  assert (Hascii : is_ascii (sign ++ body ++ tail) = true).
  { unfold is_ascii. rewrite !forallb_app. apply andb_true_iff. split.
    - destruct Hs as [-> | ->]; reflexivity.
    - apply andb_true_iff. split.
      + rewrite forallb_forall in Hall |- *. intros c Hc.
        specialize (Hall c Hc). apply andb_true_iff in Hall as [H _].
        exact H.
      + destruct Ht as [-> | ->]; reflexivity. }
  assert (Hns : forallb (fun c => negb (is_c_space c)) body = true).
  { rewrite forallb_forall in Hall |- *. intros c Hc.
    specialize (Hall c Hc). apply andb_true_iff in Hall as [_ H]. exact H. }
  rewrite Hascii.
  assert (Hl : lstrip_by is_c_space (sign ++ body ++ tail)
               = sign ++ body ++ tail).
  { destruct Hs as [-> | ->]; [|reflexivity].
    destruct body as [|c body]; [congruence|].
    simpl in Hns. apply andb_true_iff in Hns as [Hc _].
    apply negb_true_iff in Hc. apply (lstrip_by_fix _ _ _ Hc). }
  rewrite Hl, app_assoc, rstrip_by_drop.
  - apply rstrip_by_keep; assumption.
  - destruct Ht as [-> | ->]; reflexivity.
Qed.

Lemma digits_not_space (ds : str) :
  forallb is_digit ds = true ->
  forallb (fun c => negb (is_space c)) ds = true.
Proof.
  rewrite !forallb_forall. intros H c Hc.
  rewrite (digit_not_space c (H c Hc)). reflexivity.
Qed.

Lemma take_sign_numeric (sign body : str) :
  (sign = [] \/ sign = "-") ->
  (exists d r, body = d :: r /\ is_digit d = true) ->
  take_sign (sign ++ body) = (if is_nil sign then false else true, body).
Proof.
  intros Hs [d [r [-> Hd]]]. destruct Hs as [-> | ->]; [|reflexivity].
  simpl. rewrite !(digit_neq d _ Hd) by reflexivity. reflexivity.
Qed.

Lemma digits_head (ds : str) :
  ds <> [] -> forallb is_digit ds = true ->
  exists d r, ds = d :: r /\ is_digit d = true.
Proof.
  destruct ds as [|d r]; [congruence|]. simpl. intros _ H.
  apply andb_true_iff in H as [H _]. eauto.
Qed.

Lemma filter_digits_numeric (sign ds tail : str) :
  (sign = [] \/ sign = "-") -> forallb is_digit ds = true ->
  (tail = [] \/ tail = [NL]) ->
  filter is_digit (sign ++ ds ++ tail) = ds.
Proof.
  intros Hs Hds Ht. rewrite !filter_app.
  replace (filter is_digit sign) with (@nil ascii)
    by (destruct Hs as [-> | ->]; reflexivity).
  replace (filter is_digit tail) with (@nil ascii)
    by (destruct Ht as [-> | ->]; reflexivity).
  rewrite app_nil_r. cbn [List.app].
  induction ds as [|c ds IH]; [reflexivity|].
  cbn [forallb] in Hds. apply andb_true_iff in Hds as [Hc Hds].
  cbn [filter]. rewrite Hc, (IH Hds). reflexivity.
Qed.

(** [int(v)] reads every [v] that matches [INT_RE]: its digits are the
    digits of [v]. *)
Lemma int_literal_of_INT_RE (v : str) :
  re_match INT_RE v = true ->
  exists neg, int_literal v = Some (neg, filter is_digit v).
Proof.
  intro H. apply INT_RE_shape in H
    as [sign [ds [tail [-> [Hs [Hne [Hds Ht]]]]]]].
  unfold int_literal.
  rewrite number_text_numeric by auto using digits_number_chars.
  rewrite take_sign_numeric by auto using digits_head.
  rewrite take_digitpart_all by assumption.
  rewrite (filter_digits_numeric sign ds tail Hs Hds Ht).
  destruct ds as [|d r]; [congruence|]. eauto.
Qed.

(** [int(v)] raises on a [v] that matches [INT_RE] exactly when [v] has
    more digits than the limit. *)
Lemma py_int_of_INT_RE (v : str) :
  re_match INT_RE v = true ->
  if exceeds_int_max_str_digits (digit_count v)
  then py_int v = None
  else exists z, py_int v = Some z.
Proof.
  intro H. destruct (int_literal_of_INT_RE v H) as [neg E].
  unfold py_int, digit_count. rewrite E.
  destruct (exceeds_int_max_str_digits (length (filter is_digit v)));
    [reflexivity | eauto].
Qed.

Lemma lower_digits_head (d : ascii) (r k : str) :
  is_digit d = true ->
  match k with [] => False | c :: _ => is_digit c = false end ->
  str_eqb (lower (d :: r)) k = false.
Proof.
  intros Hd Hk. destruct k as [|c k]; [destruct Hk|].
  simpl. rewrite (digit_lower d Hd), (digit_neq d c Hd Hk). reflexivity.
Qed.

Lemma parse_float_literal_body (sign ds rest tail : str) :
  (sign = [] \/ sign = "-") -> ds <> [] -> forallb is_digit ds = true ->
  forallb (fun c => (nat_of_ascii c <? 128) && negb (is_c_space c)) rest
  = true ->
  (tail = [] \/ tail = [NL]) ->
  parse_float_literal (sign ++ (ds ++ rest) ++ tail)
  = let low := lower (ds ++ rest) in
    let (ip, r1) := take_digitpart (ds ++ rest) in
    let (fp, r2) :=
      match r1 with
      | c :: r => if Ascii.eqb c "." then take_digitpart r else ([], r1)
      | [] => ([], r1)
      end in
    match ip, fp with
    | [], [] => None
    | _, _ =>
        match parse_exponent r2 with
        | Some e => Some (FLDec (if is_nil sign then false else true) ip fp e)
        | None => None
        end
    end.
Proof.
  intros Hs Hne Hds Hrest Ht. unfold parse_float_literal.
  rewrite number_text_numeric; auto.
  - destruct (digits_head ds Hne Hds) as [d [r [E Hd]]].
    rewrite take_sign_numeric; auto.
    + subst ds. cbv iota beta. rewrite <- !app_comm_cons.
      rewrite !lower_digits_head by (assumption || reflexivity).
      reflexivity.
    + exists d, (r ++ rest). subst ds. auto.
  - destruct ds; [congruence | discriminate].
  - rewrite forallb_app, digits_number_chars; auto.
Qed.

(** [float(v)] returns for every [v] that matches [INT_RE] or
    [FLOAT_RE]. *)
Lemma py_float_of_number (v : str) :
  re_match INT_RE v || re_match FLOAT_RE v = true ->
  exists f, py_float v = Some f.
Proof.
  unfold py_float. intro H. apply orb_true_iff in H as [H | H].
  - apply INT_RE_shape in H as [sign [ds [tail [-> [Hs [Hne [Hds Ht]]]]]]].
    replace (sign ++ ds ++ tail) with (sign ++ (ds ++ []) ++ tail)
      by (rewrite app_nil_r; reflexivity).
    rewrite (parse_float_literal_body sign ds [] tail Hs Hne Hds
               eq_refl Ht).
    cbv zeta. rewrite app_nil_r, take_digitpart_all by assumption.
    destruct ds as [|d r]; [congruence|]. cbn. eauto.
  - apply FLOAT_RE_shape in H
      as [sign [ds [fs [tail [-> [Hs [Hne [Hds [Hnf [Hfs Ht]]]]]]]]]].
    replace (sign ++ ds ++ "." ++ fs ++ tail)
      with (sign ++ (ds ++ "." ++ fs) ++ tail)
      by (rewrite <- !app_assoc; reflexivity).
    rewrite parse_float_literal_body; auto.
    + cbv zeta. rewrite take_digitpart_digits; auto.
      * cbn [List.app]. rewrite Ascii.eqb_refl.
        rewrite take_digitpart_all by assumption.
        destruct ds as [|d r]; [congruence|]. cbn. eauto.
      * right. exists "."%char, fs. auto.
    + cbn [List.app forallb]. rewrite digits_number_chars by assumption.
      reflexivity.
Qed.

Lemma map_opt_total {A B} (f : A -> option B) (l : list A) :
  (forall x, In x l -> exists y, f x = Some y) ->
  exists ys, map_opt f l = Some ys /\ length ys = length l.
Proof.
  induction l as [|x l IH]; intro H; simpl.
  - exists []. auto.
  - destruct (H x (or_introl eq_refl)) as [y ->].
    destruct IH as [ys [-> Hlen]].
    + intros z Hz. apply H. right; assumption.
    + exists (y :: ys). simpl. auto.
Qed.

Lemma py_min_some {A} (lt : A -> A -> bool) (l : list A) :
  l <> [] -> exists m, py_min lt l = Some m.
Proof. destruct l; [congruence|]. simpl. eauto. Qed.

Lemma py_max_some {A} (lt : A -> A -> bool) (l : list A) :
  l <> [] -> exists m, py_max lt l = Some m.
Proof. destruct l; [congruence|]. simpl. eauto. Qed.

Lemma nonempty_of_length {A B} (l : list A) (l' : list B) :
  length l' = length l -> l <> [] -> l' <> [].
Proof. destruct l, l'; simpl; congruence. Qed.

(** The casts of an integer column: they all return unless one value
    has more digits than the limit. *)
Lemma map_opt_py_int_INT_RE (pruned : list str) :
  forallb (re_match INT_RE) pruned = true ->
  if existsb (fun v => exceeds_int_max_str_digits (digit_count v)) pruned
  then map_opt py_int pruned = None
  else exists nums,
      map_opt py_int pruned = Some nums /\ length nums = length pruned.
Proof.
  induction pruned as [|v l IH]; intro H.
  - exists []. split; reflexivity.
  - cbn [forallb] in H. apply andb_true_iff in H as [Hv Hl].
    specialize (IH Hl). pose proof (py_int_of_INT_RE v Hv) as Pv.
    cbn [existsb map_opt].
    destruct (exceeds_int_max_str_digits (digit_count v)).
    + rewrite Pv. reflexivity.
    + destruct Pv as [z ->]. cbn [orb].
      destruct (existsb _ l).
      * rewrite IH. reflexivity.
      * destruct IH as [nums [-> Hlen]]. exists (z :: nums).
        split; [reflexivity|]. cbn [length]. rewrite Hlen. reflexivity.
Qed.

(** C10 (as amended).  When the inferred type of a column is [integer]
    (resp. [number]), the pruned list handed to [compute_numeric_minmax]
    is not empty and every pruned value matches the integer (resp.
    integer or decimal) pattern.  For [number] every cast returns and
    both the minimum and the maximum are present.  For [integer] the
    cast of a value raises exactly when the value has more digits than
    the limit of the interpreter: the minimum and the maximum are both
    present when no pruned value has, and both absent, by the branch
    that gives them up, when one has. *)
Theorem numeric_minmax_present (col : list str) :
  let col_values := map strip col in
  let pruned := filter (fun v => negb (is_missing_cell v)) col_values in
  let t := infer_column_type col_values ENRICHMENT_COMMON_MISSING in
  t = TInteger \/ t = TNumber ->
  pruned <> []
  /\ match t with
     | TInteger =>
         forallb (re_match INT_RE) pruned = true
         /\ (forall v, In v pruned ->
                       py_int v = None
                       <-> exceeds_int_max_str_digits (digit_count v) = true)
         /\ if existsb (fun v => exceeds_int_max_str_digits (digit_count v))
                       pruned
            then compute_numeric_minmax pruned t = (None, None)
            else exists mn mx,
                compute_numeric_minmax pruned t
                = (Some (VInt mn), Some (VInt mx))
     | _ =>
         forallb (fun v => re_match INT_RE v || re_match FLOAT_RE v) pruned
         = true
         /\ (exists nums, map_opt py_float pruned = Some nums)
         /\ exists mn mx,
             compute_numeric_minmax pruned t
             = (Some (VFloat mn), Some (VFloat mx))
     end.
Proof.
  intros col_values pruned t. subst t.
  rewrite infer_column_type_eq. subst col_values.
  rewrite prune_col_values. fold pruned. cbv zeta.
  destruct (is_nil pruned) eqn:En; [intros [H | H]; discriminate H|].
  apply is_nil_false in En.
  destruct (forallb (re_match INT_RE) pruned) eqn:Ei.
  - intros _. split; [assumption|]. split; [reflexivity|]. split.
    { intros v Hv. rewrite forallb_forall in Ei.
      pose proof (py_int_of_INT_RE v (Ei v Hv)) as Pv.
      destruct (exceeds_int_max_str_digits (digit_count v)).
      - split; [reflexivity | intros _; exact Pv].
      - destruct Pv as [z ->]. split; discriminate. }
    pose proof (map_opt_py_int_INT_RE pruned Ei) as Hn.
    unfold compute_numeric_minmax.
    apply is_nil_false in En. rewrite En.
    destruct (existsb _ pruned).
    + rewrite Hn. reflexivity.
    + destruct Hn as [nums [-> Hlen]].
      pose proof (nonempty_of_length _ _ Hlen (proj1 (is_nil_false _) En))
        as Hne.
      destruct (py_min_some Z.ltb nums Hne) as [mn ->].
      destruct (py_max_some Z.ltb nums Hne) as [mx ->].
      simpl. eauto.
  - destruct (forallb (fun v => re_match INT_RE v || re_match FLOAT_RE v)
                pruned) eqn:Ef.
    + intros _. split; [assumption|]. split; [reflexivity|].
      destruct (map_opt_total py_float pruned) as [nums [Hn Hlen]].
      { intros v Hv. apply py_float_of_number.
        rewrite forallb_forall in Ef. auto. }
      split; [eauto|].
      unfold compute_numeric_minmax.
      apply is_nil_false in En. rewrite En, Hn.
      pose proof (nonempty_of_length _ _ Hlen (proj1 (is_nil_false _) En))
        as Hne.
      destruct (py_min_some float_lt nums Hne) as [mn ->].
      destruct (py_max_some float_lt nums Hne) as [mx ->].
      simpl. eauto.
    + destruct (forallb try_parse_datetime pruned);
        intros [H | H]; discriminate H.
Qed.

(** ** The geometry hint *)

Lemma str_eqb_sym (a b : str) : str_eqb a b = str_eqb b a.
Proof.
  destruct (str_eqb a b) eqn:E.
  - apply str_eqb_eq in E. subst. symmetry. apply str_eqb_refl.
  - symmetry. apply str_eqb_neq. apply str_eqb_neq in E. congruence.
Qed.

Lemma geometry_lookup (header : list str) :
  match find is_geometry_name header with
  | Some g =>
      str_in "geometry" (map lower header) = true
      /\ exists idx, index_of "geometry" (map lower header) = Some idx
                     /\ nth idx header [] = g
  | None => str_in "geometry" (map lower header) = false
  end.
Proof.
  induction header as [|h l IH]; [reflexivity|].
  cbn [find map index_of str_in existsb]. unfold is_geometry_name at 1.
  rewrite (str_eqb_sym "geometry" (lower h)).
  destruct (str_eqb (lower h) "geometry") eqn:E.
  - split; [reflexivity|]. exists 0. auto.
  - cbn [orb]. fold (str_in "geometry" (map lower l)).
    destruct (find is_geometry_name l) as [g|].
    + destruct IH as [Hin [idx [Hidx Hnth]]]. split; [assumption|].
      exists (S idx). rewrite Hidx. auto.
    + exact IH.
Qed.

Lemma find_app {A} (p : A -> bool) (l1 l2 : list A) :
  find p (l1 ++ l2)
  = match find p l1 with Some x => Some x | None => find p l2 end.
Proof.
  induction l1 as [|x l1 IH]; simpl; [reflexivity|].
  destruct (p x); [reflexivity | exact IH].
Qed.

Lemma last_index_last_such {A} (p : A -> bool) (d : A) (l : list A) :
  match last_index p l with
  | Some i => last_such p l = Some (nth i l d)
  | None => last_such p l = None
  end.
Proof.
  unfold last_such. induction l as [|x l IH]; [reflexivity|].
  cbn [last_index rev]. rewrite find_app.
  destruct (last_index p l) as [i|].
  - rewrite IH. reflexivity.
  - rewrite IH. simpl. destruct (p x); reflexivity.
Qed.

Lemma lat_lon_fold (l : list str) (k : nat) (la lo : option nat) :
  fold_left
    (fun '(lat_idx, lon_idx) '(i, h) =>
       ((if str_in h ["lat"; "latitude"] then Some i else lat_idx),
        (if str_in h ["lon"; "lng"; "longitude"] then Some i else lon_idx)))
    (combine (seq k (length l)) (map lower l)) (la, lo)
  = (match last_index is_latitude_name l with
     | Some i => Some (k + i)
     | None => la
     end,
     match last_index is_longitude_name l with
     | Some i => Some (k + i)
     | None => lo
     end).
Proof.
  revert k la lo. induction l as [|h l IH]; intros k la lo; [reflexivity|].
  cbn [length seq map combine fold_left last_index]. rewrite IH.
  fold (is_latitude_name h). fold (is_longitude_name h).
  destruct (last_index is_latitude_name l), (last_index is_longitude_name l),
    (is_latitude_name h), (is_longitude_name h);
    rewrite ?Nat.add_succ_r, ?Nat.add_0_r; reflexivity.
Qed.

(** C8.  A column whose lower-cased name is [geometry] gives the hint
    [column:<name>] (the name as written, of the first such column) and
    no SRID.  Otherwise, when the header has a column named [lat] or
    [latitude] and one named [lon], [lng] or [longitude] (in any letter
    case), the hint is [column:<lat>,<lon>] for the last column of each
    kind, with SRID [EPSG:4326].  Otherwise there is no hint. *)
Theorem detect_geometry_hint_spec (header : list str) :
  detect_geometry_hint header
  = match find is_geometry_name header with
    | Some g => (Some ("column:" ++ g), None)
    | None =>
        match last_such is_latitude_name header,
              last_such is_longitude_name header with
        | Some la, Some lo =>
            (Some ("column:" ++ la ++ "," ++ lo), Some "EPSG:4326")
        | _, _ => (None, None)
        end
    end.
Proof.
  unfold detect_geometry_hint. cbv zeta.
  pose proof (geometry_lookup header) as Hg.
  destruct (find is_geometry_name header) as [g|].
  - destruct Hg as [-> [idx [-> <-]]]. reflexivity.
  - rewrite Hg. unfold enumerate. rewrite length_map, lat_lon_fold.
    pose proof (last_index_last_such is_latitude_name [] header) as Hla.
    pose proof (last_index_last_such is_longitude_name [] header) as Hlo.
    destruct (last_index is_latitude_name header) as [i|];
      destruct (last_index is_longitude_name header) as [j|];
      rewrite Hla; try rewrite Hlo; reflexivity.
Qed.

(** ** The metadata gate *)

Lemma flat_map_nonempty {A B} (f : A -> list B) (l : list A) :
  flat_map f l <> [] <-> exists x, In x l /\ f x <> [].
Proof.
  induction l as [|x l IH]; simpl.
  - split; [congruence | intros [x [[] _]]].
  - split.
    + intro H. destruct (f x) eqn:E.
      * simpl in H. apply IH in H as [y [Hy Hf]]. eauto.
      * exists x. split; [auto | congruence].
    + intros [y [[<- | Hy] Hf]] H; apply app_eq_nil in H as [H1 H2].
      * contradiction.
      * apply IH in H2; eauto.
Qed.

Lemma check_metadata_eq (metadata : dict str) (fields_meta : dict (list str)) :
  check_metadata metadata fields_meta
  = (match dict_get metadata "field_delimiter" with
     | Some (_ :: _) => []
     | _ => ["Missing required metadata: field_delimiter"]
     end)
    ++ match dict_get fields_meta "fields" with
       | None => ["Missing [FIELDS] 'fields' list"]
       | Some fields =>
           map (fun entry =>
                  inconsistent_count_error (fst entry) (length fields)
                                           (length (snd entry)))
               (filter (wrong_length (length fields)) fields_meta)
       end.
Proof.
  unfold check_metadata, dict_mem. f_equal.
  - destruct (dict_get metadata "field_delimiter") as [[|c v]|]; reflexivity.
  - destruct (dict_get fields_meta "fields") as [fields|]; [|reflexivity].
    induction fields_meta as [|[k v] l IH]; [reflexivity|].
    cbn [flat_map filter]. unfold wrong_length at 1. cbn [fst snd].
    destruct (negb (str_eqb k "fields") && negb (is_nil v)
              && negb (length v =? length fields));
      cbn [map List.app]; rewrite IH; reflexivity.
Qed.

(** C4.  [check_metadata] always returns a list, and the list is not
    empty exactly when [field_delimiter] is absent or empty, or
    [fields] is absent from the FIELDS map, or some other key of the
    FIELDS map has a non-empty list whose length is not the length of
    the [fields] list.  An empty list under a key is never reported. *)
Theorem check_metadata_errors_iff
        (metadata : dict str) (fields_meta : dict (list str)) :
  check_metadata metadata fields_meta <> [] <->
  (dict_get metadata "field_delimiter" = None
   \/ dict_get metadata "field_delimiter" = Some [])
  \/ dict_get fields_meta "fields" = None
  \/ exists key values,
       In (key, values) fields_meta /\ key <> "fields" /\ values <> []
       /\ length values <> length (dict_get_list fields_meta "fields").
Proof.
  rewrite check_metadata_eq. unfold dict_get_list.
  destruct (dict_get metadata "field_delimiter") as [[|c v]|].
  - split; [auto | discriminate].
  - cbn [List.app].
    destruct (dict_get fields_meta "fields") as [fields|].
    + split.
      * intro H. right; right.
        destruct (filter (wrong_length (length fields)) fields_meta)
          as [|[k vs] r] eqn:E; [contradiction|].
        assert (Hin : In (k, vs) (filter (wrong_length (length fields))
                                         fields_meta))
          by (rewrite E; left; reflexivity).
        apply filter_In in Hin as [Hin Hw]. unfold wrong_length in Hw.
        cbn [fst snd] in Hw.
        apply andb_true_iff in Hw as [Hw H3].
        apply andb_true_iff in Hw as [H1 H2].
        apply negb_true_iff in H1, H2, H3.
        exists k, vs. repeat split.
        -- assumption.
        -- apply str_eqb_neq, H1.
        -- apply is_nil_false, H2.
        -- apply Nat.eqb_neq, H3.
      * intros [[H | H] | [H | [k [vs [Hin [H1 [H2 H3]]]]]]];
          try discriminate.
        assert (Hf : In (k, vs) (filter (wrong_length (length fields))
                                        fields_meta)).
        { apply filter_In. split; [assumption|]. unfold wrong_length.
          cbn [fst snd].
          apply str_eqb_neq in H1. apply is_nil_false in H2.
          apply Nat.eqb_neq in H3. rewrite H1, H2, H3. reflexivity. }
        destruct (filter (wrong_length (length fields)) fields_meta);
          [destruct Hf | discriminate].
    + split; [auto | discriminate].
  - split; [auto | discriminate].
Qed.

(** Keys of a dictionary built by assignments are pairwise distinct. *)
Lemma dict_get_None_keys {V} (d : dict V) (k : str) :
  dict_get d k = None -> ~ In k (map fst d).
Proof.
  induction d as [|[k' v] d IH]; simpl; [auto|].
  destruct (str_eqb k' k) eqn:E; [discriminate|].
  intros H [F | F].
  - apply str_eqb_neq in E. contradiction.
  - exact (IH H F).
Qed.

Lemma dict_set_keys {V} (d : dict V) (k : str) (v : V) :
  map fst (dict_set d k v)
  = if dict_mem d k then map fst d else map fst d ++ [k].
Proof.
  unfold dict_mem. induction d as [|[k' v'] d IH]; simpl; [reflexivity|].
  destruct (str_eqb k' k) eqn:E; simpl; [reflexivity|].
  rewrite IH. destruct (dict_get d k); reflexivity.
Qed.

Lemma dict_set_NoDup {V} (d : dict V) (k : str) (v : V) :
  NoDup (map fst d) -> NoDup (map fst (dict_set d k v)).
Proof.
  intro H. rewrite dict_set_keys. unfold dict_mem.
  destruct (dict_get d k) eqn:E; [assumption|].
  apply NoDup_app; [assumption | repeat constructor; auto |].
  intros x Hx [<- | []]. exact (dict_get_None_keys d k E Hx).
Qed.

Lemma parse_lines_NoDup (lines : list str) (section : option section_name)
      (metadata : dict str) (fields_meta : dict (list str)) :
  NoDup (map fst fields_meta) ->
  NoDup (map fst (snd (parse_lines lines section metadata fields_meta))).
Proof.
  revert section metadata fields_meta.
  induction lines as [|raw rest IH]; intros section metadata fields_meta H;
    [exact H|].
  cbn [parse_lines]. cbv zeta.
  repeat match goal with
         | |- context [if ?b then _ else _] => destruct b
         | |- context [let (_, _) := ?p in _] => destruct p
         | |- context [match ?s with Some _ => _ | None => _ end] =>
             destruct s as [[|]|]
         end;
    auto using dict_set_NoDup.
Qed.

Lemma resplit_keys (delim : str) (fields_meta corrected : dict (list str)) :
  resplit delim fields_meta = Some corrected ->
  map fst corrected = map fst fields_meta.
Proof.
  unfold resplit. revert corrected.
  induction fields_meta as [|[k v] l IH]; intros corrected; simpl.
  - intros [= <-]. reflexivity.
  - destruct (py_split delim (join "|" v)); [|discriminate].
    destruct (map_opt _ l) as [r|]; [|discriminate].
    intros [= <-]. simpl. rewrite (IH r eq_refl). reflexivity.
Qed.

Lemma parse_icsv_metadata_NoDup (content : str)
      (metadata : dict str) (fields_meta : dict (list str)) :
  parse_icsv_metadata content = Some (metadata, fields_meta) ->
  NoDup (map fst fields_meta).
Proof.
  unfold parse_icsv_metadata.
  pose proof (parse_lines_NoDup (file_lines content) None [] [] (NoDup_nil _))
    as H.
  destruct (parse_lines (file_lines content) None [] []) as [m f].
  cbn [snd] in H.
  destruct (dict_get m "field_delimiter") as [delim|].
  - destruct (resplit delim f) as [c|] eqn:E; [|discriminate].
    intros [= _ <-]. rewrite (resplit_keys _ _ _ E). exact H.
  - intros [= _ <-]. exact H.
Qed.

Lemma dict_get_In {V} (d : dict V) (k : str) (v : V) :
  dict_get d k = Some v -> In (k, v) d.
Proof.
  induction d as [|[k' v'] d IH]; simpl; [discriminate|].
  destruct (str_eqb k' k) eqn:E.
  - apply str_eqb_eq in E. intros [= ->]. subst. auto.
  - auto.
Qed.

Lemma filter_single {V} (p : str * V -> bool) (d : dict V) (k : str) (v : V) :
  NoDup (map fst d) -> dict_get d k = Some v -> p (k, v) = true ->
  (forall k' v', In (k', v') d -> k' <> k -> p (k', v') = false) ->
  filter p d = [(k, v)].
Proof.
  induction d as [|[k' v'] d IH]; simpl; [discriminate|].
  intros Hnd Hget Hp Hothers. inversion Hnd as [|x l Hnotin Hnd']; subst.
  destruct (str_eqb k' k) eqn:E.
  - apply str_eqb_eq in E. injection Hget as ->. subst k'. rewrite Hp.
    f_equal. apply filter_none. apply forallb_forall. intros [k2 v2] Hin.
    rewrite (Hothers k2 v2); [reflexivity | auto |].
    intros ->. apply Hnotin. apply (in_map fst) in Hin. exact Hin.
  - rewrite (Hothers k' v'); [| auto | apply str_eqb_neq, E].
    apply IH; auto.
Qed.

Lemma startswith_app (p x : str) : startswith (p ++ x) p = true.
Proof.
  induction p as [|c p IH]; simpl; [destruct x; reflexivity|].
  rewrite Ascii.eqb_refl, IH. reflexivity.
Qed.

Lemma inconsistency_errors_of_check
      (metadata : dict str) (fields_meta : dict (list str)) (fields : list str) :
  dict_get fields_meta "fields" = Some fields ->
  filter is_inconsistency_error (check_metadata metadata fields_meta)
  = map (fun entry =>
           inconsistent_count_error (fst entry) (length fields)
                                    (length (snd entry)))
        (filter (wrong_length (length fields)) fields_meta).
Proof.
  intro Hf. rewrite check_metadata_eq, Hf.
  assert (H : filter is_inconsistency_error
                (map (fun entry =>
                        inconsistent_count_error (fst entry) (length fields)
                                                 (length (snd entry)))
                     (filter (wrong_length (length fields)) fields_meta))
              = map (fun entry =>
                       inconsistent_count_error (fst entry) (length fields)
                                                (length (snd entry)))
                    (filter (wrong_length (length fields)) fields_meta)).
  { apply filter_all. apply forallb_forall.
    intros e He. apply in_map_iff in He as [entry [<- _]].
    unfold is_inconsistency_error, inconsistent_count_error.
    apply startswith_app. }
  destruct (dict_get metadata "field_delimiter") as [[|c v]|];
    cbn [List.app filter];
    try change (is_inconsistency_error
                  "Missing required metadata: field_delimiter") with false;
    cbv iota; exact H.
Qed.

(** C5 (as amended).  When [check_metadata] reports errors,
    [validate_icsv] returns [(False, report_path)]; its only effects are
    the two writes: the metadata report, one [ERROR:] line per error
    followed by the remediation hint, and the abort notice in the data
    report; the data section is not read, no schema is built and the
    validator is not called.  [check_metadata] reports one inconsistency
    error for each FIELDS list of a wrong length: when the [types] list
    is non-empty and shorter than [fields], the error for [types] is
    among them, and it is the only inconsistency error when every other
    list is empty or as long as [fields]. *)
Theorem validate_icsv_metadata_gate
        (fs : dict str) (infile : str) (out_report : option str)
        (content : str) (metadata : dict str) (fields_meta : dict (list str)) :
  dict_get fs infile = Some content ->
  parse_icsv_metadata content = Some (metadata, fields_meta) ->
  let errors := check_metadata metadata fields_meta in
  let meta_text :=
    concat (map (fun e => "ERROR: " ++ e ++ [NL]) errors)
      ++ [NL] ++ "Please fix metadata issues above." ++ [NL] in
  (errors <> [] ->
   validate_icsv fs infile out_report
   = Some (false, data_report_path infile out_report,
           dict_set (dict_set fs (metadata_report_path infile) meta_text)
                    (data_report_path infile out_report) abort_notice,
           [EvWrite (metadata_report_path infile) meta_text;
            EvWrite (data_report_path infile out_report) abort_notice]))
  /\ (forall fields types,
        dict_get fields_meta "fields" = Some fields ->
        dict_get fields_meta "types" = Some types ->
        types <> [] -> length types < length fields ->
        errors <> []
        /\ filter is_inconsistency_error errors
           = map (fun entry =>
                    inconsistent_count_error (fst entry) (length fields)
                                             (length (snd entry)))
                 (filter (wrong_length (length fields)) fields_meta)
        /\ In (inconsistent_count_error "types" (length fields) (length types))
              (filter is_inconsistency_error errors)
        /\ ((forall key values,
               In (key, values) fields_meta -> key <> "types" ->
               key <> "fields" ->
               values = [] \/ length values = length fields) ->
            filter is_inconsistency_error errors
            = [inconsistent_count_error "types" (length fields)
                                        (length types)])).
Proof.
  intros Hfs Hparse errors meta_text. split.
  - intro Herr. unfold validate_icsv. rewrite Hfs, Hparse.
    fold errors. unfold metadata_report_text.
    apply is_nil_false in Herr. rewrite Herr. reflexivity.
  - intros fields types Hf Ht Hne Hlen.
    assert (Hw : wrong_length (length fields) ("types", types) = true).
    { unfold wrong_length. cbn [fst snd].
      apply is_nil_false in Hne. rewrite Hne.
      replace (length types =? length fields) with false
        by (symmetry; apply Nat.eqb_neq; lia).
      reflexivity. }
    assert (Hin : In ("types", types)
                     (filter (wrong_length (length fields)) fields_meta)).
    { apply filter_In. split; [apply dict_get_In, Ht | exact Hw]. }
    pose proof (inconsistency_errors_of_check metadata fields_meta fields Hf)
      as Heq. fold errors in Heq.
    assert (Hmsg : In (inconsistent_count_error "types" (length fields)
                                                (length types))
                      (filter is_inconsistency_error errors)).
    { rewrite Heq. apply in_map_iff. exists ("types", types). auto. }
    split; [|split; [exact Heq | split; [exact Hmsg|]]].
    + intro E. rewrite E in Hmsg. destruct Hmsg.
    + intro Hothers. rewrite Heq.
      rewrite (filter_single (wrong_length (length fields)) fields_meta
                 "types" types); auto.
      * apply (parse_icsv_metadata_NoDup content metadata), Hparse.
      * intros k v Hkv Hk. unfold wrong_length. cbn [fst snd].
        destruct (str_eqb k "fields") eqn:Ek; [reflexivity|].
        apply str_eqb_neq in Ek.
        destruct (Hothers k v Hkv Hk Ek) as [-> | ->]; cbn [negb andb].
        -- reflexivity.
        -- rewrite Nat.eqb_refl. apply andb_false_r.
Qed.

(** ** The nodata token *)

Lemma fold_left_concat {A B} (f : A -> B -> A) (ls : list (list B)) (a : A) :
  fold_left (fun acc l => fold_left f l acc) ls a = fold_left f (concat ls) a.
Proof.
  revert a; induction ls as [|l ls IH]; intro a; simpl; [reflexivity|].
  rewrite fold_left_app. apply IH.
Qed.

Lemma fold_left_filter {A B} (f : A -> B -> A) (p : B -> bool)
      (l : list B) (a : A) :
  fold_left (fun acc x => if p x then f acc x else acc) l a
  = fold_left f (filter p l) a.
Proof.
  revert a; induction l as [|x l IH]; intro a; simpl; [reflexivity|].
  destruct (p x); simpl; apply IH.
Qed.

Lemma count_placeholders_tally (rows : list (list str)) :
  count_placeholders rows
  = fold_left incr_count (observed_placeholders rows) [].
Proof.
  unfold count_placeholders, observed_placeholders.
  rewrite (fold_left_concat
             (fun counts c =>
                if str_in c ENRICHMENT_COMMON_MISSING
                then incr_count counts c else counts)).
  apply fold_left_filter.
Qed.

Lemma count_of_cons (t c : str) (l : list str) :
  count_of t (c :: l) = (if str_eqb t c then 1 else 0) + count_of t l.
Proof. unfold count_of. simpl. destruct (str_eqb t c); reflexivity. Qed.

Lemma count_of_cons_neq (t c : str) (l : list str) :
  t <> c -> count_of t (c :: l) = count_of t l.
Proof.
  intro H. rewrite count_of_cons. apply str_eqb_neq in H. rewrite H.
  reflexivity.
Qed.

Lemma dict_set_absent {V} (d : dict V) (k : str) (v : V) :
  dict_get d k = None -> dict_set d k v = d ++ [(k, v)].
Proof.
  induction d as [|[k' v'] d IH]; simpl; [reflexivity|].
  destruct (str_eqb k' k); [discriminate|]. intro H. rewrite IH; auto.
Qed.

Lemma dict_mem_set {V} (d : dict V) (k t : str) (v : V) :
  dict_mem (dict_set d k v) t = dict_mem d t || str_eqb k t.
Proof.
  unfold dict_mem. induction d as [|[k' v'] d IH]; simpl.
  - destruct (str_eqb k t); reflexivity.
  - destruct (str_eqb k' k) eqn:E; simpl.
    + apply str_eqb_eq in E. subst k'.
      destruct (str_eqb k t); [reflexivity|].
      destruct (dict_get d t); reflexivity.
    + destruct (str_eqb k' t); [reflexivity | exact IH].
Qed.

Lemma add_counts_skip (c : str) (l : list str) (d : dict nat) :
  ~ In c (map fst d) ->
  map (add_counts (c :: l)) d = map (add_counts l) d.
Proof.
  intro H. apply map_ext_in. intros [k n] Hin. unfold add_counts. simpl.
  rewrite count_of_cons_neq; [reflexivity|].
  intros ->. apply H. apply (in_map fst) in Hin. exact Hin.
Qed.

Lemma add_counts_present (c : str) (l : list str) (d : dict nat) (n0 : nat) :
  NoDup (map fst d) -> dict_get d c = Some n0 ->
  map (add_counts l) (dict_set d c (n0 + 1)) = map (add_counts (c :: l)) d.
Proof.
  induction d as [|[k v] d IH]; simpl; [discriminate|].
  intros Hnd Hget. inversion Hnd as [|x y Hnotin Hnd']; subst.
  destruct (str_eqb k c) eqn:E.
  - apply str_eqb_eq in E. subst k. injection Hget as ->. simpl.
    rewrite (add_counts_skip c l d Hnotin). f_equal.
    unfold add_counts. simpl. rewrite count_of_cons, str_eqb_refl.
    f_equal. lia.
  - simpl. rewrite (IH Hnd' Hget). f_equal.
    unfold add_counts. simpl. rewrite count_of_cons_neq; [reflexivity|].
    apply str_eqb_neq, E.
Qed.

Lemma filter_filter_implied {A} (p q : A -> bool) (l : list A) :
  (forall x, p x = true -> q x = true) ->
  filter p (filter q l) = filter p l.
Proof.
  intro H. induction l as [|x l IH]; simpl; [reflexivity|].
  destruct (q x) eqn:Eq; simpl.
  - rewrite IH. reflexivity.
  - destruct (p x) eqn:Ep; [|exact IH].
    rewrite (H x Ep) in Eq. discriminate.
Qed.

(** The dictionary of counts after a scan: the entries it started with,
    their counts raised, then the new tokens in the order they were
    first met. *)
Lemma tally_spec (l : list str) (acc : dict nat) :
  NoDup (map fst acc) ->
  fold_left incr_count l acc
  = map (add_counts l) acc
    ++ map (fun t => (t, count_of t l))
           (filter (fun t => negb (dict_mem acc t)) (first_occurrences l)).
Proof.
  revert acc. induction l as [|c l IH]; intros acc Hnd.
  - simpl. rewrite app_nil_r. rewrite <- (map_id acc) at 1.
    apply map_ext. intros [k n]. unfold add_counts, count_of. simpl.
    rewrite Nat.add_0_r. reflexivity.
  - cbn [fold_left]. rewrite IH by (apply dict_set_NoDup, Hnd).
    unfold incr_count. cbn [first_occurrences filter].
    unfold dict_mem at 2. destruct (dict_get acc c) as [n0|] eqn:Eget.
    + cbn [negb]. rewrite (add_counts_present c l acc n0 Hnd Eget). f_equal.
      rewrite filter_filter_implied.
      * rewrite (filter_ext _ (fun t => negb (dict_mem acc t))).
        -- apply map_ext_in. intros t Ht. apply filter_In in Ht as [_ Ht].
           rewrite count_of_cons_neq; [reflexivity|].
           intros ->. unfold dict_mem in Ht. rewrite Eget in Ht.
           discriminate.
        -- intro t. rewrite dict_mem_set.
           destruct (str_eqb c t) eqn:E; [|rewrite orb_false_r; reflexivity].
           apply str_eqb_eq in E. subst t. unfold dict_mem. rewrite Eget.
           reflexivity.
      * intros t Ht. apply negb_true_iff in Ht. apply negb_true_iff.
        apply str_eqb_neq. intros ->. unfold dict_mem in Ht.
        rewrite Eget in Ht. discriminate.
    + cbn [negb]. rewrite (dict_set_absent acc c _ Eget).
      rewrite map_app, <- app_assoc. cbn [map List.app].
      rewrite (add_counts_skip c l acc (dict_get_None_keys acc c Eget)).
      f_equal. f_equal.
      * unfold add_counts. cbn [fst snd]. rewrite count_of_cons, str_eqb_refl.
        reflexivity.
      * rewrite <- (dict_set_absent acc c (0 + 1) Eget).
        rewrite (filter_ext (fun t => negb (dict_mem (dict_set acc c (0 + 1)) t))
                            (fun t => negb (dict_mem acc t)
                                      && negb (str_eqb t c))).
        -- rewrite <- filter_filter_implied
             with (q := fun y => negb (str_eqb y c)) at 1.
           ++ rewrite (filter_ext_in
                         (fun t => negb (dict_mem acc t) && negb (str_eqb t c))
                         (fun t => negb (dict_mem acc t))).
              ** apply map_ext_in. intros t Ht.
                 apply filter_In in Ht as [Ht _].
                 apply filter_In in Ht as [_ Ht].
                 apply negb_true_iff in Ht.
                 rewrite count_of_cons_neq; [reflexivity|].
                 apply str_eqb_neq, Ht.
              ** intros t Ht. apply filter_In in Ht as [_ Ht]. rewrite Ht.
                 apply andb_true_r.
           ++ intros t Ht. apply andb_true_iff in Ht as [_ Ht]. exact Ht.
        -- intro t. rewrite dict_mem_set, negb_orb, (str_eqb_sym c t).
           reflexivity.
Qed.

Lemma tally_from_empty (l : list str) :
  fold_left incr_count l []
  = map (fun t => (t, count_of t l)) (first_occurrences l).
Proof.
  rewrite tally_spec by constructor. simpl.
  rewrite filter_all; [reflexivity|]. apply forallb_forall. reflexivity.
Qed.

Lemma py_max_fold (r : list (str * nat)) (best : str * nat) :
  fold_left (fun best y => if snd best <? snd y then y else best) r best
  = match argmax_first r with
    | None => best
    | Some m => if snd best <? snd m then m else best
    end.
Proof.
  revert best. induction r as [|y r IH]; intro best; simpl; [reflexivity|].
  rewrite IH. destruct (argmax_first r) as [m|].
  - destruct (Nat.ltb_spec (snd best) (snd y));
      destruct (Nat.ltb_spec (snd y) (snd m));
      destruct (Nat.ltb_spec (snd best) (snd m));
      try reflexivity; try (exfalso; lia);
      match goal with
      | |- context [?a <? ?b] => destruct (Nat.ltb_spec a b)
      end; try reflexivity; exfalso; lia.
  - destruct (snd best <? snd y); reflexivity.
Qed.

Lemma py_max_argmax (es : list (str * nat)) :
  py_max (fun a b : str * nat => snd a <? snd b) es = argmax_first es.
Proof.
  destruct es as [|e r]; [reflexivity|]. simpl. rewrite py_max_fold.
  destruct (argmax_first r) as [m|]; [|reflexivity].
  destruct (snd e <? snd m); reflexivity.
Qed.

(** [argmax_first] returns an element no other outnumbers, and the
    elements before it are strictly smaller. *)
Lemma argmax_first_spec (es : list (str * nat)) :
  match argmax_first es with
  | None => es = []
  | Some m =>
      exists l1 l2, es = l1 ++ m :: l2
                    /\ (forall e, In e l1 -> snd e < snd m)
                    /\ (forall e, In e es -> snd e <= snd m)
  end.
Proof.
  induction es as [|e r IH]; simpl; [reflexivity|].
  destruct (argmax_first r) as [m|].
  - destruct IH as [l1 [l2 [-> [Hlt Hle]]]].
    destruct (snd e <? snd m) eqn:E.
    + apply Nat.ltb_lt in E. exists (e :: l1), l2. repeat split.
      * intros x [<- | Hx]; auto.
      * intros x [<- | Hx]; [lia | auto].
    + apply Nat.ltb_ge in E. exists [], (l1 ++ m :: l2). repeat split.
      * intros x [].
      * intros x [<- | Hx]; [lia|]. specialize (Hle x Hx). lia.
  - subst r. exists [], []. repeat split.
    + intros x [].
    + intros x [<- | []]. lia.
Qed.

Lemma find_first_true {A} (p : A -> bool) (l1 l2 : list A) (m : A) :
  (forall e, In e l1 -> p e = false) -> p m = true ->
  find p (l1 ++ m :: l2) = Some m.
Proof.
  intros H Hm. induction l1 as [|x l1 IH]; simpl.
  - rewrite Hm. reflexivity.
  - rewrite (H x (or_introl eq_refl)). apply IH.
    intros e He. apply H. right; assumption.
Qed.

Lemma argmax_first_find (es : list (str * nat)) :
  argmax_first es
  = find (fun e => forallb (fun e' => snd e' <=? snd e) es) es.
Proof.
  pose proof (argmax_first_spec es) as H.
  destruct (argmax_first es) as [m|]; [|subst; reflexivity].
  destruct H as [l1 [l2 [E [Hlt Hle]]]]. subst es.
  symmetry. apply find_first_true.
  - intros e He. apply not_true_is_false. intro F.
    rewrite forallb_forall in F.
    specialize (F m (in_elt m l1 l2)).
    apply Nat.leb_le in F. specialize (Hlt e He). lia.
  - apply forallb_forall. intros e He. apply Nat.leb_le, Hle, He.
Qed.

Lemma find_ext_eq {A} (p q : A -> bool) (l : list A) :
  (forall x, p x = q x) -> find p l = find q l.
Proof.
  intro H. induction l as [|x l IH]; simpl; [reflexivity|].
  rewrite H, IH. reflexivity.
Qed.

Lemma forallb_map_eq {A B} (f : A -> B) (p : B -> bool) (l : list A) :
  forallb p (map f l) = forallb (fun x => p (f x)) l.
Proof.
  induction l as [|x l IH]; simpl; [reflexivity|]. rewrite IH. reflexivity.
Qed.

Lemma find_map {A B} (f : A -> B) (p : B -> bool) (l : list A) :
  find p (map f l) = option_map f (find (fun x => p (f x)) l).
Proof.
  induction l as [|x l IH]; simpl; [reflexivity|].
  destruct (p (f x)); [reflexivity | exact IH].
Qed.

Lemma find_filter_implied {A} (p q : A -> bool) (l : list A) :
  (forall x, p x = true -> q x = true) ->
  find p (filter q l) = find p l.
Proof.
  intro H. induction l as [|x l IH]; simpl; [reflexivity|].
  destruct (q x) eqn:Eq; simpl.
  - destruct (p x); [reflexivity | exact IH].
  - destruct (p x) eqn:Ep; [|exact IH].
    rewrite (H x Ep) in Eq. discriminate.
Qed.

Lemma find_first_occurrences (p : str -> bool) (l : list str) :
  find p (first_occurrences l) = find p l.
Proof.
  induction l as [|x l IH]; simpl; [reflexivity|].
  destruct (p x) eqn:Ex; [reflexivity|].
  rewrite find_filter_implied; [exact IH|].
  intros y Hy. apply negb_true_iff. apply str_eqb_neq. intros ->.
  congruence.
Qed.

Lemma in_first_occurrences (t : str) (l : list str) :
  In t (first_occurrences l) <-> In t l.
Proof.
  induction l as [|x l IH]; simpl; [split; auto|].
  rewrite filter_In, IH. split.
  - intros [H | [H _]]; auto.
  - intros [H | H]; [auto|].
    destruct (str_eqb t x) eqn:E.
    + apply str_eqb_eq in E. auto.
    + right. auto.
Qed.

Lemma forallb_first_occurrences (p : str -> bool) (l : list str) :
  forallb p (first_occurrences l) = forallb p l.
Proof.
  destruct (forallb p l) eqn:E.
  - rewrite forallb_forall in *. intros t Ht.
    apply E, in_first_occurrences, Ht.
  - apply not_true_is_false. intro F. rewrite forallb_forall in F.
    assert (forallb p l = true).
    { apply forallb_forall. intros t Ht.
      apply F, in_first_occurrences, Ht. }
    congruence.
Qed.

(** The token the scan settles on is the most frequent missing token met
    in the data cells, the first met winning a tie, and the empty
    string when none is met. *)
Lemma detect_nodata_spec (rows : list (list str)) :
  detect_nodata rows = most_frequent_first (observed_placeholders rows).
Proof.
  unfold detect_nodata, most_frequent_first.
  rewrite py_max_argmax, count_placeholders_tally, tally_from_empty.
  rewrite argmax_first_find, find_map.
  set (l := observed_placeholders rows).
  rewrite (find_ext_eq _ (fun t => forallb (fun u => count_of u l <=? count_of t l)
                                           l)).
  - rewrite find_first_occurrences.
    destruct (find _ l); reflexivity.
  - intro t. cbn [snd]. rewrite forallb_map_eq. cbn [snd].
    apply forallb_first_occurrences.
Qed.

Lemma nodata_line_iff
      (field_delimiter : str) (header : list str) (rows_count : nat)
      (nodata_value geometry_hint srid_hint application_profile : option str) :
  existsb (fun line => startswith line "nodata = ")
          (build_icsv_metadata_section field_delimiter header rows_count
             nodata_value geometry_hint srid_hint application_profile)
  = is_some nodata_value.
Proof.
  unfold build_icsv_metadata_section, opt_line. rewrite !existsb_app.
  destruct application_profile as [[|a1 a2]|], nodata_value as [[|n1 n2]|],
    geometry_hint as [[|g1 g2]|], srid_hint as [[|s1 s2]|];
    cbn; rewrite ?Ascii.eqb_refl; reflexivity.
Qed.

Lemma enrich_inv (content : str)
      (user_delimiter nodata_override application_profile : option str)
      (e : enrichment) :
  enrich content user_delimiter nodata_override application_profile = Some e ->
  load_rows_with_frictionless content user_delimiter
  = Some (e_header e, e_raw_rows e, e_row_count e)
  /\ e_rows e = map (normalize_row (length (e_header e))) (e_raw_rows e)
  /\ column_profiles (e_header e) (e_rows e) = Some (e_col_infos e)
  /\ e_icsv_delim e = icsv_delimiter content user_delimiter
  /\ e_nodata_value e = resolve_nodata nodata_override (e_raw_rows e)
  /\ e_metadata_lines e
     = build_icsv_metadata_section (e_icsv_delim e) (e_header e)
         (e_row_count e) (Some (e_nodata_value e))
         (fst (detect_geometry_hint (e_header e)))
         (snd (detect_geometry_hint (e_header e))) application_profile
  /\ e_fields_lines e
     = build_fields_section (e_header e) (e_col_infos e) (e_icsv_delim e).
Proof.
  unfold enrich.
  destruct (load_rows_with_frictionless content user_delimiter)
    as [[[header raw_rows] n]|]; [|discriminate].
  destruct (column_profiles header _) as [infos|] eqn:Ep; [|discriminate].
  destruct (detect_geometry_hint header) as [g s] eqn:Eg.
  intros [= <-]. cbn [e_header e_raw_rows e_rows e_row_count e_icsv_delim
                       e_nodata_value e_col_infos e_metadata_lines
                       e_fields_lines].
  rewrite Eg. auto 10.
Qed.

(** C6 (as amended).  [build_icsv_metadata_section] writes a [nodata]
    line exactly when it is handed a token (not [None]), the empty
    string included.  [make_icsv_from_csv] always hands it one, so the
    METADATA block of every produced file has the line
    [nodata = <token>], where the token is the explicit override when
    there is one, and otherwise the most frequent missing token met
    literally among the data cells, the first met in the row-by-row scan
    winning a tie, and the empty string when none is met. *)
Theorem nodata_line_of_enrichment (content : str)
        (user_delimiter nodata_override application_profile : option str)
        (e : enrichment) :
  enrich content user_delimiter nodata_override application_profile = Some e ->
  (forall field_delimiter header rows_count nodata_value geometry_hint
          srid_hint profile,
      existsb (fun line => startswith line "nodata = ")
              (build_icsv_metadata_section field_delimiter header rows_count
                 nodata_value geometry_hint srid_hint profile)
      = is_some nodata_value)
  /\ In ("nodata = " ++ e_nodata_value e) (e_metadata_lines e)
  /\ e_nodata_value e
     = match nodata_override with
       | Some v => v
       | None => most_frequent_first (observed_placeholders (e_raw_rows e))
       end.
Proof.
  intro He. apply enrich_inv in He
    as [_ [_ [_ [_ [Hn [Hm _]]]]]].
  split; [apply nodata_line_iff|]. split.
  - rewrite Hm. unfold build_icsv_metadata_section, opt_line.
    rewrite !in_app_iff. do 6 right. left. left. reflexivity.
  - rewrite Hn. unfold resolve_nodata.
    destruct nodata_override; [reflexivity | apply detect_nodata_spec].
Qed.

(** ** The delimiter *)

(** C3.  With a forced delimiter, the rows are read with it and the
    produced file records it, [|] standing in for the comma.  Without
    one, the rows are read with the delimiter sniffed on the first ten
    lines, while the recorded delimiter comes from a second sniff, on the
    first five lines.  On [mixed_csv], where the sniffer finds [;] in the
    first five lines and nothing in the first ten, the rows are read with
    the comma and the file records [;]. *)
Theorem delimiter_sniffed_twice :
  sniff (concat (firstn 5 (file_lines mixed_csv))) = Some ";" ->
  sniff (concat (firstn 10 (file_lines mixed_csv))) = None ->
  (forall content d,
      reader_delimiter content (Some d) = d
      /\ icsv_delimiter content (Some d) = if str_eqb d "," then "|" else d)
  /\ (forall content,
         reader_delimiter content None
         = detect_delimiter (concat (firstn 10 (file_lines content)))
         /\ icsv_delimiter content None
            = let d := detect_delimiter (concat (firstn 5 (file_lines content)))
              in if str_eqb d "," then "|" else d)
  /\ reader_delimiter mixed_csv None = ","
  /\ icsv_delimiter mixed_csv None = ";".
Proof.
  intros H5 H10. split; [|split; [|split]].
  - intros content d. split; [reflexivity|].
    unfold icsv_delimiter. destruct (str_eqb d ","); reflexivity.
  - intro content. split; [reflexivity|].
    unfold icsv_delimiter. cbv zeta.
    destruct (str_eqb (detect_delimiter _) ","); reflexivity.
  - unfold reader_delimiter, detect_delimiter. rewrite H10. reflexivity.
  - unfold icsv_delimiter, detect_delimiter. rewrite H5. reflexivity.
Qed.

(** ** The digit test of [try_parse_datetime] *)

Lemma in_all_ascii (c : ascii) : In c all_ascii.
Proof.
  unfold all_ascii. rewrite <- (ascii_nat_embedding c).
  apply in_map, in_seq. pose proof (nat_ascii_bounded c). lia.
Qed.

Lemma only_digits_sound (p : ascii -> bool) (c : ascii) :
  only_digits p = true -> p c = true -> is_digit c = true.
Proof.
  unfold only_digits. rewrite forallb_forall. intros H Hc.
  specialize (H c (in_all_ascii c)). rewrite Hc in H. exact H.
Qed.

Lemma existsb_app_l {A} (p : A -> bool) (l1 l2 : list A) :
  existsb p l1 = true -> existsb p (l1 ++ l2) = true.
Proof. intro H. rewrite existsb_app, H. reflexivity. Qed.

(** A match uses up a prefix of the string; the prefix holds a digit
    when the expression needs one. *)
Lemma rmatch_consumes (r : re) (s : str) (m : groups * str) :
  In m (rmatch r s) ->
  exists pre, s = pre ++ snd m
              /\ (needs_digit r = true -> existsb is_digit pre = true).
Proof.
  revert s m. induction r as [|c|c|p|a IHa b IHb|a IHa b IHb|a IHa|p|n a IHa|];
    intros s m H.
  - destruct H as [<- | []]. exists []. split; [reflexivity | discriminate].
  - simpl in H. destruct s as [|x s]; [destruct H|].
    destruct (Ascii.eqb_spec x c) as [->|]; [|destruct H].
    destruct H as [<- | []]. exists [c]. split; [reflexivity|].
    simpl. intros ->. reflexivity.
  - simpl in H. destruct s as [|x s]; [destruct H|].
    destruct (Ascii.eqb (lower_char x) (lower_char c)); [|destruct H].
    destruct H as [<- | []]. exists [x]. split; [reflexivity | discriminate].
  - simpl in H. destruct s as [|x s]; [destruct H|].
    destruct (p x) eqn:Ex; [|destruct H].
    destruct H as [<- | []]. exists [x]. split; [reflexivity|].
    simpl. intro Hp. rewrite (only_digits_sound p x Hp Ex). reflexivity.
  - apply in_rmatch_seq in H as [m1 [m2 [H1 [H2 ->]]]].
    destruct (IHa _ _ H1) as [p1 [E1 D1]].
    destruct (IHb _ _ H2) as [p2 [E2 D2]].
    exists (p1 ++ p2). cbn [snd]. split.
    + rewrite E1, E2 at 1. apply app_assoc.
    + simpl. intro Hn. rewrite existsb_app.
      apply orb_true_iff in Hn as [Hn | Hn];
        [rewrite (D1 Hn) | rewrite (D2 Hn), orb_true_r]; reflexivity.
  - simpl in H. apply in_app_iff in H as [H | H].
    + destruct (IHa _ _ H) as [pre [E D]]. exists pre. split; [exact E|].
      simpl. intro Hn. apply andb_true_iff in Hn as [Hn _]. auto.
    + destruct (IHb _ _ H) as [pre [E D]]. exists pre. split; [exact E|].
      simpl. intro Hn. apply andb_true_iff in Hn as [_ Hn]. auto.
  - simpl in H. apply in_app_iff in H as [H | [<- | []]].
    + destruct (IHa _ _ H) as [pre [E _]]. exists pre.
      split; [exact E | discriminate].
    + exists []. split; [reflexivity | discriminate].
  - apply in_rmatch_plus in H as [_ [ds [Hne [Hds E]]]].
    exists ds. split; [exact E|]. simpl. intro Hp.
    destruct ds as [|d ds]; [congruence|]. simpl in Hds |- *.
    apply andb_true_iff in Hds as [Hd _].
    rewrite (only_digits_sound p d Hp Hd). reflexivity.
  - simpl in H. apply in_map_iff in H as [m' [<- H]].
    destruct (IHa _ _ H) as [pre [E D]]. exists pre. auto.
  - apply in_rmatch_dollar in H as [-> _]. exists [].
    split; [reflexivity | discriminate].
Qed.

Lemma re_search_digit (s : str) :
  re_search (in_range "0" "9") s = existsb is_digit s.
Proof.
  induction s as [|c s IH]; [reflexivity|].
  cbn [re_search existsb]. rewrite IH. f_equal.
  unfold re_match, in_range. cbn [rmatch]. unfold is_digit.
  change (nat_of_ascii "0") with 48. change (nat_of_ascii "9") with 57.
  destruct ((48 <=? nat_of_ascii c) && (nat_of_ascii c <=? 57)); reflexivity.
Qed.

Lemma fmts_need_digit :
  forallb (fun fmt => match strptime_pattern fmt with
                      | Some r => needs_digit r
                      | None => true
                      end) fmts = true.
Proof. vm_compute. reflexivity. Qed.

(** No explicit format accepts a string without a digit. *)
Lemma strptime_needs_digit (s fmt : str) :
  In fmt fmts -> re_search (in_range "0" "9") s = false ->
  strptime s fmt = None.
Proof.
  intros Hin Hs. rewrite re_search_digit in Hs.
  pose proof fmts_need_digit as Hall. rewrite forallb_forall in Hall.
  specialize (Hall fmt Hin). unfold strptime, strptime_groups.
  destruct (strptime_pattern fmt) as [r|]; [|reflexivity].
  destruct (rmatch r s) as [|[g rest] ms] eqn:E; [reflexivity|].
  destruct rest as [|c rest]; [|reflexivity].
  destruct (rmatch_consumes r s (g, [])) as [pre [Epre D]].
  { rewrite E. left; reflexivity. }
  cbn [snd] in Epre. rewrite app_nil_r in Epre. subst pre.
  rewrite (D Hall) in Hs. discriminate.
Qed.

Lemma existsb_lstrip_by (p q : ascii -> bool) (s : str) :
  (forall c, p c = true -> q c = false) ->
  existsb q (lstrip_by p s) = existsb q s.
Proof.
  intro H. induction s as [|c s IH]; [reflexivity|].
  cbn [lstrip_by existsb]. destruct (p c) eqn:E; [|reflexivity].
  rewrite IH, (H c E). reflexivity.
Qed.

Lemma existsb_rstrip_by (p q : ascii -> bool) (s : str) :
  (forall c, p c = true -> q c = false) ->
  existsb q (rstrip_by p s) = existsb q s.
Proof.
  intro H. induction s as [|c s IH]; [reflexivity|].
  cbn [rstrip_by existsb]. rewrite <- IH.
  destruct (rstrip_by p s) as [|r rs]; [|reflexivity].
  destruct (p c) eqn:E; cbn [existsb]; [|reflexivity].
  rewrite (H c E). reflexivity.
Qed.

(** Stripping removes no digit. *)
Lemma digit_in_strip (s : str) :
  re_search (in_range "0" "9") (strip s) = re_search (in_range "0" "9") s.
Proof.
  assert (H : forall c, is_space c = true -> is_digit c = false).
  { intros c Hc. destruct (is_digit c) eqn:E; [|reflexivity].
    rewrite (digit_not_space c E) in Hc. discriminate. }
  rewrite !re_search_digit. unfold strip.
  rewrite (existsb_rstrip_by _ _ _ H). apply (existsb_lstrip_by _ _ _ H).
Qed.

Lemma datetime_cascade_false (s : str) :
  datetime_cascade s = false ->
  match date_parse with
  | Some parse => parse s = None
  | None => True
  end
  /\ fromisoformat s = None.
Proof.
  unfold datetime_cascade.
  destruct date_parse as [parse|].
  - destruct (parse s); [discriminate|].
    destruct (fromisoformat s); [discriminate|]. auto.
  - destruct (fromisoformat s); [discriminate|]. auto.
Qed.

Lemma datetime_cascade_no_digit (s : str) :
  re_search (in_range "0" "9") s = false ->
  match date_parse with
  | Some parse => parse s = None
  | None => True
  end ->
  fromisoformat s = None ->
  datetime_cascade s = false.
Proof.
  intros E Hdp Hiso. unfold datetime_cascade. rewrite Hiso.
  assert (Hf : existsb (fun fmt => is_some (strptime s fmt)) fmts = false).
  { apply not_true_is_false. intro F. apply existsb_exists in F
      as [fmt [Hin Hsome]].
    rewrite (strptime_needs_digit s fmt Hin E) in Hsome. discriminate. }
  rewrite Hf. destruct date_parse as [parse|]; [rewrite Hdp|]; reflexivity.
Qed.

(** C9 (as amended).  [try_parse_datetime] answers [False] on every
    value without a digit, whatever the parsers would say, and no
    explicit format accepts such a value.  The function and the same
    function without the digit test are equal on all inputs exactly when
    neither the flexible parser (if there is one) nor the ISO parser
    accepts the stripped form of a non-empty value without a digit; in
    particular they are equal when these two parsers accept no value
    without a digit. *)
Theorem digit_test_neutral_when_parsers_need_digit :
  (forall s, re_search (in_range "0" "9") s = false ->
             try_parse_datetime s = false)
  /\ (forall s fmt, In fmt fmts -> re_search (in_range "0" "9") s = false ->
                    strptime s fmt = None)
  /\ ((forall s, try_parse_datetime s = try_parse_datetime_no_digit_test s)
      <-> (forall s, s <> [] ->
                     re_search (in_range "0" "9") (strip s) = false ->
                     match date_parse with
                     | Some parse => parse (strip s) = None
                     | None => True
                     end
                     /\ fromisoformat (strip s) = None))
  /\ ((forall s, re_search (in_range "0" "9") s = false ->
                 match date_parse with
                 | Some parse => parse s = None
                 | None => True
                 end
                 /\ fromisoformat s = None) ->
      forall s, try_parse_datetime s = try_parse_datetime_no_digit_test s).
Proof.
  assert (Hiff : (forall s, s <> [] ->
                     re_search (in_range "0" "9") (strip s) = false ->
                     match date_parse with
                     | Some parse => parse (strip s) = None
                     | None => True
                     end
                     /\ fromisoformat (strip s) = None) ->
                 forall s,
                   try_parse_datetime s = try_parse_datetime_no_digit_test s).
  { intros H s. unfold try_parse_datetime, try_parse_datetime_no_digit_test.
    destruct (is_nil s) eqn:En; [reflexivity|]. cbv zeta.
    destruct (re_search (in_range "0" "9") (strip s)) eqn:E; [reflexivity|].
    cbn [negb]. apply is_nil_false in En.
    destruct (H s En E) as [Hdp Hiso]. symmetry.
    apply datetime_cascade_no_digit; assumption. }
  split; [|split; [|split; [split|]]].
  - intros s E. unfold try_parse_datetime.
    destruct (is_nil s); [reflexivity|]. cbv zeta.
    rewrite digit_in_strip, E. reflexivity.
  - apply strptime_needs_digit.
  - intros Heq s Hne E. apply datetime_cascade_false.
    specialize (Heq s).
    unfold try_parse_datetime, try_parse_datetime_no_digit_test in Heq.
    apply is_nil_false in Hne. rewrite Hne in Heq. cbv zeta in Heq.
    rewrite E in Heq. symmetry. exact Heq.
  - exact Hiff.
  - intros H. apply Hiff. intros s _ E. apply (H (strip s) E).
Qed.

(** ** Splitting and joining *)

Lemma split_go_char_cons (d c : ascii) (s : str) :
  split_go [d] 0 (c :: s)
  = if Ascii.eqb d c then [] :: split_go [d] 0 s
    else match split_go [d] 0 s with
         | h :: t => (c :: h) :: t
         | [] => [[c]]
         end.
Proof.
  cbn [split_go startswith length Nat.sub].
  destruct (Ascii.eqb d c); [|reflexivity].
  destruct s; reflexivity.
Qed.

Lemma split_go_char_length (d : ascii) (s : str) :
  length (split_go [d] 0 s) = S (count_char d s).
Proof.
  induction s as [|c s IH]; [reflexivity|].
  rewrite split_go_char_cons. cbn [count_char].
  rewrite (Ascii.eqb_sym c d).
  destruct (Ascii.eqb d c).
  - simpl. rewrite IH. reflexivity.
  - destruct (split_go [d] 0 s); simpl in *; [discriminate | exact IH].
Qed.

Lemma join_split_char (d : ascii) (s : str) :
  join [d] (split_go [d] 0 s) = s.
Proof.
  induction s as [|c s IH]; [reflexivity|].
  rewrite split_go_char_cons.
  destruct (Ascii.eqb_spec d c) as [->|Hn].
  - pose proof (split_go_char_length c s) as Hl.
    destruct (split_go [c] 0 s) as [|h t]; [discriminate|].
    change (join [c] ([] :: h :: t)) with ([] ++ [c] ++ join [c] (h :: t)).
    rewrite IH. reflexivity.
  - pose proof (split_go_char_length d s) as Hl.
    destruct (split_go [d] 0 s) as [|h t]; [discriminate|].
    destruct t as [|h' t].
    + simpl in IH |- *. rewrite IH. reflexivity.
    + change (join [d] ((c :: h) :: h' :: t))
        with (c :: (h ++ [d] ++ join [d] (h' :: t))).
      change (join [d] (h :: h' :: t)) with (h ++ [d] ++ join [d] (h' :: t))
        in IH.
      rewrite IH. reflexivity.
Qed.

Lemma count_char_app (d : ascii) (a b : str) :
  count_char d (a ++ b) = count_char d a + count_char d b.
Proof.
  induction a as [|c a IH]; simpl; [reflexivity|]. rewrite IH. lia.
Qed.


Lemma count_char_join (d : ascii) (sep : str) (l : list str) :
  count_char d (join sep l)
  = sum_counts d l + (length l - 1) * count_char d sep.
Proof.
  induction l as [|x l IH]; [reflexivity|].
  destruct l as [|y l].
  - simpl. lia.
  - change (join sep (x :: y :: l)) with (x ++ sep ++ join sep (y :: l)).
    rewrite !count_char_app, IH. cbn [sum_counts fold_right length].
    fold (sum_counts d l). lia.
Qed.

Lemma count_char_lstrip (p : ascii -> bool) (d : ascii) (s : str) :
  p d = false -> count_char d (lstrip_by p s) = count_char d s.
Proof.
  intro Hd. induction s as [|c s IH]; [reflexivity|].
  simpl. destruct (p c) eqn:Ec; [|reflexivity].
  rewrite IH. destruct (Ascii.eqb_spec c d) as [->|]; [congruence|].
  reflexivity.
Qed.

Lemma count_char_rstrip (p : ascii -> bool) (d : ascii) (s : str) :
  p d = false -> count_char d (rstrip_by p s) = count_char d s.
Proof.
  intro Hd. induction s as [|c s IH]; [reflexivity|].
  cbn [rstrip_by]. destruct (rstrip_by p s) as [|r rs] eqn:E.
  - change (count_char d (c :: s))
      with ((if Ascii.eqb c d then 1 else 0) + count_char d s).
    rewrite <- IH. destruct (p c) eqn:Ec.
    + destruct (Ascii.eqb_spec c d) as [->|]; [congruence | reflexivity].
    + reflexivity.
  - change (count_char d (c :: r :: rs))
      with ((if Ascii.eqb c d then 1 else 0) + count_char d (r :: rs)).
    rewrite IH. reflexivity.
Qed.

Lemma count_char_strip (d : ascii) (s : str) :
  is_space d = false -> count_char d (strip s) = count_char d s.
Proof.
  intro Hd. unfold strip.
  rewrite count_char_rstrip, count_char_lstrip; auto.
Qed.

Lemma sum_counts_map_strip (d : ascii) (l : list str) :
  is_space d = false -> sum_counts d (map strip l) = sum_counts d l.
Proof.
  intro Hd. induction l as [|x l IH]; [reflexivity|].
  simpl. rewrite count_char_strip, IH; auto.
Qed.

Lemma sum_counts_zero (d : ascii) (l : list str) :
  forallb (cell_ok d) l = true -> sum_counts d l = 0.
Proof.
  induction l as [|x l IH]; [reflexivity|].
  simpl. intro H. apply andb_true_iff in H as [Hx Hl]. rewrite (IH Hl).
  assert (count_char d x = 0) as ->; [|reflexivity].
  clear -Hx. induction x as [|c x IHx]; [reflexivity|].
  simpl in Hx. apply andb_true_iff in Hx as [Hc Hx].
  apply andb_true_iff in Hc as [Hc _]. apply negb_true_iff in Hc.
  simpl. rewrite Hc, (IHx Hx). reflexivity.
Qed.

(** The two passes of the parser on a FIELDS value give back as many
    cells as were joined, when no cell holds the delimiter and the
    delimiter is not white space. *)
Lemma resplit_length (d : ascii) (cells : list str) :
  is_space d = false -> cells <> [] -> forallb (cell_ok d) cells = true ->
  length (map strip
            (split_go [d] 0
               (join "|" (map strip (split_pipe (strip (join [d] cells)))))))
  = length cells.
Proof.
  intros Hd Hne Hcells. rewrite length_map, split_go_char_length.
  rewrite count_char_join, sum_counts_map_strip, length_map by assumption.
  assert (E : sum_counts d (split_pipe (strip (join [d] cells)))
              + (length (split_pipe (strip (join [d] cells))) - 1)
                * count_char d "|"
              = count_char d (strip (join [d] cells))).
  { rewrite <- count_char_join. unfold split_pipe.
    rewrite (join_split_char "|"). reflexivity. }
  rewrite E, count_char_strip, count_char_join by assumption.
  rewrite (sum_counts_zero d cells Hcells).
  cbn [count_char]. rewrite Ascii.eqb_refl.
  destruct cells; [congruence|]. simpl. lia.
Qed.

(** ** One [key = value] line under the parser *)

Lemma rstrip_by_anchor (p : ascii -> bool) (x : str) (c : ascii) (y : str) :
  p c = false -> rstrip_by p (x ++ c :: y) = x ++ c :: rstrip_by p y.
Proof.
  intro Hc. induction x as [|a x IH].
  - apply rstrip_by_cons, Hc.
  - change ((a :: x) ++ c :: y) with (a :: (x ++ c :: y)).
    cbn [rstrip_by]. rewrite IH. rewrite <- app_comm_cons.
    destruct (x ++ c :: rstrip_by p y) eqn:E; [|reflexivity].
    destruct x; discriminate.
Qed.

Lemma strip_rstrip_comm (p : ascii -> bool) (s : str) :
  rstrip_by p (lstrip_by p s) = lstrip_by p (rstrip_by p s).
Proof.
  induction s as [|c s IH]; [reflexivity|].
  cbn [lstrip_by rstrip_by]. destruct (p c) eqn:Ec.
  - rewrite IH. destruct (rstrip_by p s) as [|r rs]; [reflexivity|].
    cbn [lstrip_by]. rewrite Ec. reflexivity.
  - rewrite (rstrip_by_cons p c s Ec).
    destruct (rstrip_by p s) as [|r rs]; cbn [lstrip_by]; rewrite Ec;
      reflexivity.
Qed.

Lemma strip_rstrip (s : str) : strip (rstrip_by is_space s) = strip s.
Proof.
  unfold strip. rewrite <- strip_rstrip_comm, rstrip_by_idem, strip_rstrip_comm.
  reflexivity.
Qed.

Lemma strip_none (s : str) :
  forallb (fun c => negb (is_space c)) s = true -> strip s = s.
Proof.
  intro H. unfold strip. destruct s as [|c s]; [reflexivity|].
  pose proof H as H'. simpl in H'. apply andb_true_iff in H' as [Hc _].
  apply negb_true_iff in Hc. rewrite (lstrip_by_fix _ _ _ Hc).
  apply rstrip_by_none, H.
Qed.

Lemma split_once_anchor (c : ascii) (a b : str) :
  forallb (fun x => negb (Ascii.eqb x c)) a = true ->
  split_once c (a ++ c :: b) = (a, b).
Proof.
  induction a as [|x a IH]; simpl.
  - rewrite Ascii.eqb_refl. reflexivity.
  - intro H. apply andb_true_iff in H as [Hx Ha].
    apply negb_true_iff in Hx. rewrite Hx, (IH Ha). reflexivity.
Qed.

Lemma key_char_facts (k : str) :
  forallb key_char k = true ->
  forallb (fun c => negb (is_space c)) k = true
  /\ forallb (fun c => negb (Ascii.eqb c "=")) k = true
  /\ forallb (fun c => negb (Ascii.eqb NL c)) k = true.
Proof.
  rewrite !forallb_forall. intro H.
  assert (Hc : forall c, In c k ->
                 is_space c = false /\ Ascii.eqb c "=" = false).
  { intros c Hin. specialize (H c Hin). unfold key_char in H.
    apply andb_true_iff in H as [Hs He].
    apply negb_true_iff in Hs, He. auto. }
  repeat split; intros c Hin; destruct (Hc c Hin) as [Hs He].
  - rewrite Hs. reflexivity.
  - rewrite He. reflexivity.
  - rewrite Ascii.eqb_sym, (space_neq c NL Hs eq_refl). reflexivity.
Qed.

Lemma no_linebreak_nl (v : str) :
  no_linebreak v = true -> forallb (fun c => negb (Ascii.eqb NL c)) v = true.
Proof.
  unfold no_linebreak. rewrite !forallb_forall. intros H c Hc.
  specialize (H c Hc). unfold line_end in H. apply negb_true_iff in H.
  apply orb_false_iff in H as [H _]. rewrite Ascii.eqb_sym, H. reflexivity.
Qed.

(** What the parser sees in the line [# key = value]. *)
Lemma kv_line_parts (k v : str) :
  key_ok k = true -> no_linebreak v = true ->
  let line := rstrip_nl ("# " ++ kv_line (k, v) ++ [NL]) in
  str_eqb (strip line) "# [METADATA]" = false
  /\ str_eqb (strip line) "# [FIELDS]" = false
  /\ str_eqb (strip line) "# [DATA]" = false
  /\ startswith line "#" = true
  /\ contains_char "=" (strip (lstrip_hash line)) = true
  /\ split_once "=" (strip (lstrip_hash line))
     = (k ++ " ", rstrip_by is_space (" " ++ v))
  /\ strip (k ++ " ") = k
  /\ strip (rstrip_by is_space (" " ++ v)) = strip v.
Proof.
  intros Hk Hv line.
  destruct k as [|k0 k]; [discriminate|].
  unfold key_ok in Hk. apply andb_true_iff in Hk as [Hk0 Hk].
  apply negb_true_iff in Hk0.
  destruct (key_char_facts _ Hk) as [Hsp [Heq Hnl]].
  pose proof Hsp as Hsp0. simpl in Hsp0.
  apply andb_true_iff in Hsp0 as [Hsp0 _]. apply negb_true_iff in Hsp0.
  assert (Eline : line = "# " ++ (k0 :: k) ++ " = " ++ v).
  { unfold line, rstrip_nl, kv_line. cbn [fst snd].
    replace ("# " ++ ((k0 :: k) ++ " = " ++ v) ++ [NL])
      with (("# " ++ (k0 :: k) ++ " = " ++ v) ++ [NL])
      by (rewrite <- !app_assoc; reflexivity).
    rewrite rstrip_by_drop by reflexivity.
    apply rstrip_by_none. rewrite !forallb_app, Hnl, (no_linebreak_nl v Hv).
    reflexivity. }
  assert (Estrip : strip line
                   = "#"%char :: " "%char :: k0
                       :: k ++ " " ++ "="%char :: rstrip_by is_space (" " ++ v)).
  { rewrite Eline. unfold strip.
    change (lstrip_by is_space ("# " ++ (k0 :: k) ++ " = " ++ v))
      with ("# " ++ (k0 :: k) ++ " = " ++ v).
    replace ("# " ++ (k0 :: k) ++ " = " ++ v)
      with (("# " ++ (k0 :: k) ++ " ") ++ "="%char :: " " ++ v)
      by (rewrite <- !app_assoc; reflexivity).
    rewrite rstrip_by_anchor by reflexivity.
    rewrite <- !app_assoc. reflexivity. }
  assert (Econt : strip (lstrip_hash line)
                  = ((k0 :: k) ++ " ")
                      ++ "="%char :: rstrip_by is_space (" " ++ v)).
  { rewrite Eline. unfold strip.
    change (lstrip_hash ("# " ++ (k0 :: k) ++ " = " ++ v))
      with (" "%char :: (k0 :: k) ++ " = " ++ v).
    change (lstrip_by is_space (" "%char :: (k0 :: k) ++ " = " ++ v))
      with (lstrip_by is_space (k0 :: k ++ " = " ++ v)).
    rewrite (lstrip_by_fix _ _ _ Hsp0).
    replace (k0 :: k ++ " = " ++ v)
      with (((k0 :: k) ++ " ") ++ "="%char :: " " ++ v)
      by (rewrite <- !app_assoc; reflexivity).
    apply rstrip_by_anchor. reflexivity. }
  rewrite Estrip, Econt, Eline.
  repeat split.
  - cbn [str_eqb]. rewrite Hk0. reflexivity.
  - cbn [str_eqb]. rewrite Hk0. reflexivity.
  - cbn [str_eqb]. rewrite Hk0. reflexivity.
  - unfold contains_char. rewrite existsb_app. cbn [existsb].
    rewrite Ascii.eqb_refl. apply orb_true_r.
  - apply split_once_anchor. rewrite forallb_app, Heq. reflexivity.
  - unfold strip. rewrite <- app_comm_cons, (lstrip_by_fix _ _ _ Hsp0).
    rewrite app_comm_cons, rstrip_by_drop by reflexivity.
    apply rstrip_by_none, Hsp.
  - rewrite strip_rstrip. reflexivity.
Qed.

Lemma parse_lines_kv_metadata (k v : str) (rest : list str)
      (metadata : dict str) (fields_meta : dict (list str)) :
  key_ok k = true -> no_linebreak v = true ->
  parse_lines (("# " ++ kv_line (k, v) ++ [NL]) :: rest) (Some InMetadata)
              metadata fields_meta
  = parse_lines rest (Some InMetadata) (dict_set metadata k (strip v))
                fields_meta.
Proof.
  intros Hk Hv.
  destruct (kv_line_parts k v Hk Hv) as [H1 [H2 [H3 [H4 [H5 [H6 [H7 H8]]]]]]].
  cbn [parse_lines]. cbv zeta.
  rewrite H1, H2, H3, H4, H5, H6, H7, H8. reflexivity.
Qed.

Lemma parse_lines_kv_fields (k v : str) (rest : list str)
      (metadata : dict str) (fields_meta : dict (list str)) :
  key_ok k = true -> no_linebreak v = true ->
  parse_lines (("# " ++ kv_line (k, v) ++ [NL]) :: rest) (Some InFields)
              metadata fields_meta
  = parse_lines rest (Some InFields) metadata
      (dict_set fields_meta k (map strip (split_pipe (strip v)))).
Proof.
  intros Hk Hv.
  destruct (kv_line_parts k v Hk Hv) as [H1 [H2 [H3 [H4 [H5 [H6 [H7 H8]]]]]]].
  cbn [parse_lines]. cbv zeta.
  rewrite H1, H2, H3, H4, H5, H6, H7, H8. reflexivity.
Qed.

(** ** The lines of a written file *)

Lemma translate_newlines_app (a b : str) :
  forallb (fun c => negb (Ascii.eqb c CR)) a = true ->
  translate_newlines (a ++ b) = a ++ translate_newlines b.
Proof.
  induction a as [|c a IH]; [reflexivity|].
  intro H. cbn [forallb] in H. apply andb_true_iff in H as [Hc Ha].
  apply negb_true_iff in Hc.
  rewrite <- app_comm_cons. cbn [translate_newlines].
  rewrite Hc, (IH Ha). reflexivity.
Qed.

Lemma raw_lines_line (l rest : str) :
  forallb (fun c => negb (Ascii.eqb c NL)) l = true ->
  raw_lines ((l ++ [NL]) ++ rest) = (l ++ [NL]) :: raw_lines rest.
Proof.
  induction l as [|c l IH]; intro H; [reflexivity|].
  cbn [forallb] in H. apply andb_true_iff in H as [Hc Hl].
  apply negb_true_iff in Hc.
  change (((c :: l) ++ [NL]) ++ rest) with (c :: ((l ++ [NL]) ++ rest)).
  cbn [raw_lines]. rewrite Hc, (IH Hl). reflexivity.
Qed.

Lemma no_linebreak_split (s : str) :
  no_linebreak s = true ->
  forallb (fun c => negb (Ascii.eqb c NL)) s = true
  /\ forallb (fun c => negb (Ascii.eqb c CR)) s = true.
Proof.
  unfold no_linebreak. rewrite !forallb_forall. intro H.
  split; intros c Hc; specialize (H c Hc); unfold line_end in H;
    apply negb_true_iff, orb_false_iff in H as [H1 H2].
  - rewrite H1. reflexivity.
  - rewrite H2. reflexivity.
Qed.

Lemma raw_lines_lines (ls : list str) (rest : str) :
  forallb no_linebreak ls = true ->
  raw_lines (concat (map (fun l => l ++ [NL]) ls) ++ rest)
  = map (fun l => l ++ [NL]) ls ++ raw_lines rest.
Proof.
  induction ls as [|l ls IH]; intro H; [reflexivity|].
  cbn [forallb] in H. apply andb_true_iff in H as [Hl Hls].
  cbn [map concat]. rewrite <- app_assoc.
  rewrite raw_lines_line by apply (no_linebreak_split l Hl).
  rewrite (IH Hls). reflexivity.
Qed.

Lemma lines_no_cr (ls : list str) :
  forallb no_linebreak ls = true ->
  forallb (fun c => negb (Ascii.eqb c CR))
          (concat (map (fun l => l ++ [NL]) ls)) = true.
Proof.
  induction ls as [|l ls IH]; intro H; [reflexivity|].
  cbn [forallb] in H. apply andb_true_iff in H as [Hl Hls].
  cbn [map concat]. rewrite !forallb_app, (IH Hls).
  rewrite (proj2 (no_linebreak_split l Hl)). reflexivity.
Qed.

Lemma file_lines_lines (ls : list str) (rest : str) :
  forallb no_linebreak ls = true ->
  file_lines (concat (map (fun l => l ++ [NL]) ls) ++ rest)
  = map (fun l => l ++ [NL]) ls ++ file_lines rest.
Proof.
  intro H. unfold file_lines.
  rewrite translate_newlines_app by apply (lines_no_cr ls H).
  apply raw_lines_lines, H.
Qed.

(** The text of [write_icsv] as a list of lines followed by the data. *)
Lemma write_icsv_lines (header_meta_lines fields_meta_lines : list str)
      (data_header : list str) (rows : list (list str))
      (field_delimiter : str) :
  exists data,
    write_icsv header_meta_lines fields_meta_lines data_header rows
               field_delimiter
    = concat (map (fun l => l ++ [NL])
                  (["# iCSV 1.0 UTF-8"; "# [METADATA]"]
                     ++ map (fun l => "# " ++ l) header_meta_lines
                     ++ [""; "# [FIELDS]"]
                     ++ map (fun l => "# " ++ l) fields_meta_lines
                     ++ [""; "# [DATA]"]))
        ++ data.
Proof.
  exists (csv_writerow field_delimiter data_header
            ++ concat (map (fun r =>
                              csv_writerow field_delimiter
                                (if length r <? length data_header
                                 then pad_to (length data_header) [] r else r))
                           rows)).
  unfold write_icsv, comment_lines.
  generalize (csv_writerow field_delimiter data_header
            ++ concat (map (fun r =>
                              csv_writerow field_delimiter
                                (if length r <? length data_header
                                 then pad_to (length data_header) [] r else r))
                           rows)) as data.
  generalize "# iCSV 1.0 UTF-8" as l1. generalize "# [METADATA]" as l2.
  generalize "# [FIELDS]" as l3. generalize "# [DATA]" as l4.
  intros l4 l3 l2 l1 data.
  rewrite !map_app, !concat_app, !map_map. cbn [map concat].
  rewrite ?app_nil_r, ?app_nil_l, <- !app_assoc. reflexivity.
Qed.

(** ** The parser on the written lines *)

Lemma parse_lines_first (rest : list str)
      (metadata : dict str) (fields_meta : dict (list str)) :
  parse_lines (("# iCSV 1.0 UTF-8" ++ [NL]) :: rest) None metadata fields_meta
  = parse_lines rest None metadata fields_meta.
Proof. reflexivity. Qed.

Lemma parse_lines_metadata_marker (rest : list str)
      (section : option section_name)
      (metadata : dict str) (fields_meta : dict (list str)) :
  parse_lines (("# [METADATA]" ++ [NL]) :: rest) section metadata fields_meta
  = parse_lines rest (Some InMetadata) metadata fields_meta.
Proof. reflexivity. Qed.

Lemma parse_lines_fields_marker (rest : list str)
      (section : option section_name)
      (metadata : dict str) (fields_meta : dict (list str)) :
  parse_lines (("# [FIELDS]" ++ [NL]) :: rest) section metadata fields_meta
  = parse_lines rest (Some InFields) metadata fields_meta.
Proof. reflexivity. Qed.

Lemma parse_lines_data_marker (rest : list str)
      (section : option section_name)
      (metadata : dict str) (fields_meta : dict (list str)) :
  parse_lines (("# [DATA]" ++ [NL]) :: rest) section metadata fields_meta
  = (metadata, fields_meta).
Proof. reflexivity. Qed.

Lemma parse_lines_blank (rest : list str) (section : option section_name)
      (metadata : dict str) (fields_meta : dict (list str)) :
  parse_lines (("" ++ [NL]) :: rest) section metadata fields_meta
  = parse_lines rest section metadata fields_meta.
Proof. reflexivity. Qed.

Lemma parse_lines_metadata_block (kvs : list (str * str)) (rest : list str)
      (metadata : dict str) (fields_meta : dict (list str)) :
  forallb (fun kv => key_ok (fst kv) && no_linebreak (snd kv)) kvs = true ->
  parse_lines
    (map (fun l => l ++ [NL]) (map (fun l => "# " ++ l) (map kv_line kvs))
       ++ rest)
    (Some InMetadata) metadata fields_meta
  = parse_lines rest (Some InMetadata)
      (fold_left (fun m kv => dict_set m (fst kv) (strip (snd kv)))
                 kvs metadata)
      fields_meta.
Proof.
  revert metadata. induction kvs as [|[k v] kvs IH]; intros metadata H;
    [reflexivity|].
  cbn [forallb fst snd] in H. apply andb_true_iff in H as [Hkv Hkvs].
  apply andb_true_iff in Hkv as [Hk Hv].
  cbn [map List.app fold_left fst snd].
  change (("# " ++ kv_line (k, v)) ++ [NL])
    with ("# " ++ kv_line (k, v) ++ [NL]).
  rewrite (parse_lines_kv_metadata k v _ _ _ Hk Hv).
  apply IH, Hkvs.
Qed.

Lemma parse_lines_fields_block (kvs : list (str * str)) (rest : list str)
      (metadata : dict str) (fields_meta : dict (list str)) :
  forallb (fun kv => key_ok (fst kv) && no_linebreak (snd kv)) kvs = true ->
  parse_lines
    (map (fun l => l ++ [NL]) (map (fun l => "# " ++ l) (map kv_line kvs))
       ++ rest)
    (Some InFields) metadata fields_meta
  = parse_lines rest (Some InFields) metadata
      (fold_left (fun m kv =>
                    dict_set m (fst kv)
                             (map strip (split_pipe (strip (snd kv)))))
                 kvs fields_meta).
Proof.
  revert fields_meta. induction kvs as [|[k v] kvs IH]; intros fields_meta H;
    [reflexivity|].
  cbn [forallb fst snd] in H. apply andb_true_iff in H as [Hkv Hkvs].
  apply andb_true_iff in Hkv as [Hk Hv].
  cbn [map List.app fold_left fst snd].
  change (("# " ++ kv_line (k, v)) ++ [NL])
    with ("# " ++ kv_line (k, v) ++ [NL]).
  rewrite (parse_lines_kv_fields k v _ _ _ Hk Hv).
  apply IH, Hkvs.
Qed.

(** The first pass of the parser over a file made of the two blocks. *)
Lemma parse_lines_blocks (mkvs fkvs : list (str * str)) (data : list str) :
  forallb (fun kv => key_ok (fst kv) && no_linebreak (snd kv)) mkvs = true ->
  forallb (fun kv => key_ok (fst kv) && no_linebreak (snd kv)) fkvs = true ->
  parse_lines
    (map (fun l => l ++ [NL])
         (["# iCSV 1.0 UTF-8"; "# [METADATA]"]
            ++ map (fun l => "# " ++ l) (map kv_line mkvs)
            ++ [""; "# [FIELDS]"]
            ++ map (fun l => "# " ++ l) (map kv_line fkvs)
            ++ [""; "# [DATA]"])
       ++ data)
    None [] []
  = (fold_left (fun m kv => dict_set m (fst kv) (strip (snd kv))) mkvs [],
     fold_left (fun m kv =>
                  dict_set m (fst kv)
                           (map strip (split_pipe (strip (snd kv)))))
               fkvs []).
Proof.
  intros Hm Hf.
  rewrite !map_app, <- !app_assoc.
  change (map (fun l => l ++ [NL]) ["# iCSV 1.0 UTF-8"; "# [METADATA]"])
    with [("# iCSV 1.0 UTF-8" ++ [NL]); ("# [METADATA]" ++ [NL])].
  change (map (fun l => l ++ [NL]) [""; "# [FIELDS]"])
    with [("" ++ [NL]); ("# [FIELDS]" ++ [NL])].
  change (map (fun l => l ++ [NL]) [""; "# [DATA]"])
    with [("" ++ [NL]); ("# [DATA]" ++ [NL])].
  cbn [List.app].
  rewrite parse_lines_first, parse_lines_metadata_marker.
  rewrite (parse_lines_metadata_block mkvs _ _ _ Hm).
  rewrite parse_lines_blank, parse_lines_fields_marker.
  rewrite (parse_lines_fields_block fkvs _ _ _ Hf).
  rewrite parse_lines_blank. apply parse_lines_data_marker.
Qed.

(** ** The two blocks as tables *)

Lemma build_icsv_metadata_section_table
      (field_delimiter : str) (header : list str) (rows_count : nat)
      (nodata_value geometry_hint srid_hint application_profile : option str) :
  build_icsv_metadata_section field_delimiter header rows_count nodata_value
    geometry_hint srid_hint application_profile
  = map kv_line
        (metadata_table field_delimiter header rows_count nodata_value
           geometry_hint srid_hint application_profile).
Proof.
  unfold build_icsv_metadata_section, metadata_table, opt_line, opt_pair.
  destruct application_profile as [[|a1 a2]|], nodata_value as [n|],
    geometry_hint as [[|g1 g2]|], srid_hint as [[|s1 s2]|]; reflexivity.
Qed.

Lemma build_fields_section_table (header : list str)
      (col_infos : list col_info) (field_delimiter : str) :
  build_fields_section header col_infos field_delimiter
  = map kv_line
        (map (fun kv => (fst kv, join field_delimiter (snd kv)))
             (fields_table header col_infos)).
Proof. reflexivity. Qed.

Lemma metadata_table_keys
      (field_delimiter : str) (header : list str) (rows_count : nat)
      (nodata_value geometry_hint srid_hint application_profile : option str) :
  forallb (fun kv => key_ok (fst kv))
          (metadata_table field_delimiter header rows_count nodata_value
             geometry_hint srid_hint application_profile) = true.
Proof.
  unfold metadata_table, opt_pair.
  destruct application_profile as [[|a1 a2]|], nodata_value as [n|],
    geometry_hint as [[|g1 g2]|], srid_hint as [[|s1 s2]|]; reflexivity.
Qed.

(** The keys of the METADATA block are distinct: the map the parser
    fills holds the pairs in the order they were written. *)
Lemma metadata_table_fold
      (field_delimiter : str) (header : list str) (rows_count : nat)
      (nodata_value geometry_hint srid_hint application_profile : option str) :
  fold_left (fun m kv => dict_set m (fst kv) (strip (snd kv)))
            (metadata_table field_delimiter header rows_count nodata_value
               geometry_hint srid_hint application_profile) []
  = map (fun kv => (fst kv, strip (snd kv)))
        (metadata_table field_delimiter header rows_count nodata_value
           geometry_hint srid_hint application_profile).
Proof.
  unfold metadata_table, opt_pair.
  destruct application_profile as [[|a1 a2]|], nodata_value as [n|],
    geometry_hint as [[|g1 g2]|], srid_hint as [[|s1 s2]|]; reflexivity.
Qed.

Lemma metadata_table_delimiter
      (field_delimiter : str) (header : list str) (rows_count : nat)
      (nodata_value geometry_hint srid_hint application_profile : option str) :
  dict_get (map (fun kv => (fst kv, strip (snd kv)))
                (metadata_table field_delimiter header rows_count nodata_value
                   geometry_hint srid_hint application_profile))
           "field_delimiter"
  = Some (strip field_delimiter).
Proof.
  unfold metadata_table, opt_pair.
  destruct application_profile as [[|a1 a2]|], nodata_value as [n|],
    geometry_hint as [[|g1 g2]|], srid_hint as [[|s1 s2]|]; reflexivity.
Qed.

Lemma metadata_table_columns
      (field_delimiter : str) (header : list str) (rows_count : nat)
      (nodata_value geometry_hint srid_hint application_profile : option str) :
  dict_get (map (fun kv => (fst kv, strip (snd kv)))
                (metadata_table field_delimiter header rows_count nodata_value
                   geometry_hint srid_hint application_profile))
           "columns"
  = Some (strip (str_of_nat (length header))).
Proof.
  unfold metadata_table, opt_pair.
  destruct application_profile as [[|a1 a2]|], nodata_value as [n|],
    geometry_hint as [[|g1 g2]|], srid_hint as [[|s1 s2]|]; reflexivity.
Qed.

Lemma fields_table_fold (header : list str) (col_infos : list col_info)
      (field_delimiter : str) :
  fold_left (fun m kv =>
               dict_set m (fst kv) (map strip (split_pipe (strip (snd kv)))))
            (map (fun kv => (fst kv, join field_delimiter (snd kv)))
                 (fields_table header col_infos)) []
  = map (fun kv =>
           (fst kv,
            map strip (split_pipe (strip (join field_delimiter (snd kv))))))
        (fields_table header col_infos).
Proof. reflexivity. Qed.

(** ** Numbers written in decimal *)

Lemma str_of_uint_digits (u : Decimal.uint) :
  forallb is_digit (str_of_uint u) = true.
Proof.
  induction u; [reflexivity | cbn [str_of_uint forallb]; rewrite IHu;
                              reflexivity ..].
Qed.

Lemma str_of_nat_digits (n : nat) : forallb is_digit (str_of_nat n) = true.
Proof. apply str_of_uint_digits. Qed.

Lemma strip_str_of_nat (n : nat) : strip (str_of_nat n) = str_of_nat n.
Proof. apply strip_none, digits_not_space, str_of_nat_digits. Qed.

(** ** Lines without line break *)

Lemma forallb_both {A} (p q : A -> bool) (l : list A) :
  forallb (fun x => p x && q x) l = forallb p l && forallb q l.
Proof.
  induction l as [|x l IH]; [reflexivity|]. cbn [forallb]. rewrite IH.
  destruct (p x), (q x), (forallb p l); reflexivity.
Qed.

Lemma no_space_no_linebreak (s : str) :
  forallb (fun c => negb (is_space c)) s = true -> no_linebreak s = true.
Proof.
  unfold no_linebreak. rewrite !forallb_forall. intros H c Hc.
  specialize (H c Hc). apply negb_true_iff in H. unfold line_end.
  rewrite (space_neq c NL H eq_refl), (space_neq c CR H eq_refl).
  reflexivity.
Qed.

Lemma no_linebreak_app (a b : str) :
  no_linebreak (a ++ b) = no_linebreak a && no_linebreak b.
Proof. apply forallb_app. Qed.

Lemma key_ok_no_linebreak (k : str) : key_ok k = true -> no_linebreak k = true.
Proof.
  destruct k as [|c k]; [discriminate|]. unfold key_ok.
  intro H. apply andb_true_iff in H as [_ H].
  apply no_space_no_linebreak. apply (key_char_facts _ H).
Qed.

Lemma kv_lines_no_linebreak (kvs : list (str * str)) :
  forallb (fun kv => key_ok (fst kv) && no_linebreak (snd kv)) kvs = true ->
  forallb no_linebreak (map (fun l => "# " ++ l) (map kv_line kvs)) = true.
Proof.
  induction kvs as [|[k v] kvs IH]; intro H; [reflexivity|].
  cbn [forallb fst snd] in H. apply andb_true_iff in H as [Hkv Hkvs].
  apply andb_true_iff in Hkv as [Hk Hv].
  cbn [map forallb]. rewrite (IH Hkvs), andb_true_r.
  unfold kv_line. cbn [fst snd]. rewrite !no_linebreak_app.
  rewrite (key_ok_no_linebreak k Hk), Hv. reflexivity.
Qed.

Lemma cells_no_linebreak (d : ascii) (cells : list str) :
  line_end d = false -> forallb (cell_ok d) cells = true ->
  no_linebreak (join [d] cells) = true.
Proof.
  intros Hd. induction cells as [|x l IH]; intro H; [reflexivity|].
  cbn [forallb] in H. apply andb_true_iff in H as [Hx Hl].
  assert (Hnx : no_linebreak x = true).
  { unfold cell_ok in Hx. unfold no_linebreak.
    rewrite forallb_forall in Hx |- *. intros c Hc.
    specialize (Hx c Hc). apply andb_true_iff in Hx as [_ Hx]. exact Hx. }
  destruct l as [|y l]; [exact Hnx|].
  change (join [d] (x :: y :: l)) with (x ++ [d] ++ join [d] (y :: l)).
  rewrite !no_linebreak_app, Hnx, (IH Hl).
  unfold no_linebreak. cbn [forallb]. rewrite Hd. reflexivity.
Qed.

(** ** The parser on a file written from the two tables *)

(** The first pass: the METADATA pairs with their values stripped, and
    every FIELDS line stripped and split at [|]. *)
Lemma parse_lines_written
      (field_delimiter : str) (header : list str) (rows_count : nat)
      (nodata_value geometry_hint srid_hint application_profile : option str)
      (col_infos : list col_info) (data_header : list str)
      (rows : list (list str)) :
  forallb (fun kv => no_linebreak (snd kv))
          (metadata_table field_delimiter header rows_count nodata_value
             geometry_hint srid_hint application_profile) = true ->
  forallb (fun kv => no_linebreak (join field_delimiter (snd kv)))
          (fields_table header col_infos) = true ->
  parse_lines
    (file_lines
       (write_icsv
          (build_icsv_metadata_section field_delimiter header rows_count
             nodata_value geometry_hint srid_hint application_profile)
          (build_fields_section header col_infos field_delimiter)
          data_header rows field_delimiter))
    None [] []
  = (map (fun kv => (fst kv, strip (snd kv)))
         (metadata_table field_delimiter header rows_count nodata_value
            geometry_hint srid_hint application_profile),
     map (fun kv =>
            (fst kv,
             map strip (split_pipe (strip (join field_delimiter (snd kv))))))
         (fields_table header col_infos)).
Proof.
  intros Hm Hf.
  set (mkvs := metadata_table field_delimiter header rows_count nodata_value
                 geometry_hint srid_hint application_profile) in *.
  set (fkvs := map (fun kv => (fst kv, join field_delimiter (snd kv)))
                   (fields_table header col_infos)).
  assert (Hmk : forallb (fun kv => key_ok (fst kv) && no_linebreak (snd kv))
                        mkvs = true).
  { rewrite forallb_both, Hm. unfold mkvs. rewrite metadata_table_keys.
    reflexivity. }
  assert (Hfk : forallb (fun kv => key_ok (fst kv) && no_linebreak (snd kv))
                        fkvs = true).
  { unfold fkvs. rewrite forallb_map_eq. cbn [fst snd].
    rewrite forallb_both, Hf. reflexivity. }
  destruct (write_icsv_lines
              (build_icsv_metadata_section field_delimiter header rows_count
                 nodata_value geometry_hint srid_hint application_profile)
              (build_fields_section header col_infos field_delimiter)
              data_header rows field_delimiter) as [data ->].
  rewrite build_icsv_metadata_section_table, build_fields_section_table.
  fold mkvs. fold fkvs.
  rewrite file_lines_lines.
  - rewrite (parse_lines_blocks mkvs fkvs _ Hmk Hfk).
    unfold mkvs at 1. rewrite metadata_table_fold.
    unfold fkvs. rewrite fields_table_fold. reflexivity.
  - rewrite !forallb_app.
    apply andb_true_iff; split; [reflexivity|].
    apply andb_true_iff; split; [apply (kv_lines_no_linebreak mkvs Hmk)|].
    apply andb_true_iff; split; [reflexivity|].
    apply andb_true_iff; split; [apply (kv_lines_no_linebreak fkvs Hfk)|].
    reflexivity.
Qed.

(** The second pass with a non-empty delimiter. *)
Lemma resplit_nonempty (c : ascii) (r : str) (fields_meta : dict (list str)) :
  resplit (c :: r) fields_meta
  = Some (map (fun kv =>
                 (fst kv,
                  map strip (split_go (c :: r) 0 (join "|" (snd kv)))))
              fields_meta).
Proof.
  unfold resplit. induction fields_meta as [|[k v] l IH]; [reflexivity|].
  cbn [map_opt]. rewrite IH. reflexivity.
Qed.

Lemma map_opt_length {A B} (f : A -> option B) (l : list A) (ys : list B) :
  map_opt f l = Some ys -> length ys = length l.
Proof.
  revert ys. induction l as [|x l IH]; intros ys; simpl.
  - intros [= <-]. reflexivity.
  - destruct (f x); [|discriminate].
    destruct (map_opt f l) as [zs|]; [|discriminate].
    intros [= <-]. simpl. rewrite (IH zs eq_refl). reflexivity.
Qed.

Lemma enumerate_length {A} (l : list A) : length (enumerate l) = length l.
Proof.
  unfold enumerate. rewrite length_combine, length_seq. apply Nat.min_id.
Qed.

Lemma column_profiles_length (header : list str) (rows : list (list str))
      (col_infos : list col_info) :
  column_profiles header rows = Some col_infos ->
  length col_infos = length header.
Proof.
  unfold column_profiles. intro H. apply map_opt_length in H.
  rewrite H. apply enumerate_length.
Qed.

(** ** What [parse_icsv_metadata] reads in a produced file *)

Lemma space_not_line_end (d : ascii) : is_space d = false -> line_end d = false.
Proof.
  intro H. unfold line_end.
  rewrite (space_neq d NL H eq_refl), (space_neq d CR H eq_refl). reflexivity.
Qed.

Lemma no_linebreak_app_intro (a b : str) :
  no_linebreak a = true -> no_linebreak b = true ->
  no_linebreak (a ++ b) = true.
Proof. intros Ha Hb. rewrite no_linebreak_app, Ha, Hb. reflexivity. Qed.

Lemma cell_ok_no_linebreak (d : ascii) (x : str) :
  cell_ok d x = true -> no_linebreak x = true.
Proof.
  unfold cell_ok, no_linebreak. rewrite !forallb_forall. intros H c Hc.
  specialize (H c Hc). apply andb_true_iff in H as [_ H]. exact H.
Qed.

Lemma join_no_linebreak (d : str) (cells : list str) :
  no_linebreak d = true -> forallb no_linebreak cells = true ->
  no_linebreak (join d cells) = true.
Proof.
  intros Hd. induction cells as [|x l IH]; intro H; [reflexivity|].
  cbn [forallb] in H. apply andb_true_iff in H as [Hx Hl].
  destruct l as [|y l]; [exact Hx|].
  change (join d (x :: y :: l)) with (x ++ d ++ join d (y :: l)).
  repeat apply no_linebreak_app_intro; auto.
Qed.

Lemma table_no_linebreak (d : ascii) (table : list (str * list str)) :
  is_space d = false ->
  forallb (fun kv => forallb (cell_ok d) (snd kv)) table = true ->
  forallb (fun kv => no_linebreak (join [d] (snd kv))) table = true.
Proof.
  intros Hd. rewrite !forallb_forall. intros H kv Hkv.
  apply cells_no_linebreak; [apply space_not_line_end, Hd | apply H, Hkv].
Qed.

Lemma str_of_nat_no_linebreak (n : nat) : no_linebreak (str_of_nat n) = true.
Proof.
  apply no_space_no_linebreak, digits_not_space, str_of_nat_digits.
Qed.

Lemma opt_pair_no_linebreak (key : str) (cond : bool) (o : option str) :
  opt_no_linebreak o = true ->
  forallb (fun kv => no_linebreak (snd kv)) (opt_pair key cond o) = true.
Proof.
  destruct o as [v|], cond; simpl; intro H; rewrite ?H; reflexivity.
Qed.

Lemma metadata_table_no_linebreak
      (field_delimiter : str) (header : list str) (rows_count : nat)
      (nodata_value geometry_hint srid_hint application_profile : option str) :
  no_linebreak field_delimiter = true ->
  no_linebreak (isoformat utcnow) = true ->
  no_linebreak module_name = true ->
  opt_no_linebreak nodata_value = true ->
  opt_no_linebreak geometry_hint = true ->
  opt_no_linebreak srid_hint = true ->
  opt_no_linebreak application_profile = true ->
  forallb (fun kv => no_linebreak (snd kv))
          (metadata_table field_delimiter header rows_count nodata_value
             geometry_hint srid_hint application_profile) = true.
Proof.
  intros Hd Hiso Hmod Hn Hg Hs Ha. unfold metadata_table.
  rewrite !forallb_app.
  rewrite !opt_pair_no_linebreak by assumption.
  cbn [forallb snd]. rewrite !str_of_nat_no_linebreak, Hd.
  rewrite (no_linebreak_app_intro _ "Z" Hiso eq_refl).
  rewrite (no_linebreak_app_intro "DEVO " _ eq_refl Hmod).
  reflexivity.
Qed.

Lemma nth_no_linebreak (header : list str) (i : nat) :
  forallb no_linebreak header = true -> no_linebreak (nth i header []) = true.
Proof.
  intro H. destruct (nth_in_or_default i header []) as [Hin | ->];
    [|reflexivity].
  rewrite forallb_forall in H. apply H, Hin.
Qed.

(** The hints of [detect_geometry_hint] are made of header names. *)
Lemma geometry_hint_no_linebreak (header : list str) :
  forallb no_linebreak header = true ->
  opt_no_linebreak (fst (detect_geometry_hint header)) = true
  /\ opt_no_linebreak (snd (detect_geometry_hint header)) = true.
Proof.
  intro H. unfold detect_geometry_hint.
  destruct (str_in "geometry" (map lower header)).
  - destruct (index_of "geometry" (map lower header)) as [idx|];
      [|split; reflexivity].
    split; [|reflexivity]. cbn [fst opt_no_linebreak].
    apply no_linebreak_app_intro; [reflexivity | apply nth_no_linebreak, H].
  - destruct (fold_left _ _ _) as [[la|] [lo|]]; try (split; reflexivity).
    split; [|reflexivity]. cbn [fst opt_no_linebreak].
    repeat apply no_linebreak_app_intro;
      first [reflexivity | apply nth_no_linebreak, H].
Qed.

(** The file written from the two blocks, read back: the METADATA pairs
    with their values stripped, and every FIELDS list after the two
    splits. *)
Lemma parse_written_icsv
      (d : ascii) (header : list str) (rows_count : nat)
      (nodata_value geometry_hint srid_hint application_profile : option str)
      (col_infos : list col_info) (data_header : list str)
      (rows : list (list str)) :
  is_space d = false ->
  forallb (fun kv => no_linebreak (snd kv))
          (metadata_table [d] header rows_count nodata_value
             geometry_hint srid_hint application_profile) = true ->
  forallb (fun kv => forallb (cell_ok d) (snd kv))
          (fields_table header col_infos) = true ->
  parse_icsv_metadata
    (write_icsv
       (build_icsv_metadata_section [d] header rows_count
          nodata_value geometry_hint srid_hint application_profile)
       (build_fields_section header col_infos [d])
       data_header rows [d])
  = Some (map (fun kv => (fst kv, strip (snd kv)))
              (metadata_table [d] header rows_count nodata_value
                 geometry_hint srid_hint application_profile),
          map (fun kv =>
                 (fst kv,
                  map strip
                      (split_go [d] 0
                         (join "|"
                            (map strip
                               (split_pipe (strip (join [d] (snd kv)))))))))
              (fields_table header col_infos)).
Proof.
  intros Hd Hm Hf. unfold parse_icsv_metadata.
  rewrite (parse_lines_written [d] header rows_count nodata_value
             geometry_hint srid_hint application_profile col_infos
             data_header rows Hm (table_no_linebreak d _ Hd Hf)).
  rewrite metadata_table_delimiter.
  assert (Es : strip [d] = [d]).
  { apply strip_none. cbn [forallb]. rewrite Hd. reflexivity. }
  rewrite Es, resplit_nonempty, map_map. reflexivity.
Qed.

Lemma fields_table_lengths (header : list str) (col_infos : list col_info) :
  length col_infos = length header ->
  Forall (fun kv => length (snd kv) = length header)
         (fields_table header col_infos).
Proof.
  intro H. unfold fields_table.
  repeat constructor; cbn [snd]; rewrite ?length_map; auto.
Qed.

(** The conditions [plain_blocks] gathers, one by one. *)
Lemma plain_blocks_inv (d : ascii) (application_profile : option str)
      (e : enrichment) :
  plain_blocks d application_profile e = true ->
  is_space d = false /\ e_header e <> []
  /\ no_linebreak (isoformat utcnow) = true
  /\ no_linebreak module_name = true
  /\ no_linebreak (e_nodata_value e) = true
  /\ opt_no_linebreak application_profile = true
  /\ forallb (fun kv => forallb (cell_ok d) (snd kv))
             (fields_table (e_header e) (e_col_infos e)) = true.
Proof.
  unfold plain_blocks. intro H.
  repeat (apply andb_true_iff in H as [H ?]).
  apply negb_true_iff in H.
  match goal with
  | Hn : negb (is_nil (e_header e)) = true |- _ =>
      apply negb_true_iff, is_nil_false in Hn
  end.
  auto 10.
Qed.

(** A produced file read back by [parse_icsv_metadata]. *)
Lemma produced_icsv_parsed (content : str)
      (user_delimiter nodata_override application_profile : option str)
      (e : enrichment) (d : ascii) :
  enrich content user_delimiter nodata_override application_profile = Some e ->
  e_icsv_delim e = [d] ->
  plain_blocks d application_profile e = true ->
  let table :=
    metadata_table [d] (e_header e) (e_row_count e) (Some (e_nodata_value e))
      (fst (detect_geometry_hint (e_header e)))
      (snd (detect_geometry_hint (e_header e))) application_profile in
  exists text,
    make_icsv_from_csv content user_delimiter nodata_override
                       application_profile
    = Some (text, e_schema e)
    /\ parse_icsv_metadata text
       = Some (map (fun kv => (fst kv, strip (snd kv))) table,
               map (fun kv =>
                      (fst kv,
                       map strip
                           (split_go [d] 0
                              (join "|"
                                 (map strip
                                    (split_pipe
                                       (strip (join [d] (snd kv)))))))))
                   (fields_table (e_header e) (e_col_infos e))).
Proof.
  intros He Hdel Hplain table.
  destruct (plain_blocks_inv d application_profile e Hplain)
    as [Hd [Hne [Hiso [Hmod [Hnd [Hap Hcells]]]]]].
  pose proof (enrich_inv _ _ _ _ _ He) as [_ [_ [_ [_ [_ [Hm Hf]]]]]].
  unfold make_icsv_from_csv. rewrite He. eexists. split; [reflexivity|].
  rewrite Hm, Hf, Hdel.
  assert (Hheader : forallb no_linebreak (e_header e) = true).
  { unfold fields_table in Hcells. cbn [forallb snd] in Hcells.
    apply andb_true_iff in Hcells as [Hh _].
    rewrite forallb_forall in Hh |- *. intros x Hx.
    apply (cell_ok_no_linebreak d), Hh, Hx. }
  destruct (geometry_hint_no_linebreak (e_header e) Hheader) as [Hg Hs].
  apply parse_written_icsv; [assumption | | assumption].
  apply metadata_table_no_linebreak; try assumption.
  apply space_not_line_end in Hd. unfold no_linebreak. cbn [forallb].
  rewrite Hd. reflexivity.
Qed.

(** X1.  Round trip of the column count.  When [make_icsv_from_csv] writes a
    file whose blocks are plain ([plain_blocks]: a delimiter that is one
    character and not white space, a header that is not empty, METADATA
    values without line break, FIELDS cells without the delimiter and
    without line break), [parse_icsv_metadata] reads the file back, the
    [columns] value it finds is the length of the header, the FIELDS map
    has the six keys in the order written, and each of its lists has as
    many elements as the header. *)
Theorem produced_icsv_column_counts (content : str)
        (user_delimiter nodata_override application_profile : option str)
        (e : enrichment) (d : ascii) :
  enrich content user_delimiter nodata_override application_profile = Some e ->
  e_icsv_delim e = [d] ->
  plain_blocks d application_profile e = true ->
  exists text metadata fields_meta,
    make_icsv_from_csv content user_delimiter nodata_override
                       application_profile
    = Some (text, e_schema e)
    /\ parse_icsv_metadata text = Some (metadata, fields_meta)
    /\ dict_get metadata "columns" = Some (str_of_nat (length (e_header e)))
    /\ map fst fields_meta
       = ["fields"; "types"; "min"; "max"; "missing_count"; "description"]
    /\ Forall (fun kv => length (snd kv) = length (e_header e)) fields_meta.
Proof.
  intros He Hdel Hplain.
  destruct (produced_icsv_parsed _ _ _ _ _ _ He Hdel Hplain)
    as [text [Hmake Hparse]].
  destruct (plain_blocks_inv d application_profile e Hplain)
    as [Hd [Hne [_ [_ [_ [_ Hcells]]]]]].
  pose proof (enrich_inv _ _ _ _ _ He) as [_ [_ [Hprof _]]].
  apply column_profiles_length in Hprof.
  exists text. do 2 eexists.
  split; [exact Hmake|]. split; [exact Hparse|].
  split; [|split].
  - rewrite metadata_table_columns, strip_str_of_nat. reflexivity.
  - reflexivity.
  - apply Forall_map. cbn [snd].
    pose proof (fields_table_lengths (e_header e) (e_col_infos e) Hprof) as Hl.
    rewrite Forall_forall in Hl |- *. intros kv Hkv.
    rewrite forallb_forall in Hcells.
    rewrite resplit_length; [apply Hl, Hkv | assumption | | apply Hcells, Hkv].
    apply (nonempty_of_length (e_header e)); [apply Hl, Hkv | assumption].
Qed.

(** X2.  A produced file passes the metadata checks of the validator: under
    the same conditions, [check_metadata] on what [parse_icsv_metadata]
    reads in the file finds nothing to report. *)
Theorem produced_icsv_passes_check_metadata (content : str)
        (user_delimiter nodata_override application_profile : option str)
        (e : enrichment) (d : ascii) :
  enrich content user_delimiter nodata_override application_profile = Some e ->
  e_icsv_delim e = [d] ->
  plain_blocks d application_profile e = true ->
  exists text metadata fields_meta,
    make_icsv_from_csv content user_delimiter nodata_override
                       application_profile
    = Some (text, e_schema e)
    /\ parse_icsv_metadata text = Some (metadata, fields_meta)
    /\ check_metadata metadata fields_meta = [].
Proof.
  intros He Hdel Hplain.
  destruct (produced_icsv_parsed _ _ _ _ _ _ He Hdel Hplain)
    as [text [Hmake Hparse]].
  destruct (plain_blocks_inv d application_profile e Hplain)
    as [Hd [Hne [_ [_ [_ [_ Hcells]]]]]].
  pose proof (enrich_inv _ _ _ _ _ He) as [_ [_ [Hprof _]]].
  apply column_profiles_length in Hprof.
  exists text. do 2 eexists.
  split; [exact Hmake|]. split; [exact Hparse|].
  rewrite check_metadata_eq, metadata_table_delimiter.
  assert (Es : strip [d] = [d]).
  { apply strip_none. cbn [forallb]. rewrite Hd. reflexivity. }
  rewrite Es. cbn [List.app].
  change (dict_get _ "fields") with
    (Some (map strip
             (split_go [d] 0
                (join "|"
                   (map strip
                      (split_pipe (strip (join [d] (e_header e))))))))).
  cbv iota beta.
  rewrite filter_none; [reflexivity|].
  rewrite forallb_map_eq. apply forallb_forall. intros kv Hkv.
  unfold wrong_length. cbn [fst snd].
  pose proof (fields_table_lengths (e_header e) (e_col_infos e) Hprof) as Hl.
  rewrite Forall_forall in Hl. rewrite forallb_forall in Hcells.
  assert (Hhead : forallb (cell_ok d) (e_header e) = true).
  { apply (Hcells ("fields", e_header e)). left. reflexivity. }
  rewrite !resplit_length; try assumption.
  - rewrite (Hl kv Hkv), Nat.eqb_refl.
    destruct (negb _ && negb _); reflexivity.
  - apply (nonempty_of_length (e_header e)); [apply Hl, Hkv | assumption].
  - apply Hcells, Hkv.
Qed.

(** ** A delimiter made of white space *)

Lemma plain_lines_inv (application_profile : option str) (e : enrichment) :
  plain_lines application_profile e = true ->
  no_linebreak (e_icsv_delim e) = true
  /\ no_linebreak (isoformat utcnow) = true
  /\ no_linebreak module_name = true
  /\ no_linebreak (e_nodata_value e) = true
  /\ opt_no_linebreak application_profile = true
  /\ forallb (fun kv => forallb no_linebreak (snd kv))
             (fields_table (e_header e) (e_col_infos e)) = true.
Proof.
  unfold plain_lines. intro H.
  repeat (apply andb_true_iff in H as [H ?]). auto 10.
Qed.

(** X3.  A file whose delimiter is white space is written and cannot be
    read back.  When the output delimiter of [make_icsv_from_csv] is made of
    white space only (a tab, which the sniffer may answer and the caller
    may force), the value of the [field_delimiter] line is stripped to
    the empty string by [parse_icsv_metadata], and the second split, by
    an empty separator, raises. *)
Theorem blank_delimiter_not_read_back (content : str)
        (user_delimiter nodata_override application_profile : option str)
        (e : enrichment) :
  enrich content user_delimiter nodata_override application_profile = Some e ->
  strip (e_icsv_delim e) = [] ->
  plain_lines application_profile e = true ->
  exists text,
    make_icsv_from_csv content user_delimiter nodata_override
                       application_profile
    = Some (text, e_schema e)
    /\ parse_icsv_metadata text = None.
Proof.
  intros He Hblank Hplain.
  destruct (plain_lines_inv application_profile e Hplain)
    as [Hd [Hiso [Hmod [Hnd [Hap Hcells]]]]].
  pose proof (enrich_inv _ _ _ _ _ He) as [_ [_ [_ [_ [_ [Hm Hf]]]]]].
  unfold make_icsv_from_csv. rewrite He. eexists. split; [reflexivity|].
  rewrite Hm, Hf.
  assert (Hheader : forallb no_linebreak (e_header e) = true).
  { unfold fields_table in Hcells. cbn [forallb snd] in Hcells.
    apply andb_true_iff in Hcells as [Hh _]. exact Hh. }
  destruct (geometry_hint_no_linebreak (e_header e) Hheader) as [Hg Hs].
  unfold parse_icsv_metadata.
  rewrite parse_lines_written.
  - rewrite metadata_table_delimiter, Hblank. reflexivity.
  - apply metadata_table_no_linebreak; assumption.
  - rewrite forallb_forall in Hcells |- *. intros kv Hkv.
    apply join_no_linebreak; [assumption | apply Hcells, Hkv].
Qed.

(** ** Rows and columns of an enrichment *)

Lemma nth_firstn_lt {A} (n j : nat) (l : list A) (d : A) :
  j < n -> nth j (firstn n l) d = nth j l d.
Proof.
  revert j l. induction n as [|n IH]; intros j l Hj; [lia|].
  destruct l as [|x l]; [reflexivity|].
  destruct j as [|j]; [reflexivity|]. simpl. apply IH. lia.
Qed.

Lemma nth_repeat_default {A} (d : A) (m j : nat) : nth j (repeat d m) d = d.
Proof.
  revert j. induction m as [|m IH]; intro j; destruct j; simpl; auto.
Qed.

Lemma normalize_row_length (n : nat) (r : list str) :
  length (normalize_row n r) = n.
Proof.
  unfold normalize_row, pad_to.
  destruct (Nat.ltb_spec (length r) n) as [H|H].
  - rewrite length_app, repeat_length. unfold str in *. lia.
  - destruct (Nat.ltb_spec n (length r)) as [H'|H'].
    + rewrite length_firstn. unfold str in *. lia.
    + unfold str in *. lia.
Qed.

Lemma normalize_row_nth (n j : nat) (r : list str) :
  j < n -> nth j (normalize_row n r) [] = nth j r [].
Proof.
  intro Hj. unfold normalize_row, pad_to.
  destruct (Nat.ltb_spec (length r) n) as [H|H].
  - destruct (Nat.lt_ge_cases j (length r)) as [Hlt|Hge].
    + apply app_nth1, Hlt.
    + rewrite (app_nth2 _ _ _ Hge), nth_repeat_default.
      symmetry. apply nth_overflow, Hge.
  - destruct (Nat.ltb_spec n (length r)) as [H'|H']; [|reflexivity].
    apply nth_firstn_lt, Hj.
Qed.

Lemma Forall2_map_right {A B} (P : A -> B -> Prop) (f : A -> B) (l : list A) :
  (forall x, P x (f x)) -> Forall2 P l (map f l).
Proof. intro H. induction l; simpl; constructor; auto. Qed.

Lemma load_rows_inv (content : str) (delimiter : option str)
      (header : list str) (rows : list (list str)) (n : nat) :
  load_rows_with_frictionless content delimiter = Some (header, rows, n) ->
  n = length rows /\ Forall (fun h => strip h = h) header.
Proof.
  unfold load_rows_with_frictionless.
  destruct (csv_reader _ content) as [[|r rs]|]; [| |discriminate].
  - intros [= <- <- <-]. split; [reflexivity | constructor].
  - intros [= <- <- <-]. split; [reflexivity|].
    apply Forall_forall. intros h Hh.
    apply in_map_iff in Hh as [x [<- _]]. apply strip_idem.
Qed.

(** X4.  The table [make_icsv_from_csv] analyses and writes is
    rectangular.  The row count it records is the number of data rows
    read; the rows it keeps are the rows read, one for one, each cut or
    padded with empty cells to the length of the header, and a cell
    within the header length stays where it was (a missing one reads as
    the empty string); the header names are stripped. *)
Theorem enrich_rows_rectangular (content : str)
        (user_delimiter nodata_override application_profile : option str)
        (e : enrichment) :
  enrich content user_delimiter nodata_override application_profile = Some e ->
  e_row_count e = length (e_raw_rows e)
  /\ Forall2 (fun raw r =>
                length r = length (e_header e)
                /\ forall j, j < length (e_header e) ->
                             nth j r [] = nth j raw [])
             (e_raw_rows e) (e_rows e)
  /\ Forall (fun h => strip h = h) (e_header e).
Proof.
  intro He. pose proof (enrich_inv _ _ _ _ _ He) as [Hload [Hrows _]].
  apply load_rows_inv in Hload as [Hn Hh].
  split; [exact Hn|]. split; [|exact Hh].
  rewrite Hrows. apply Forall2_map_right. intro raw. split.
  - apply normalize_row_length.
  - intros j Hj. apply normalize_row_nth, Hj.
Qed.

Lemma enrich_schema (content : str)
      (user_delimiter nodata_override application_profile : option str)
      (e : enrichment) :
  enrich content user_delimiter nodata_override application_profile = Some e ->
  e_schema e
  = build_frictionless_schema (e_header e) (e_col_infos e)
      ENRICHMENT_COMMON_MISSING.
Proof.
  unfold enrich.
  destruct (load_rows_with_frictionless content user_delimiter)
    as [[[header raw_rows] n]|]; [|discriminate].
  destruct (column_profiles header _) as [infos|] eqn:Ep; [|discriminate].
  destruct (detect_geometry_hint header) as [g s] eqn:Eg.
  intros [= <-]. reflexivity.
Qed.

Lemma map_opt_Forall2 {A B} (f : A -> option B) (l : list A) (ys : list B) :
  map_opt f l = Some ys -> Forall2 (fun x y => f x = Some y) l ys.
Proof.
  revert ys. induction l as [|x l IH]; intros ys; simpl.
  - intros [= <-]. constructor.
  - destruct (f x) as [y|] eqn:E; [|discriminate].
    destruct (map_opt f l) as [zs|]; [|discriminate].
    intros [= <-]. constructor; auto.
Qed.

Lemma column_profile_name_type (name : str) (col : list str) (info : col_info) :
  column_profile name col = Some info ->
  info_name info = name
  /\ info_type info
     = infer_column_type (map strip col) ENRICHMENT_COMMON_MISSING.
Proof.
  unfold column_profile.
  destruct (infer_column_type (map strip col) ENRICHMENT_COMMON_MISSING).
  - destruct (compute_numeric_minmax _ _). intros [= <-]. auto.
  - destruct (compute_numeric_minmax _ _). intros [= <-]. auto.
  - destruct (compute_datetime_minmax _) as [[mn mx]|]; [|discriminate].
    intros [= <-]. auto.
  - intros [= <-]. auto.
Qed.

Lemma Forall2_impl_map {A B C} (P : A -> B -> Prop) (Q : A -> C -> Prop)
      (g : B -> C) (l : list A) (ys : list B) :
  (forall x y, P x y -> Q x (g y)) ->
  Forall2 P l ys -> Forall2 Q l (map g ys).
Proof. intros H F. induction F; simpl; constructor; auto. Qed.

(** X5.  The schema [make_icsv_from_csv] writes has one field for each
    column of the header, in the order of the header: the field of
    column [i] is named as the header names it, and its type is the type
    [infer_column_type] gives to the stripped cells of column [i] of the
    normalised rows, for the fixed set of missing tokens. *)
Theorem enrich_schema_fields (content : str)
        (user_delimiter nodata_override application_profile : option str)
        (e : enrichment) :
  enrich content user_delimiter nodata_override application_profile = Some e ->
  Forall2 (fun (column_i : nat * str) (f : schema_field) =>
             field_name f = snd column_i
             /\ field_type f
                = coltype_name
                    (infer_column_type
                       (map strip (column (e_rows e) (fst column_i)))
                       ENRICHMENT_COMMON_MISSING))
          (enumerate (e_header e)) (schema_fields (e_schema e)).
Proof.
  intro He. rewrite (enrich_schema _ _ _ _ _ He).
  pose proof (enrich_inv _ _ _ _ _ He) as [_ [_ [Hprof _]]].
  unfold column_profiles in Hprof. apply map_opt_Forall2 in Hprof.
  unfold build_frictionless_schema. cbn [schema_fields].
  revert Hprof. apply Forall2_impl_map.
  intros [i name] info Hinfo. cbn [field_name field_type fst snd].
  apply column_profile_name_type in Hinfo as [-> ->]. auto.
Qed.

(** ** Least and greatest value *)

Lemma fold_pick {A} (f : A -> A -> A) (r : list A) (x : A) :
  (forall a b, f a b = a \/ f a b = b) -> In (fold_left f r x) (x :: r).
Proof.
  intro Hf. revert x. induction r as [|y r IH]; intro x; [left; reflexivity|].
  cbn [fold_left]. destruct (IH (f x y)) as [H | H].
  - rewrite <- H. destruct (Hf x y) as [-> | ->];
      [left | right; left]; reflexivity.
  - right; right; exact H.
Qed.

Lemma py_min_In {A} (lt : A -> A -> bool) (l : list A) (m : A) :
  py_min lt l = Some m -> In m l.
Proof.
  destruct l as [|x r]; [discriminate|]. intros [= <-].
  apply (fold_pick (fun best y => if lt y best then y else best)).
  intros a b. destruct (lt b a); auto.
Qed.

Lemma py_max_In {A} (lt : A -> A -> bool) (l : list A) (m : A) :
  py_max lt l = Some m -> In m l.
Proof.
  destruct l as [|x r]; [discriminate|]. intros [= <-].
  apply (fold_pick (fun best y => if lt best y then y else best)).
  intros a b. destruct (lt a b); auto.
Qed.

Lemma fold_min_le (r : list Z) (x : Z) :
  let m := fold_left (fun best y => if (y <? best)%Z then y else best) r x in
  (m <= x)%Z /\ forall z, In z r -> (m <= z)%Z.
Proof.
  revert x. induction r as [|y r IH]; intro x; cbn [fold_left].
  - split; [lia | intros z []].
  - destruct (IH (if (y <? x)%Z then y else x)) as [H1 H2].
    destruct (Z.ltb_spec y x) as [Hlt | Hge].
    + split; [lia|]. intros z [<- | Hz]; [lia | auto].
    + split; [lia|]. intros z [<- | Hz]; [lia | auto].
Qed.

Lemma fold_max_ge (r : list Z) (x : Z) :
  let m := fold_left (fun best y => if (best <? y)%Z then y else best) r x in
  (x <= m)%Z /\ forall z, In z r -> (z <= m)%Z.
Proof.
  revert x. induction r as [|y r IH]; intro x; cbn [fold_left].
  - split; [lia | intros z []].
  - destruct (IH (if (x <? y)%Z then y else x)) as [H1 H2].
    destruct (Z.ltb_spec x y) as [Hlt | Hge].
    + split; [lia|]. intros z [<- | Hz]; [lia | auto].
    + split; [lia|]. intros z [<- | Hz]; [lia | auto].
Qed.

Lemma py_min_Z_le (l : list Z) (m z : Z) :
  py_min Z.ltb l = Some m -> In z l -> (m <= z)%Z.
Proof.
  destruct l as [|x r]; [discriminate|]. intros [= <-].
  destruct (fold_min_le r x) as [H1 H2]. intros [<- | Hz]; auto.
Qed.

Lemma py_max_Z_ge (l : list Z) (m z : Z) :
  py_max Z.ltb l = Some m -> In z l -> (z <= m)%Z.
Proof.
  destruct l as [|x r]; [discriminate|]. intros [= <-].
  destruct (fold_max_ge r x) as [H1 H2]. intros [<- | Hz]; auto.
Qed.

(** X6.  [compute_numeric_minmax] gives up, with no minimum and no
    maximum, on an empty list and as soon as the cast of one value
    raises: [int] for the integer type, [float] for every other type.
    When [int] accepts every value of a list that is not empty, the two
    results are integers of the list, the first below and the second
    above every integer of the list.  When, for another type, [float]
    accepts every value of a list that is not empty, the two results are
    among the floats obtained. *)
Theorem compute_numeric_minmax_bounds (pruned : list str) :
  (forall as_type, compute_numeric_minmax [] as_type = (None, None))
  /\ (map_opt py_int pruned = None ->
      compute_numeric_minmax pruned TInteger = (None, None))
  /\ (forall nums,
        pruned <> [] -> map_opt py_int pruned = Some nums ->
        exists mn mx,
          compute_numeric_minmax pruned TInteger
          = (Some (VInt mn), Some (VInt mx))
          /\ In mn nums /\ In mx nums
          /\ forall z, In z nums -> (mn <= z <= mx)%Z)
  /\ (forall as_type,
        as_type <> TInteger -> map_opt py_float pruned = None ->
        compute_numeric_minmax pruned as_type = (None, None))
  /\ (forall as_type nums,
        as_type <> TInteger ->
        pruned <> [] -> map_opt py_float pruned = Some nums ->
        exists mn mx,
          compute_numeric_minmax pruned as_type
          = (Some (VFloat mn), Some (VFloat mx))
          /\ In mn nums /\ In mx nums).
Proof.
  split; [reflexivity|]. split; [|split; [|split]].
  - intro H. unfold compute_numeric_minmax. rewrite H.
    destruct (is_nil pruned); reflexivity.
  - intros nums Hne Hn. unfold compute_numeric_minmax.
    apply is_nil_false in Hne. rewrite Hne, Hn. apply is_nil_false in Hne.
    pose proof (map_opt_length _ _ _ Hn) as Hlen.
    pose proof (nonempty_of_length _ _ Hlen Hne) as Hnums.
    destruct (py_min_some Z.ltb nums Hnums) as [mn Hmn].
    destruct (py_max_some Z.ltb nums Hnums) as [mx Hmx].
    exists mn, mx. rewrite Hmn, Hmx. split; [reflexivity|].
    split; [apply (py_min_In _ _ _ Hmn)|].
    split; [apply (py_max_In _ _ _ Hmx)|].
    intros z Hz. split.
    + apply (py_min_Z_le nums mn z Hmn Hz).
    + apply (py_max_Z_ge nums mx z Hmx Hz).
  - intros as_type Ht H. unfold compute_numeric_minmax. rewrite H.
    destruct (is_nil pruned); [reflexivity|].
    destruct as_type; [congruence | reflexivity | reflexivity | reflexivity].
  - intros as_type nums Ht Hne Hn.
    assert (E : compute_numeric_minmax pruned as_type
                = (option_map VFloat (py_min float_lt nums),
                   option_map VFloat (py_max float_lt nums))).
    { unfold compute_numeric_minmax.
      apply is_nil_false in Hne. rewrite Hne, Hn.
      destruct as_type; [congruence | reflexivity | reflexivity
                         | reflexivity]. }
    rewrite E.
    pose proof (map_opt_length _ _ _ Hn) as Hlen.
    pose proof (nonempty_of_length _ _ Hlen Hne) as Hnums.
    destruct (py_min_some float_lt nums Hnums) as [mn Hmn].
    destruct (py_max_some float_lt nums Hnums) as [mx Hmx].
    exists mn, mx. rewrite Hmn, Hmx. split; [reflexivity|].
    split; [apply (py_min_In _ _ _ Hmn) | apply (py_max_In _ _ _ Hmx)].
Qed.

(** ** What the inferred type depends on *)

Lemma filter_Permutation {A} (p : A -> bool) (l l' : list A) :
  Permutation l l' -> Permutation (filter p l) (filter p l').
Proof.
  induction 1 as [|x l l' _ IH|x y l|l l' l'' _ IH1 _ IH2]; simpl.
  - constructor.
  - destruct (p x); [constructor|]; assumption.
  - destruct (p x), (p y); try apply Permutation_refl. apply perm_swap.
  - eapply perm_trans; eassumption.
Qed.

Lemma forallb_Permutation {A} (p : A -> bool) (l l' : list A) :
  Permutation l l' -> forallb p l = forallb p l'.
Proof.
  induction 1 as [|x l l' _ IH|x y l|l l' l'' _ IH1 _ IH2]; simpl.
  - reflexivity.
  - rewrite IH. reflexivity.
  - destruct (p x), (p y); reflexivity.
  - congruence.
Qed.

Lemma is_nil_Permutation {A} (l l' : list A) :
  Permutation l l' -> is_nil l = is_nil l'.
Proof.
  induction 1; simpl; congruence.
Qed.

Lemma prune_strip (values missing_values : list str) :
  prune (map strip values) missing_values = prune values missing_values.
Proof.
  unfold prune.
  rewrite <- (filter_map_swap strip
                (fun v => negb (str_in (strip v) missing_values)) values).
  rewrite map_strip_idem. f_equal. apply filter_ext.
  intro v. rewrite strip_idem. reflexivity.
Qed.

Lemma prune_missing (l1 l2 : list str) (v : str) (missing_values : list str) :
  str_in (strip v) missing_values = true ->
  prune (l1 ++ v :: l2) missing_values = prune (l1 ++ l2) missing_values.
Proof.
  intro Hv. unfold prune. rewrite !filter_app. cbn [filter].
  rewrite Hv. reflexivity.
Qed.

Lemma prune_Permutation (values values' missing_values : list str) :
  Permutation values values' ->
  Permutation (prune values missing_values) (prune values' missing_values).
Proof.
  intro H. unfold prune. apply Permutation_map, filter_Permutation, H.
Qed.

(** X7.  The type [infer_column_type] gives to a column depends on the
    stripped cells that are not missing tokens, and not on their order:
    it is unchanged when every cell is stripped beforehand, when a cell
    whose stripped text is a missing token is taken out (or put in), and
    when the cells are permuted. *)
Theorem infer_column_type_invariance (missing_values : list str) :
  (forall values,
      infer_column_type (map strip values) missing_values
      = infer_column_type values missing_values)
  /\ (forall l1 v l2,
         str_in (strip v) missing_values = true ->
         infer_column_type (l1 ++ v :: l2) missing_values
         = infer_column_type (l1 ++ l2) missing_values)
  /\ (forall values values',
         Permutation values values' ->
         infer_column_type values missing_values
         = infer_column_type values' missing_values).
Proof.
  split; [|split].
  - intro values. unfold infer_column_type. cbv zeta.
    rewrite prune_strip. reflexivity.
  - intros l1 v l2 Hv. unfold infer_column_type. cbv zeta.
    rewrite (prune_missing l1 l2 v missing_values Hv). reflexivity.
  - intros values values' H.
    pose proof (prune_Permutation values values' missing_values H) as P.
    rewrite !infer_column_type_eq. cbv zeta.
    rewrite (is_nil_Permutation _ _ P).
    rewrite (forallb_Permutation (re_match INT_RE) _ _ P).
    rewrite (forallb_Permutation
               (fun v => re_match INT_RE v || re_match FLOAT_RE v) _ _ P).
    rewrite (forallb_Permutation try_parse_datetime _ _ P).
    reflexivity.
Qed.

(** X8.  [try_parse_datetime] looks at the stripped string only: its
    answer on a string is its answer on the stripped string, and a string
    that is empty or made of white space is never a date, whatever the
    parsers would say. *)
Theorem try_parse_datetime_strip (s : str) :
  try_parse_datetime (strip s) = try_parse_datetime s
  /\ (strip s = [] -> try_parse_datetime s = false).
Proof.
  unfold try_parse_datetime. cbv zeta. rewrite strip_idem.
  destruct s as [|c s]; [split; reflexivity|].
  cbn [is_nil]. destruct (strip (c :: s)) as [|c' s'] eqn:E.
  - split; reflexivity.
  - split; [reflexivity | discriminate].
Qed.

(** ** The runs of [validate_icsv] *)

Lemma split_go_absent (sep s : str) :
  contains sep s = false -> split_go sep 0 s = [s].
Proof.
  induction s as [|c s IH]; intro H; [reflexivity|].
  cbn [contains] in H. apply orb_false_iff in H as [Hs Hc].
  cbn [split_go]. rewrite Hs, (IH Hc). reflexivity.
Qed.

Lemma py_replace_absent (old new s : str) :
  contains old s = false -> py_replace old new s = s.
Proof.
  intro H. unfold py_replace. rewrite (split_go_absent old s H). reflexivity.
Qed.

Lemma dict_get_set_same {V} (d : dict V) (k : str) (v : V) :
  dict_get (dict_set d k v) k = Some v.
Proof.
  induction d as [|[k' v'] d IH]; simpl.
  - rewrite str_eqb_refl. reflexivity.
  - destruct (str_eqb k' k) eqn:E; simpl; rewrite E; [reflexivity | exact IH].
Qed.

Lemma dict_get_set_other {V} (d : dict V) (k k' : str) (v : V) :
  k <> k' -> dict_get (dict_set d k v) k' = dict_get d k'.
Proof.
  intro Hne. apply str_eqb_neq in Hne.
  induction d as [|[k0 v0] d IH]; simpl.
  - rewrite Hne. reflexivity.
  - destruct (str_eqb k0 k) eqn:E; simpl.
    + apply str_eqb_eq in E. subst k0. rewrite Hne. reflexivity.
    + rewrite IH. reflexivity.
Qed.

Lemma dict_remove_set_absent {V} (d : dict V) (k : str) (v : V) :
  dict_get d k = None -> dict_remove (dict_set d k v) k = d.
Proof.
  induction d as [|[k0 v0] d IH]; simpl.
  - rewrite str_eqb_refl. reflexivity.
  - destruct (str_eqb k0 k) eqn:E; [discriminate|]. intro H. simpl.
    rewrite E, (IH H). reflexivity.
Qed.

Lemma dict_remove_set_set {V} (d : dict V) (k k' : str) (v v' : V) :
  dict_get d k = None -> k <> k' ->
  dict_remove (dict_set (dict_set d k v) k' v') k = dict_set d k' v'.
Proof.
  intros Hd Hne. apply str_eqb_neq in Hne.
  induction d as [|[k0 v0] d IH]; simpl in *.
  - rewrite Hne. simpl. rewrite str_eqb_refl. reflexivity.
  - destruct (str_eqb k0 k) eqn:E; [discriminate|]. simpl.
    destruct (str_eqb k0 k') eqn:E'; simpl; rewrite E.
    + rewrite (dict_remove_set_absent d k v Hd). reflexivity.
    + rewrite (IH Hd). reflexivity.
Qed.

Lemma csv_writer_some (delim : str) (writerow : list str -> str) :
  csv_writer delim = Some writerow ->
  writerow = csv_writerow delim /\ exists d, delim = [d].
Proof.
  unfold csv_writer. destruct delim as [|d [|d' r]]; try discriminate.
  intros [= <-]. split; [reflexivity | exists d; reflexivity].
Qed.

(** X9.  [validate_icsv] answers [True] only after a complete run: the
    file was read, its metadata passed [check_metadata], the validator
    returned a report on the table written to the temporary file with
    the schema built from the FIELDS block, and that report is valid.
    The run then wrote the metadata report saying all is well, read the
    data rows (from the input as it is after that write) with the
    declared delimiter, wrote the temporary file,
    wrote the summary [Data validation [OK]] to the report path it
    returns, and removed the temporary file, in this order. *)
Theorem validate_icsv_true_only_if (fs : dict str) (infile : str)
        (out_report : option str) (p : str) (fs' : dict str)
        (log : list event) :
  validate_icsv fs infile out_report = Some (true, p, fs', log) ->
  exists content metadata fields_meta content1 header data_rows rep,
    dict_get fs infile = Some content
    /\ parse_icsv_metadata content = Some (metadata, fields_meta)
    /\ check_metadata metadata fields_meta = []
    /\ dict_get (dict_set fs (metadata_report_path infile)
                          ("OK: Metadata checks passed." ++ [NL]))
                infile
       = Some content1
    /\ _read_data_rows content1 (delimiter_of metadata)
       = Some (header, data_rows)
    /\ frictionless_validate
         (validation_table (delimiter_of metadata) fields_meta header
            data_rows)
         (build_schema_from_metadata fields_meta)
       = inl rep
    /\ report_valid rep = true
    /\ p = data_report_path infile out_report
    /\ log = [EvWrite (metadata_report_path infile)
                      ("OK: Metadata checks passed." ++ [NL]);
              EvReadDataRows infile (delimiter_of metadata);
              EvBuildSchema;
              EvWrite tmp_name
                      (validation_table (delimiter_of metadata) fields_meta
                         header data_rows);
              EvValidate tmp_name;
              EvWrite p "Data validation [OK]";
              EvRemove tmp_name].
Proof.
  unfold validate_icsv.
  destruct (dict_get fs infile) as [content|] eqn:Ec; [|discriminate].
  destruct (parse_icsv_metadata content) as [[metadata fields_meta]|] eqn:Ep;
    [|discriminate].
  cbv zeta.
  destruct (check_metadata metadata fields_meta) as [|e0 es] eqn:Em;
    cbn [is_nil negb]; [|discriminate].
  destruct (dict_get (dict_set _ _ _) infile) as [content1|] eqn:E1;
    [|discriminate].
  fold (delimiter_of metadata).
  destruct (_read_data_rows content1 _) as [[header data_rows]|] eqn:Er;
    [|discriminate].
  destruct (csv_writer (delimiter_of metadata)) as [writerow|] eqn:Ew;
    [|discriminate].
  apply csv_writer_some in Ew as [-> _].
  fold (validation_table (delimiter_of metadata) fields_meta header data_rows).
  destruct (frictionless_validate _ _) as [rep|msg] eqn:Ev; [|discriminate].
  intros [= Hv <- <- <-].
  exists content, metadata, fields_meta, content1, header, data_rows, rep.
  unfold _format_report. rewrite Hv.
  repeat (split; [first [reflexivity | assumption]|]). reflexivity.
Qed.

(** X10.  What [validate_icsv] leaves behind.  When the name of the
    temporary file is fresh (no file of that name exists, and it is
    neither of the two report paths), every run that returns leaves the
    file system as it was, plus the metadata report and the data report:
    the temporary file is gone.  The path returned is the data report
    path. *)
Theorem validate_icsv_leaves_reports (fs : dict str) (infile : str)
        (out_report : option str) (b : bool) (p : str) (fs' : dict str)
        (log : list event) :
  dict_get fs tmp_name = None ->
  tmp_name <> metadata_report_path infile ->
  tmp_name <> data_report_path infile out_report ->
  validate_icsv fs infile out_report = Some (b, p, fs', log) ->
  p = data_report_path infile out_report
  /\ exists meta_text report_text,
      fs' = dict_set (dict_set fs (metadata_report_path infile) meta_text)
                     p report_text
      /\ dict_get fs' p = Some report_text
      /\ dict_get fs' tmp_name = None.
Proof.
  intros Hfresh Hm Hd. unfold validate_icsv.
  destruct (dict_get fs infile) as [content|] eqn:Ec; [|discriminate].
  destruct (parse_icsv_metadata content) as [[metadata fields_meta]|] eqn:Ep;
    [|discriminate].
  cbv zeta.
  assert (Hfresh1 : forall t,
             dict_get (dict_set fs (metadata_report_path infile) t) tmp_name
             = None).
  { intro t. rewrite dict_get_set_other by congruence. exact Hfresh. }
  assert (Hfinal : forall t r,
             dict_get (dict_set (dict_set fs (metadata_report_path infile) t)
                                (data_report_path infile out_report) r)
                      tmp_name = None).
  { intros t r. rewrite dict_get_set_other by congruence. apply Hfresh1. }
  destruct (check_metadata metadata fields_meta) as [|e0 es] eqn:Em;
    cbn [is_nil negb].
  - destruct (dict_get (dict_set _ _ _) infile) as [content1|] eqn:E1;
    [|discriminate].
    destruct (_read_data_rows content1 _) as [[header data_rows]|] eqn:Er;
      [|discriminate].
    destruct (csv_writer _) as [writerow|]; [|discriminate].
    destruct (frictionless_validate _ _) as [rep|msg] eqn:Ev;
      intros [= <- <- <- <-]; (split; [reflexivity|]);
      rewrite (dict_remove_set_set _ _ _ _ _ (Hfresh1 _) Hd);
      do 2 eexists; (split; [reflexivity|]);
      (split; [apply dict_get_set_same | apply Hfinal]).
  - intros [= <- <- <- <-]. split; [reflexivity|].
    do 2 eexists. split; [reflexivity|].
    split; [apply dict_get_set_same | apply Hfinal].
Qed.

Lemma read_data_rows_of_ok_report (delim : str) :
  _read_data_rows ("OK: Metadata checks passed." ++ [NL]) delim
  = Some ([], []).
Proof. reflexivity. Qed.

(** X11.  A path without [.icsv].  The two report paths are made by
    replacing [.icsv] in the path of the input; when the path does not
    contain [.icsv] and no report path is given, both are the path of
    the input itself.  With metadata errors, the metadata report is
    written over the input and the abort notice over the metadata
    report.  Without metadata errors, the line saying all is well is
    written over the input before the data rows are read from it, so no
    data line is left.  When the declared delimiter is one character,
    the table handed to the validator has the names of the FIELDS block
    as its only row, and the data report is written over the input as
    well; when it is not, the csv writer refuses it and the run ends
    with an exception. *)
Theorem validate_icsv_without_icsv_in_path (fs : dict str) (infile : str)
        (content : str) (metadata : dict str)
        (fields_meta : dict (list str)) :
  contains ".icsv" infile = false ->
  dict_get fs infile = Some content ->
  parse_icsv_metadata content = Some (metadata, fields_meta) ->
  metadata_report_path infile = infile
  /\ data_report_path infile None = infile
  /\ (check_metadata metadata fields_meta <> [] ->
      let meta_text :=
        metadata_report_text (check_metadata metadata fields_meta) in
      validate_icsv fs infile None
      = Some (false, infile,
              dict_set (dict_set fs infile meta_text) infile abort_notice,
              [EvWrite infile meta_text; EvWrite infile abort_notice]))
  /\ (check_metadata metadata fields_meta = [] ->
      _read_data_rows ("OK: Metadata checks passed." ++ [NL])
                      (delimiter_of metadata)
      = Some ([], [])
      /\ match delimiter_of metadata with
         | [_] =>
             exists b fs' report_text,
               validate_icsv fs infile None
               = Some (b, infile, fs',
                       [EvWrite infile ("OK: Metadata checks passed." ++ [NL]);
                        EvReadDataRows infile (delimiter_of metadata);
                        EvBuildSchema;
                        EvWrite tmp_name
                                (validation_table (delimiter_of metadata)
                                   fields_meta [] []);
                        EvValidate tmp_name;
                        EvWrite infile report_text;
                        EvRemove tmp_name])
         | _ => validate_icsv fs infile None = None
         end).
Proof.
  intros Hc Hfs Hp.
  assert (Hm : metadata_report_path infile = infile)
    by apply (py_replace_absent _ _ _ Hc).
  assert (Hd : data_report_path infile None = infile)
    by apply (py_replace_absent _ _ _ Hc).
  split; [exact Hm|]. split; [exact Hd|]. split.
  - intros Hne meta_text. unfold validate_icsv. rewrite Hfs, Hp. cbv zeta.
    rewrite Hm, Hd. fold meta_text.
    destruct (check_metadata metadata fields_meta) as [|e0 es];
      [congruence|]. reflexivity.
  - intro He. split; [apply read_data_rows_of_ok_report|].
    unfold validate_icsv. rewrite Hfs, Hp. cbv zeta.
    rewrite Hm, Hd, He. cbn [is_nil negb metadata_report_text].
    rewrite dict_get_set_same.
    fold (delimiter_of metadata).
    rewrite read_data_rows_of_ok_report.
    unfold csv_writer, validation_table.
    destruct (delimiter_of metadata) as [|d [|d' r]];
      [reflexivity | | reflexivity].
    destruct (frictionless_validate _ _) as [rep|msg];
      do 3 eexists; reflexivity.
Qed.

(** ** Splitting what was joined *)

Lemma cell_ok_count (d : ascii) (x : str) :
  cell_ok d x = true -> count_char d x = 0.
Proof.
  induction x as [|c x IH]; [reflexivity|].
  simpl. intro H. apply andb_true_iff in H as [Hc Hx].
  apply andb_true_iff in Hc as [Hc _]. apply negb_true_iff in Hc.
  rewrite Hc, (IH Hx). reflexivity.
Qed.

Lemma count_char_cons_zero (d c : ascii) (x : str) :
  count_char d (c :: x) = 0 -> Ascii.eqb d c = false /\ count_char d x = 0.
Proof.
  cbn [count_char]. rewrite (Ascii.eqb_sym c d).
  destruct (Ascii.eqb d c); [discriminate | auto].
Qed.

Lemma split_go_char_nonempty (d : ascii) (s : str) :
  exists h t, split_go [d] 0 s = h :: t.
Proof.
  pose proof (split_go_char_length d s) as H.
  destruct (split_go [d] 0 s) as [|h t]; [discriminate | eauto].
Qed.

Lemma split_char_absent (d : ascii) (x : str) :
  count_char d x = 0 -> split_go [d] 0 x = [x].
Proof.
  induction x as [|c x IH]; intro H; [reflexivity|].
  apply count_char_cons_zero in H as [Hc Hx].
  rewrite split_go_char_cons, Hc, (IH Hx). reflexivity.
Qed.

Lemma split_char_app (d : ascii) (x rest : str) :
  count_char d x = 0 ->
  split_go [d] 0 (x ++ d :: rest) = x :: split_go [d] 0 rest.
Proof.
  induction x as [|c x IH]; intro H.
  - cbn [List.app]. rewrite split_go_char_cons, Ascii.eqb_refl. reflexivity.
  - apply count_char_cons_zero in H as [Hc Hx].
    rewrite <- app_comm_cons, split_go_char_cons, Hc, (IH Hx). reflexivity.
Qed.

(** [d.join(cells).split(d)] gives the cells back when none holds [d]. *)
Lemma split_join_char (d : ascii) (cells : list str) :
  cells <> [] -> Forall (fun x => count_char d x = 0) cells ->
  split_go [d] 0 (join [d] cells) = cells.
Proof.
  intros Hne H. induction H as [|x l Hx Hl IH]; [congruence|].
  destruct l as [|y l]; [apply split_char_absent, Hx|].
  change (join [d] (x :: y :: l)) with (x ++ d :: join [d] (y :: l)).
  rewrite (split_char_app d x _ Hx), IH by discriminate. reflexivity.
Qed.

Lemma rstrip_by_nil_all (p : ascii -> bool) (s : str) :
  rstrip_by p s = [] -> forallb p s = true.
Proof.
  induction s as [|c s IH]; [reflexivity|].
  cbn [rstrip_by forallb]. destruct (rstrip_by p s) as [|r rs].
  - destruct (p c); [intros _; apply IH; reflexivity | discriminate].
  - discriminate.
Qed.

Lemma count_char_all (p : ascii -> bool) (d : ascii) (s : str) :
  p d = false -> forallb p s = true -> count_char d s = 0.
Proof.
  intros Hd. induction s as [|c s IH]; [reflexivity|].
  cbn [forallb count_char]. intro H. apply andb_true_iff in H as [Hc Hs].
  rewrite (IH Hs). destruct (Ascii.eqb_spec c d) as [->|]; [congruence|].
  reflexivity.
Qed.

(** Stripping the whole string before the split changes nothing once
    every piece is stripped. *)
Lemma split_lstrip (p : ascii -> bool) (d : ascii) (s : str) :
  p d = false ->
  map (lstrip_by p) (split_go [d] 0 (lstrip_by p s))
  = map (lstrip_by p) (split_go [d] 0 s).
Proof.
  intro Hd. induction s as [|c s IH]; [reflexivity|].
  cbn [lstrip_by]. destruct (p c) eqn:Ec; [|reflexivity].
  rewrite IH, split_go_char_cons.
  assert (Hdc : Ascii.eqb d c = false).
  { destruct (Ascii.eqb_spec d c) as [->|]; [congruence | reflexivity]. }
  rewrite Hdc. destruct (split_go_char_nonempty d s) as [h [t ->]].
  cbn [map lstrip_by]. rewrite Ec. reflexivity.
Qed.

Lemma rstrip_by_cons_eq (p : ascii -> bool) (c : ascii) (x y : str) :
  rstrip_by p x = rstrip_by p y ->
  rstrip_by p (c :: x) = rstrip_by p (c :: y).
Proof. intro H. cbn [rstrip_by]. rewrite H. reflexivity. Qed.

Lemma split_rstrip (p : ascii -> bool) (d : ascii) (s : str) :
  p d = false ->
  map (rstrip_by p) (split_go [d] 0 (rstrip_by p s))
  = map (rstrip_by p) (split_go [d] 0 s).
Proof.
  intro Hd. induction s as [|c s IH]; [reflexivity|].
  rewrite (split_go_char_cons d c s).
  destruct (rstrip_by p s) as [|r rs] eqn:E.
  - (* the tail is stripped away entirely *)
    pose proof (rstrip_by_nil_all p s E) as Hall.
    pose proof (count_char_all p d s Hd Hall) as Hcount.
    rewrite (split_char_absent d s Hcount).
    cbn [rstrip_by]. rewrite E. cbv iota.
    destruct (p c) eqn:Ec.
    + assert (Hdc : Ascii.eqb d c = false).
      { destruct (Ascii.eqb_spec d c) as [->|]; [congruence | reflexivity]. }
      rewrite Hdc. cbn [split_go map rstrip_by]. rewrite E, Ec. reflexivity.
    + rewrite (split_go_char_cons d c []).
      destruct (Ascii.eqb d c).
      * cbn [split_go map rstrip_by]. rewrite E. reflexivity.
      * cbn [split_go map rstrip_by]. rewrite E, Ec. reflexivity.
  - cbn [rstrip_by]. rewrite E. cbv iota.
    rewrite (split_go_char_cons d c (r :: rs)).
    destruct (Ascii.eqb d c).
    + cbn [map]. rewrite IH. reflexivity.
    + destruct (split_go_char_nonempty d (r :: rs)) as [h' [t' E']].
      destruct (split_go_char_nonempty d s) as [h [t E'']].
      rewrite E' in IH |- *. rewrite E'' in IH |- *.
      cbn [map] in IH |- *. injection IH as Hh Ht.
      rewrite Ht, (rstrip_by_cons_eq p c h' h Hh). reflexivity.
Qed.

Lemma map_strip_split (d : ascii) (s : str) :
  is_space d = false ->
  map strip (split_go [d] 0 (strip s)) = map strip (split_go [d] 0 s).
Proof.
  intro Hd.
  assert (Hstrip : forall l,
             map strip l
             = map (lstrip_by is_space) (map (rstrip_by is_space) l)).
  { intro l. rewrite map_map. apply map_ext. intro x. unfold strip.
    apply strip_rstrip_comm. }
  assert (Hstrip' : forall l,
             map strip l
             = map (rstrip_by is_space) (map (lstrip_by is_space) l)).
  { intro l. rewrite map_map. reflexivity. }
  unfold strip at 2.
  rewrite Hstrip, (split_rstrip is_space d _ Hd), <- Hstrip.
  rewrite Hstrip', (split_lstrip is_space d _ Hd), <- Hstrip'.
  reflexivity.
Qed.

Lemma sum_counts_Forall (d : ascii) (l : list str) :
  Forall (fun x => count_char d x = 0) l -> sum_counts d l = 0.
Proof.
  induction 1 as [|x l Hx _ IH]; [reflexivity|].
  cbn [sum_counts fold_right]. fold (sum_counts d l). rewrite Hx, IH.
  reflexivity.
Qed.

Lemma Forall_count_strip (d : ascii) (l : list str) :
  is_space d = false ->
  Forall (fun x => count_char d x = 0) l ->
  Forall (fun x => count_char d x = 0) (map strip l).
Proof.
  intros Hd H. apply Forall_map. revert H. apply Forall_impl.
  intros x Hx. rewrite count_char_strip; assumption.
Qed.

(** The two passes of the parser on a FIELDS value give the cells back,
    stripped, when no cell holds the delimiter or [|]. *)
Lemma resplit_exact (d : ascii) (cells : list str) :
  is_space d = false -> cells <> [] ->
  Forall (fun x => count_char d x = 0) cells ->
  Forall (fun x => count_char "|" x = 0) cells ->
  map strip
      (split_go [d] 0
         (join "|" (map strip (split_pipe (strip (join [d] cells))))))
  = map strip cells.
Proof.
  intros Hd Hne Hcd Hcp. unfold split_pipe.
  assert (Hne' : map strip cells <> [])
    by (destruct cells; [congruence | discriminate]).
  destruct (Ascii.eqb_spec d "|") as [->|Hdp].
  - rewrite (map_strip_split "|" _ eq_refl).
    rewrite (split_join_char "|" cells Hne Hcp).
    rewrite (split_join_char "|" (map strip cells) Hne'
               (Forall_count_strip "|" cells eq_refl Hcp)).
    apply map_strip_idem.
  - assert (Hpipe : count_char "|" (strip (join [d] cells)) = 0).
    { rewrite count_char_strip by reflexivity.
      rewrite count_char_join, (sum_counts_Forall "|" cells Hcp).
      cbn [count_char]. apply Ascii.eqb_neq in Hdp. rewrite Hdp.
      cbn. lia. }
    rewrite (split_char_absent "|" _ Hpipe).
    cbn [map join]. rewrite strip_idem.
    rewrite (map_strip_split d _ Hd).
    rewrite (split_join_char d cells Hne Hcd). reflexivity.
Qed.

(** ** Lists with their positions *)

Lemma nth_error_combine_seq {A} (l : list A) (k n : nat) :
  nth_error (combine (seq k (length l)) l) n
  = option_map (pair (k + n)) (nth_error l n).
Proof.
  revert k n. induction l as [|x l IH]; intros k n.
  - destruct n; reflexivity.
  - destruct n as [|n]; cbn [length seq combine nth_error option_map].
    + rewrite Nat.add_0_r. reflexivity.
    + rewrite IH, Nat.add_succ_r. reflexivity.
Qed.

Lemma nth_error_enumerate {A} (l : list A) (n : nat) :
  nth_error (enumerate l) n = option_map (pair n) (nth_error l n).
Proof. apply (nth_error_combine_seq l 0 n). Qed.

Lemma map_snd_enumerate {A} (l : list A) : map snd (enumerate l) = l.
Proof.
  apply nth_error_ext. intro n.
  rewrite nth_error_map, nth_error_enumerate.
  destruct (nth_error l n); reflexivity.
Qed.

Lemma Forall2_map_eq {A B C} (f : A -> C) (g : B -> C) (l : list A)
      (ys : list B) :
  Forall2 (fun x y => g y = f x) l ys -> map g ys = map f l.
Proof. induction 1; simpl; congruence. Qed.

Lemma strip_coltype_name (t : coltype) :
  strip (coltype_name t) = coltype_name t.
Proof. destruct t; reflexivity. Qed.

Lemma Forall_strip_fixed (l : list str) :
  Forall (fun h => strip h = h) l -> map strip l = l.
Proof. induction 1; simpl; congruence. Qed.

(** ** A produced file read back exactly *)

Lemma column_profile_description (name : str) (col : list str)
      (info : col_info) :
  column_profile name col = Some info -> info_description info = [].
Proof.
  unfold column_profile.
  destruct (infer_column_type (map strip col) ENRICHMENT_COMMON_MISSING).
  - destruct (compute_numeric_minmax _ _). intros [= <-]. reflexivity.
  - destruct (compute_numeric_minmax _ _). intros [= <-]. reflexivity.
  - destruct (compute_datetime_minmax _) as [[mn mx]|]; [|discriminate].
    intros [= <-]. reflexivity.
  - intros [= <-]. reflexivity.
Qed.

Lemma column_profiles_names (header : list str) (rows : list (list str))
      (col_infos : list col_info) :
  column_profiles header rows = Some col_infos ->
  map info_name col_infos = header
  /\ Forall (fun info => info_description info = []) col_infos.
Proof.
  unfold column_profiles. intro H. apply map_opt_Forall2 in H. split.
  - rewrite <- (map_snd_enumerate header) at 1.
    apply Forall2_map_eq. revert H. apply Forall2_impl.
    intros [i name] info Hinfo.
    apply column_profile_name_type in Hinfo as [Hn _]. exact Hn.
  - induction H as [|[i name] info l l' Hinfo _ IH]; constructor; auto.
    apply (column_profile_description _ _ _ Hinfo).
Qed.

Lemma cells_free (d : ascii) (table : list (str * list str))
      (kv : str * list str) :
  forallb (fun kv => forallb (cell_ok d) (snd kv)) table = true ->
  In kv table -> Forall (fun x => count_char d x = 0) (snd kv).
Proof.
  intros H Hin. rewrite forallb_forall in H. specialize (H kv Hin).
  rewrite forallb_forall in H. apply Forall_forall. intros x Hx.
  apply cell_ok_count, H, Hx.
Qed.

Lemma produced_icsv_parsed_exact (content : str)
      (user_delimiter nodata_override application_profile : option str)
      (e : enrichment) (d : ascii) :
  enrich content user_delimiter nodata_override application_profile = Some e ->
  e_icsv_delim e = [d] ->
  plain_blocks d application_profile e = true ->
  forallb (fun kv => forallb (cell_ok "|") (snd kv))
          (fields_table (e_header e) (e_col_infos e)) = true ->
  exists text,
    make_icsv_from_csv content user_delimiter nodata_override
                       application_profile
    = Some (text, e_schema e)
    /\ parse_icsv_metadata text
       = Some (map (fun kv => (fst kv, strip (snd kv)))
                   (metadata_table [d] (e_header e) (e_row_count e)
                      (Some (e_nodata_value e))
                      (fst (detect_geometry_hint (e_header e)))
                      (snd (detect_geometry_hint (e_header e)))
                      application_profile),
               map (fun kv => (fst kv, map strip (snd kv)))
                   (fields_table (e_header e) (e_col_infos e))).
Proof.
  intros He Hdel Hplain Hpipe.
  destruct (produced_icsv_parsed _ _ _ _ _ _ He Hdel Hplain)
    as [text [Hmake Hparse]].
  destruct (plain_blocks_inv d application_profile e Hplain)
    as [Hd [Hne [_ [_ [_ [_ Hcells]]]]]].
  pose proof (enrich_inv _ _ _ _ _ He) as [_ [_ [Hprof _]]].
  apply column_profiles_length in Hprof.
  pose proof (fields_table_lengths (e_header e) (e_col_infos e) Hprof) as Hl.
  rewrite Forall_forall in Hl.
  exists text. split; [exact Hmake|]. rewrite Hparse. do 2 f_equal.
  apply map_ext_in. intros kv Hkv. f_equal.
  apply resplit_exact.
  - exact Hd.
  - apply (nonempty_of_length (e_header e)); [apply Hl, Hkv | exact Hne].
  - apply (cells_free d _ kv Hcells Hkv).
  - apply (cells_free "|" _ kv Hpipe Hkv).
Qed.

Lemma fields_table_stripped (header : list str) (col_infos : list col_info) :
  Forall (fun h => strip h = h) header ->
  Forall (fun info => info_description info = []) col_infos ->
  map (fun kv => (fst kv, map strip (snd kv))) (fields_table header col_infos)
  = [("fields", header);
     ("types", map (fun c => coltype_name (info_type c)) col_infos);
     ("min", map (fun c => strip (bound_cell (info_min c))) col_infos);
     ("max", map (fun c => strip (bound_cell (info_max c))) col_infos);
     ("missing_count",
      map (fun c => str_of_nat (info_missing_count c)) col_infos);
     ("description", map info_description col_infos)].
Proof.
  intros Hh Hd. unfold fields_table. cbn [map fst snd].
  rewrite (Forall_strip_fixed header Hh), !map_map.
  rewrite (map_ext (fun c => strip (coltype_name (info_type c)))
                   (fun c => coltype_name (info_type c)))
    by (intro c; apply strip_coltype_name).
  rewrite (map_ext (fun c => strip (str_of_nat (info_missing_count c)))
                   (fun c => str_of_nat (info_missing_count c)))
    by (intro c; apply strip_str_of_nat).
  rewrite (map_ext_in (fun c => strip (info_description c)) info_description).
  - reflexivity.
  - intros c Hc. rewrite Forall_forall in Hd. rewrite (Hd c Hc). reflexivity.
Qed.

(** X12.  A produced file read back exactly.  Under the conditions of
    [plain_blocks], and when moreover no cell of the FIELDS block holds
    [|], [parse_icsv_metadata] finds in the file written by
    [make_icsv_from_csv] the METADATA pairs in the order written, each
    value stripped, and the six lists of the FIELDS block as written:
    the header names, the type names, the least and greatest values
    (stripped), the counts of missing cells and the descriptions. *)
Theorem produced_icsv_read_back (content : str)
        (user_delimiter nodata_override application_profile : option str)
        (e : enrichment) (d : ascii) :
  enrich content user_delimiter nodata_override application_profile = Some e ->
  e_icsv_delim e = [d] ->
  plain_blocks d application_profile e = true ->
  forallb (fun kv => forallb (cell_ok "|") (snd kv))
          (fields_table (e_header e) (e_col_infos e)) = true ->
  exists text metadata fields_meta,
    make_icsv_from_csv content user_delimiter nodata_override
                       application_profile
    = Some (text, e_schema e)
    /\ parse_icsv_metadata text = Some (metadata, fields_meta)
    /\ metadata
       = map (fun kv => (fst kv, strip (snd kv)))
             (metadata_table [d] (e_header e) (e_row_count e)
                (Some (e_nodata_value e))
                (fst (detect_geometry_hint (e_header e)))
                (snd (detect_geometry_hint (e_header e)))
                application_profile)
    /\ fields_meta
       = [("fields", e_header e);
          ("types", map (fun c => coltype_name (info_type c)) (e_col_infos e));
          ("min", map (fun c => strip (bound_cell (info_min c)))
                      (e_col_infos e));
          ("max", map (fun c => strip (bound_cell (info_max c)))
                      (e_col_infos e));
          ("missing_count",
           map (fun c => str_of_nat (info_missing_count c)) (e_col_infos e));
          ("description", map info_description (e_col_infos e))].
Proof.
  intros He Hdel Hplain Hpipe.
  destruct (produced_icsv_parsed_exact _ _ _ _ _ _ He Hdel Hplain Hpipe)
    as [text [Hmake Hparse]].
  pose proof (enrich_inv _ _ _ _ _ He) as [Hload [_ [Hprof _]]].
  apply load_rows_inv in Hload as [_ Hh].
  apply column_profiles_names in Hprof as [_ Hdesc].
  exists text. do 2 eexists.
  split; [exact Hmake|]. split; [exact Hparse|]. split; [reflexivity|].
  apply fields_table_stripped; assumption.
Qed.

(** ** The schema the validator builds for a produced file *)

Lemma schema_from_metadata_field (fields_meta : dict (list str)) (n : nat) :
  nth_error (schema_fields (build_schema_from_metadata fields_meta)) n
  = option_map
      (fun name =>
         {| field_name := name;
            field_type :=
              match nth_error (dict_get_list fields_meta "types") n with
              | Some ((_ :: _) as t) => t
              | _ => "string"
              end;
            field_format := None;
            field_description :=
              match nth_error (dict_get_list fields_meta "description") n with
              | Some ((_ :: _) as d) => Some d
              | _ => None
              end;
            field_constraints :=
              make_constraints
                (bound_at (dict_get_list fields_meta "min") n)
                (bound_at (dict_get_list fields_meta "max") n) false |})
      (nth_error (dict_get_list fields_meta "fields") n).
Proof.
  unfold build_schema_from_metadata. cbn [schema_fields].
  rewrite nth_error_map, nth_error_enumerate.
  destruct (nth_error _ n); reflexivity.
Qed.

(** X13.  The two schemas of a file agree.  Under the conditions of X12,
    the schema [build_schema_from_metadata] builds from what
    [parse_icsv_metadata] reads in the produced file has the fields of
    the schema [make_icsv_from_csv] wrote next to it: as many fields, in
    the same order, with the same names, the same types and the same
    (absent) descriptions. *)
Theorem produced_icsv_schemas_agree (content : str)
        (user_delimiter nodata_override application_profile : option str)
        (e : enrichment) (d : ascii) :
  enrich content user_delimiter nodata_override application_profile = Some e ->
  e_icsv_delim e = [d] ->
  plain_blocks d application_profile e = true ->
  forallb (fun kv => forallb (cell_ok "|") (snd kv))
          (fields_table (e_header e) (e_col_infos e)) = true ->
  exists text metadata fields_meta,
    make_icsv_from_csv content user_delimiter nodata_override
                       application_profile
    = Some (text, e_schema e)
    /\ parse_icsv_metadata text = Some (metadata, fields_meta)
    /\ map (fun f => (field_name f, field_type f, field_description f))
           (schema_fields (build_schema_from_metadata fields_meta))
       = map (fun f => (field_name f, field_type f, field_description f))
             (schema_fields (e_schema e)).
Proof.
  intros He Hdel Hplain Hpipe.
  destruct (produced_icsv_parsed_exact _ _ _ _ _ _ He Hdel Hplain Hpipe)
    as [text [Hmake Hparse]].
  pose proof (enrich_inv _ _ _ _ _ He) as [Hload [_ [Hprof _]]].
  apply load_rows_inv in Hload as [_ Hh].
  apply column_profiles_names in Hprof as [Hnames Hdesc].
  rewrite (fields_table_stripped _ _ Hh Hdesc) in Hparse.
  exists text. do 2 eexists.
  split; [exact Hmake|]. split; [exact Hparse|].
  rewrite (enrich_schema _ _ _ _ _ He).
  unfold build_frictionless_schema. cbn [schema_fields].
  apply nth_error_ext. intro n.
  rewrite !nth_error_map, schema_from_metadata_field.
  change (dict_get_list _ "fields") with (e_header e).
  change (dict_get_list _ "types")
    with (map (fun c => coltype_name (info_type c)) (e_col_infos e)).
  change (dict_get_list _ "description")
    with (map info_description (e_col_infos e)).
  rewrite <- Hnames at 1. rewrite !nth_error_map.
  destruct (nth_error (e_col_infos e) n) as [info|] eqn:En;
    [|reflexivity].
  cbn [option_map field_name field_type field_description].
  assert (Hd : info_description info = []).
  { rewrite Forall_forall in Hdesc. apply Hdesc.
    apply (nth_error_In _ _ En). }
  rewrite Hd. destruct (info_type info); reflexivity.
Qed.

(** ** The rows [_read_data_rows] reads *)

Lemma read_data_loop_before (delimiter : str) (lines : list str)
      (header : list str) (rows : list (list str)) :
  read_data_loop delimiter lines false header rows
  = read_data_loop delimiter (data_section lines) true header rows.
Proof.
  induction lines as [|raw rest IH]; [reflexivity|].
  cbn [read_data_loop data_section]. cbv zeta. unfold is_data_marker.
  destruct (str_eqb (strip (rstrip_nl raw)) "# [DATA]"); [reflexivity|].
  cbn [negb]. exact IH.
Qed.

Lemma marker_is_comment (line : str) :
  str_eqb line "# [DATA]" = true -> startswith line "#" = true.
Proof. intro H. apply str_eqb_eq in H. subst line. reflexivity. Qed.

Lemma read_data_loop_filter (delimiter : str) (lines : list str)
      (header : list str) (rows : list (list str)) :
  read_data_loop delimiter lines true header rows
  = read_data_loop delimiter (filter data_line lines) true header rows.
Proof.
  revert header rows. induction lines as [|raw rest IH]; intros header rows;
    [reflexivity|].
  cbn [filter]. unfold data_line at 1. cbv zeta.
  cbn [read_data_loop]. cbv zeta. cbn [negb].
  destruct (str_eqb (strip (rstrip_nl raw)) "# [DATA]") eqn:Em.
  - rewrite (marker_is_comment _ Em). cbn [negb andb]. apply IH.
  - destruct (startswith (strip (rstrip_nl raw)) "#") eqn:Ec.
    + cbn [negb andb]. apply IH.
    + destruct (str_eqb (strip (rstrip_nl raw)) "") eqn:Eb.
      * cbn [negb andb]. apply IH.
      * cbn [negb andb read_data_loop]. cbv zeta. rewrite Em, Ec, Eb.
        cbn [negb].
        destruct (csv_reader delimiter (rstrip_nl raw)) as [[|parts ps]|];
          try reflexivity.
        destruct (is_nil header); apply IH.
Qed.

Lemma read_data_loop_rows (delimiter : str) (lines : list str)
      (header : list str) (rows : list (list str)) :
  header <> [] -> forallb data_line lines = true ->
  read_data_loop delimiter lines true header rows
  = option_map (fun more => (header, rows ++ more))
               (map_opt (line_cells delimiter) lines).
Proof.
  intro Hh. apply is_nil_false in Hh.
  revert rows. induction lines as [|raw rest IH]; intros rows H.
  - cbn. rewrite app_nil_r. reflexivity.
  - cbn [forallb] in H. apply andb_true_iff in H as [Hraw Hrest].
    unfold data_line in Hraw. cbv zeta in Hraw.
    apply andb_true_iff in Hraw as [Hc Hb].
    apply negb_true_iff in Hc, Hb.
    assert (Hm : str_eqb (strip (rstrip_nl raw)) "# [DATA]" = false).
    { destruct (str_eqb _ "# [DATA]") eqn:Em; [|reflexivity].
      rewrite (marker_is_comment _ Em) in Hc. discriminate. }
    cbn [read_data_loop map_opt]. cbv zeta. rewrite Hm, Hc, Hb. cbn [negb].
    unfold line_cells at 1.
    destruct (csv_reader delimiter (rstrip_nl raw)) as [[|parts ps]|];
      try reflexivity.
    rewrite Hh, (IH _ Hrest).
    destruct (map_opt (line_cells delimiter) rest) as [more|];
      [|reflexivity].
    cbn [option_map]. rewrite <- app_assoc. reflexivity.
Qed.

(** X14.  What [_read_data_rows] hands to the csv reader.  Nothing
    before the first [# [DATA]] line is read as data; after it, lines
    that are blank or start with [#] once stripped (further marker lines
    among them) are dropped, so a file without the marker yields no
    header and no rows.  Of the lines that remain, when the reader finds
    at least one cell in the first, its cells, stripped, are the header
    and the cells of each following line are one row, as the reader
    gives them; the call raises when the reader does on one of them. *)
Theorem read_data_rows_lines (content delimiter : str) :
  _read_data_rows content delimiter
  = read_data_loop delimiter
      (filter data_line (data_section (file_lines content))) true [] []
  /\ (filter data_line (data_section (file_lines content)) = [] ->
      _read_data_rows content delimiter = Some ([], []))
  /\ (forall raw rest parts,
         filter data_line (data_section (file_lines content)) = raw :: rest ->
         line_cells delimiter raw = Some parts -> parts <> [] ->
         _read_data_rows content delimiter
         = option_map (fun rows => (map strip parts, rows))
                      (map_opt (line_cells delimiter) rest)).
Proof.
  assert (E : _read_data_rows content delimiter
              = read_data_loop delimiter
                  (filter data_line (data_section (file_lines content)))
                  true [] []).
  { unfold _read_data_rows.
    rewrite read_data_loop_before. apply read_data_loop_filter. }
  split; [exact E|]. split.
  - intro H. rewrite E, H. reflexivity.
  - intros raw rest parts H Hcells Hparts. rewrite E, H.
    assert (Hall : forallb data_line (raw :: rest) = true).
    { rewrite <- H. apply forallb_forall. intros x Hx.
      apply filter_In in Hx as [_ Hx]. exact Hx. }
    cbn [forallb] in Hall. apply andb_true_iff in Hall as [Hraw Hrest].
    unfold data_line in Hraw. cbv zeta in Hraw.
    apply andb_true_iff in Hraw as [Hc Hb].
    apply negb_true_iff in Hc, Hb.
    assert (Hm : str_eqb (strip (rstrip_nl raw)) "# [DATA]" = false).
    { destruct (str_eqb _ "# [DATA]") eqn:Em; [|reflexivity].
      rewrite (marker_is_comment _ Em) in Hc. discriminate. }
    cbn [read_data_loop]. cbv zeta. rewrite Hm, Hc, Hb. cbn [negb].
    unfold line_cells in Hcells.
    destruct (csv_reader delimiter (rstrip_nl raw)) as [[|p ps]|];
      try discriminate.
    injection Hcells as ->. cbn [is_nil].
    rewrite read_data_loop_rows.
    + reflexivity.
    + destruct parts; [congruence | discriminate].
    + exact Hrest.
Qed.

(** X15.  The schema [build_schema_from_metadata] builds.  It has one
    field for each name of the [fields] list, in order and under that
    name (none when the list is absent).  No field has a format and no
    field is required.  Without a [types] list every field has the type
    [string]; without a [min] and without a [max] list no field has
    constraints. *)
Theorem build_schema_from_metadata_defaults (fields_meta : dict (list str)) :
  let fields := schema_fields (build_schema_from_metadata fields_meta) in
  map field_name fields = dict_get_list fields_meta "fields"
  /\ Forall (fun f =>
               field_format f = None
               /\ forall c, field_constraints f = Some c -> required c = false)
            fields
  /\ (dict_get fields_meta "types" = None ->
      Forall (fun f => field_type f = "string") fields)
  /\ (dict_get fields_meta "min" = None ->
      dict_get fields_meta "max" = None ->
      Forall (fun f => field_constraints f = None) fields).
Proof.
  intro fields. subst fields.
  assert (Hin : forall f,
             In f (schema_fields (build_schema_from_metadata fields_meta)) ->
             exists n name,
               nth_error (dict_get_list fields_meta "fields") n = Some name
               /\ f = {| field_name := name;
                         field_type :=
                           match nth_error (dict_get_list fields_meta "types")
                                           n with
                           | Some ((_ :: _) as t) => t
                           | _ => "string"
                           end;
                         field_format := None;
                         field_description :=
                           match nth_error
                                   (dict_get_list fields_meta "description")
                                   n with
                           | Some ((_ :: _) as d) => Some d
                           | _ => None
                           end;
                         field_constraints :=
                           make_constraints
                             (bound_at (dict_get_list fields_meta "min") n)
                             (bound_at (dict_get_list fields_meta "max") n)
                             false |}).
  { intros f Hf. apply In_nth_error in Hf as [n Hn].
    rewrite schema_from_metadata_field in Hn.
    destruct (nth_error (dict_get_list fields_meta "fields") n) as [name|]
      eqn:E; [|discriminate].
    injection Hn as <-. exists n, name. split; [exact E | reflexivity]. }
  split; [|split; [|split]].
  - apply nth_error_ext. intro n.
    rewrite nth_error_map, schema_from_metadata_field.
    destruct (nth_error (dict_get_list fields_meta "fields") n); reflexivity.
  - apply Forall_forall. intros f Hf.
    destruct (Hin f Hf) as [n [name [_ ->]]].
    split; [reflexivity|]. cbn [field_constraints]. intros c.
    unfold make_constraints.
    destruct (bound_at _ n), (bound_at _ n); intro H;
      try discriminate H; injection H as <-; reflexivity.
  - intro Ht. apply Forall_forall. intros f Hf.
    destruct (Hin f Hf) as [n [name [_ ->]]]. cbn [field_type].
    unfold dict_get_list. rewrite Ht. destruct n; reflexivity.
  - intros Hmin Hmax. apply Forall_forall. intros f Hf.
    destruct (Hin f Hf) as [n [name [_ ->]]]. cbn [field_constraints].
    unfold bound_at, dict_get_list. rewrite Hmin, Hmax.
    destruct n; reflexivity.
Qed.

(** ** Lines of a text cut after a line break *)

Lemma translate_newlines_nl (n : nat) (x b : str) :
  length x <= n ->
  translate_newlines (x ++ NL :: b)
  = translate_newlines (x ++ [NL]) ++ translate_newlines b
  /\ exists t, translate_newlines (x ++ [NL]) = t ++ [NL].
Proof.
  revert x. induction n as [|n IH]; intros x Hx.
  - destruct x as [|c x]; [|simpl in Hx; lia].
    split; [reflexivity | exists []; reflexivity].
  - destruct x as [|c x].
    + split; [reflexivity | exists []; reflexivity].
    + simpl in Hx. rewrite <- !app_comm_cons. cbn [translate_newlines].
      destruct (Ascii.eqb c CR).
      * destruct x as [|d x].
        -- split; [reflexivity | exists []; reflexivity].
        -- rewrite <- !app_comm_cons. simpl in Hx.
           destruct (Ascii.eqb d NL).
           ++ destruct (IH x ltac:(lia)) as [E [t Et]].
              rewrite E. split; [reflexivity|].
              exists (NL :: t). rewrite Et. reflexivity.
           ++ destruct (IH (d :: x) ltac:(simpl; lia)) as [E [t Et]].
              rewrite <- !app_comm_cons in E, Et. rewrite E.
              split; [reflexivity|].
              exists (NL :: t). rewrite Et. reflexivity.
      * destruct (IH x ltac:(lia)) as [E [t Et]].
        rewrite E. split; [reflexivity|].
        exists (c :: t). rewrite Et. reflexivity.
Qed.

Lemma raw_lines_nonempty (c : ascii) (s : str) : raw_lines (c :: s) <> [].
Proof.
  cbn [raw_lines]. destruct (Ascii.eqb c NL); [discriminate|].
  destruct (raw_lines s); discriminate.
Qed.

Lemma raw_lines_app_nl (y z : str) :
  raw_lines (y ++ NL :: z) = raw_lines (y ++ [NL]) ++ raw_lines z.
Proof.
  induction y as [|c y IH]; [reflexivity|].
  rewrite <- !app_comm_cons. cbn [raw_lines].
  destruct (Ascii.eqb c NL).
  - rewrite IH. reflexivity.
  - rewrite IH.
    destruct (raw_lines (y ++ [NL])) as [|l ls] eqn:E; [|reflexivity].
    exfalso.
    assert (Hy : exists c' s', y ++ [NL] = c' :: s')
      by (destruct y; simpl; eauto).
    destruct Hy as [c' [s' Hy]]. rewrite Hy in E.
    exact (raw_lines_nonempty _ _ E).
Qed.

Lemma file_lines_app_nl (x b : str) :
  file_lines (x ++ NL :: b) = file_lines (x ++ [NL]) ++ file_lines b.
Proof.
  unfold file_lines.
  destruct (translate_newlines_nl (length x) x b (le_n _)) as [E [t Et]].
  rewrite E, Et, <- app_assoc. cbn [List.app]. apply raw_lines_app_nl.
Qed.

(** The loop of [parse_icsv_metadata] stops at the first [DATA] line. *)
Lemma parse_lines_stop (before after : list str) (marker : str)
      (section : option section_name)
      (metadata : dict str) (fields_meta : dict (list str)) :
  is_data_marker marker = true ->
  parse_lines (before ++ marker :: after) section metadata fields_meta
  = parse_lines (before ++ [marker]) section metadata fields_meta.
Proof.
  intro Hm. unfold is_data_marker in Hm. pose proof Hm as Heq.
  apply str_eqb_eq in Heq.
  revert section metadata fields_meta.
  induction before as [|raw rest IH]; intros section metadata fields_meta.
  - cbn [List.app parse_lines]. cbv zeta. rewrite Heq. reflexivity.
  - cbn [List.app parse_lines]. cbv zeta.
    destruct (str_eqb (strip (rstrip_nl raw)) "# [METADATA]"); [apply IH|].
    destruct (str_eqb (strip (rstrip_nl raw)) "# [FIELDS]"); [apply IH|].
    destruct (str_eqb (strip (rstrip_nl raw)) "# [DATA]"); [reflexivity|].
    destruct (startswith (rstrip_nl raw) "#" && is_some section);
      [|apply IH].
    destruct (contains_char "=" (strip (lstrip_hash (rstrip_nl raw))));
      [|apply IH].
    destruct (split_once "=" (strip (lstrip_hash (rstrip_nl raw))))
      as [key value].
    destruct section as [[|]|]; apply IH.
Qed.

(** X16.  The data cannot speak for the metadata.  For a file that
    decodes as text, in which the line [# [DATA]] starts at the
    beginning of the text or right after a line break, the text that
    follows the line plays no part in what [parse_icsv_metadata] does
    with the text: the result (also when the second split raises) is
    the result on the text cut after that line. *)
Theorem parse_icsv_metadata_ignores_data (head data : str) :
  head = [] \/ (exists h, head = h ++ [NL]) ->
  parse_icsv_metadata (head ++ "# [DATA]" ++ NL :: data)
  = parse_icsv_metadata (head ++ "# [DATA]" ++ [NL]).
Proof.
  intro Hhead.
  assert (E0 : exists before,
             (forall rest,
                 file_lines (head ++ "# [DATA]" ++ NL :: rest)
                 = before ++ ("# [DATA]" ++ [NL]) :: file_lines rest)).
  { destruct Hhead as [-> | [h ->]].
    - exists []. intro rest. cbn [List.app].
      apply (file_lines_app_nl "# [DATA]" rest).
    - exists (file_lines (h ++ [NL])). intro rest.
      rewrite <- app_assoc. cbn [List.app].
      rewrite (file_lines_app_nl h). reflexivity. }
  destruct E0 as [before E].
  unfold parse_icsv_metadata.
  rewrite (E data), (E []).
  change (file_lines []) with (@nil str).
  pose proof (parse_lines_stop before (file_lines data) ("# [DATA]" ++ [NL])
                None [] [] eq_refl) as P.
  unfold str in *. rewrite P. reflexivity.
Qed.

(** ** The constraints of a column *)

Lemma length_filter_partition {A} (p : A -> bool) (l : list A) :
  length (filter p l) + length (filter (fun x => negb (p x)) l) = length l.
Proof.
  induction l as [|x l IH]; [reflexivity|].
  cbn [filter]. destruct (p x); cbn [negb length]; lia.
Qed.

Lemma make_constraints_spec (mn mx : option pyval) (req : bool) :
  match make_constraints mn mx req with
  | Some c => minimum c = mn /\ maximum c = mx /\ required c = req
              /\ ~ (mn = None /\ mx = None /\ req = false)
  | None => mn = None /\ mx = None /\ req = false
  end.
Proof.
  destruct mn, mx, req; cbn; auto;
    repeat split; intros [H1 [H2 H3]]; discriminate.
Qed.

Lemma column_profile_shape (name : str) (col : list str) (info : col_info) :
  column_profile name col = Some info ->
  let pruned := filter (fun v => negb (is_missing_cell v)) (map strip col) in
  info_missing_count info = length (filter is_missing_cell (map strip col))
  /\ info_constraints info
     = make_constraints
         (match info_min info with Some v => v | None => None end)
         (match info_max info with Some v => v | None => None end)
         ((length pruned =? length (map strip col))
          && (0 <? length (map strip col))).
Proof.
  intros H pruned. unfold column_profile in H. fold pruned in H.
  destruct (infer_column_type (map strip col) ENRICHMENT_COMMON_MISSING).
  - destruct (compute_numeric_minmax pruned TInteger) as [mn mx].
    injection H as <-. split; reflexivity.
  - destruct (compute_numeric_minmax pruned TNumber) as [mn mx].
    injection H as <-. split; reflexivity.
  - destruct (compute_datetime_minmax pruned) as [[mn mx]|]; [|discriminate].
    injection H as <-. split; reflexivity.
  - injection H as <-. split; reflexivity.
Qed.

(** X17.  The profile of a column.  The count of missing cells and the
    number of values kept add up to the number of cells.  The column is
    marked required exactly when it has at least one cell and no missing
    cell.  Its constraints, when it has any, carry the least and
    greatest values of the profile; it has none exactly when there is no
    least value, no greatest value and it is not required. *)
Theorem column_profile_constraints (name : str) (col : list str)
        (info : col_info) :
  column_profile name col = Some info ->
  let pruned := filter (fun v => negb (is_missing_cell v)) (map strip col) in
  let is_required :=
    match info_constraints info with
    | Some c => required c
    | None => false
    end in
  let bound (b : option (option pyval)) : option pyval :=
    match b with
    | Some v => v
    | None => None
    end in
  info_missing_count info + length pruned = length col
  /\ is_required = (0 <? length col) && (info_missing_count info =? 0)
  /\ (forall c, info_constraints info = Some c ->
                minimum c = bound (info_min info)
                /\ maximum c = bound (info_max info))
  /\ (info_constraints info = None <->
      bound (info_min info) = None /\ bound (info_max info) = None
      /\ is_required = false).
Proof.
  intros H pruned is_required bound.
  destruct (column_profile_shape name col info H) as [Hcount Hcons].
  fold pruned in Hcons. fold (bound (info_min info)) in Hcons.
  fold (bound (info_max info)) in Hcons.
  assert (Hlen : info_missing_count info + length pruned = length col).
  { rewrite Hcount. unfold pruned. rewrite length_filter_partition.
    apply length_map. }
  assert (Hreq : (length pruned =? length (map strip col))
                 && (0 <? length (map strip col))
                 = (0 <? length col) && (info_missing_count info =? 0)).
  { rewrite length_map.
    destruct (Nat.eqb_spec (length pruned) (length col)),
      (Nat.eqb_spec (info_missing_count info) 0),
      (0 <? length col); try reflexivity; unfold str in *; lia. }
  rewrite Hreq in Hcons.
  pose proof (make_constraints_spec (bound (info_min info))
                (bound (info_max info))
                ((0 <? length col) && (info_missing_count info =? 0)))
    as Hspec.
  rewrite <- Hcons in Hspec. subst is_required.
  split; [exact Hlen|].
  destruct (info_constraints info) as [c|].
  - destruct Hspec as [Hmn [Hmx [Hr Hnot]]].
    split; [exact Hr|]. split.
    + intros c' [= <-]. auto.
    + split; [discriminate|]. intros [F1 [F2 F3]]. exfalso. apply Hnot.
      rewrite <- Hr. auto.
  - destruct Hspec as [Hmn [Hmx Hr]].
    split; [symmetry; exact Hr|]. split.
    + intros c' F. discriminate F.
    + split; auto.
Qed.


(** ** Dates accepted by the type test and the least and greatest date *)

(** X18.  [compute_datetime_minmax] leaves out the values its own parsing
    rejects, and this parsing is not the one of the type test.  For a
    stripped, non-empty value that [try_parse_datetime] accepts and the
    least/greatest computation leaves out (alone in a column, it gets no
    least and no greatest value): when the flexible parser is
    available, it is a value the flexible parser rejects (one of the
    other parsers accepted it); when it is not, it is a value the ISO
    parser rejects and one of the two formats [%Y-%m-%dT%H:%M:%S%z] and
    [%Y-%m-%dT%H:%M:%S], which only the type test tries, accepts. *)
Theorem datetime_minmax_coverage (v : str) :
  v <> [] -> strip v = v ->
  try_parse_datetime v = true -> parse_for_minmax v = None ->
  compute_datetime_minmax [v] = Some (None, None)
  /\ match date_parse with
  | Some parse => parse v = None
  | None =>
      fromisoformat v = None
      /\ is_some (strptime v "%Y-%m-%dT%H:%M:%S%z")
         || is_some (strptime v "%Y-%m-%dT%H:%M:%S") = true
  end.
Proof.
  intros Hne Hs Ht Hp. split.
  { unfold compute_datetime_minmax. cbn [flat_map]. rewrite Hp.
    reflexivity. }
  unfold try_parse_datetime in Ht.
  apply is_nil_false in Hne. rewrite Hne in Ht. cbv zeta in Ht.
  rewrite Hs in Ht.
  destruct (negb (re_search (in_range "0" "9") v)); [discriminate|].
  unfold datetime_cascade in Ht. unfold parse_for_minmax in Hp.
  destruct date_parse as [parse|]; [exact Hp|].
  destruct (fromisoformat v) as [dt|]; [discriminate|].
  split; [reflexivity|]. cbn [is_some] in Ht.
  unfold minmax_fmts in Hp. cbn [first_some] in Hp.
  repeat match type of Hp with
         | match ?x with _ => _ end = None =>
             destruct x eqn:?; [discriminate|]
         end.
  unfold fmts in Ht. cbn [existsb] in Ht.
  repeat match goal with
         | E : strptime v _ = None |- _ => rewrite E in Ht; clear E
         end.
  cbn [is_some orb] in Ht. rewrite orb_false_r in Ht. exact Ht.
Qed.

(** ** The column counts of a produced file read back *)

(** The two passes of the parser on a FIELDS value give one element for
    each cell and one more for each delimiter a cell holds. *)
Lemma resplit_length_counts (d : ascii) (cells : list str) :
  is_space d = false -> cells <> [] ->
  length (map strip
            (split_go [d] 0
               (join "|" (map strip (split_pipe (strip (join [d] cells)))))))
  = length cells + sum_counts d cells.
Proof.
  intros Hd Hne. rewrite length_map, split_go_char_length.
  rewrite count_char_join, sum_counts_map_strip, length_map by assumption.
  assert (E : sum_counts d (split_pipe (strip (join [d] cells)))
              + (length (split_pipe (strip (join [d] cells))) - 1)
                * count_char d "|"
              = count_char d (strip (join [d] cells))).
  { rewrite <- count_char_join. unfold split_pipe.
    rewrite (join_split_char "|"). reflexivity. }
  rewrite E, count_char_strip, count_char_join by assumption.
  cbn [count_char]. rewrite Ascii.eqb_refl.
  destruct cells; [congruence|]. simpl. lia.
Qed.

Lemma Forall2_map_self {A B} (f : A -> B) (R : B -> A -> Prop) (l : list A) :
  (forall x, In x l -> R (f x) x) -> Forall2 R (map f l) l.
Proof.
  induction l as [|x l IH]; intro H; [constructor|].
  cbn [map]. constructor.
  - apply H. left; reflexivity.
  - apply IH. intros y Hy. apply H. right; exact Hy.
Qed.

Lemma Forall2_map_both {A B C} (f : A -> C) (g : B -> C) (l : list A)
      (l' : list B) :
  Forall2 (fun x y => f x = g y) l l' -> map f l = map g l'.
Proof. induction 1; simpl; congruence. Qed.

Lemma Forall2_Forall_iff {A B} (P : A -> Prop) (Q : B -> Prop)
      (l : list A) (l' : list B) :
  Forall2 (fun a b => P a <-> Q b) l l' -> (Forall P l <-> Forall Q l').
Proof.
  induction 1 as [|a b l l' Hab _ IH].
  - split; constructor.
  - split; intro H; inversion H; subst; constructor;
      solve [apply Hab; assumption | apply IH; assumption].
Qed.

(** C2 (as amended).  When [make_icsv_from_csv] writes a file with a
    delimiter that is one character and not white space, a header that
    is not empty, and METADATA values and FIELDS cells without line
    break, [parse_icsv_metadata] reads the file back, the [columns]
    value it finds is the length of the header, the FIELDS map has the
    six keys in the order written, and each of its lists has one element
    for each column and one more for each delimiter held by the cells
    written for it.  Every list has the length of the header exactly
    when no cell of the FIELDS block holds the delimiter. *)
Theorem icsv_round_trip_column_counts (content : str)
        (user_delimiter nodata_override application_profile : option str)
        (e : enrichment) (d : ascii) :
  enrich content user_delimiter nodata_override application_profile = Some e ->
  e_icsv_delim e = [d] -> is_space d = false -> e_header e <> [] ->
  plain_lines application_profile e = true ->
  exists text metadata fields_meta,
    make_icsv_from_csv content user_delimiter nodata_override
                       application_profile
    = Some (text, e_schema e)
    /\ parse_icsv_metadata text = Some (metadata, fields_meta)
    /\ dict_get metadata "columns" = Some (str_of_nat (length (e_header e)))
    /\ map fst fields_meta
       = ["fields"; "types"; "min"; "max"; "missing_count"; "description"]
    /\ Forall2 (fun kv written =>
                  length (snd kv)
                  = length (e_header e) + sum_counts d (snd written))
               fields_meta (fields_table (e_header e) (e_col_infos e))
    /\ (Forall (fun kv => length (snd kv) = length (e_header e)) fields_meta
        <-> Forall (fun written => sum_counts d (snd written) = 0)
                   (fields_table (e_header e) (e_col_infos e))).
Proof.
  intros He Hdel Hd Hne Hplain.
  destruct (plain_lines_inv application_profile e Hplain)
    as [Hdl [Hiso [Hmod [Hnd [Hap Hcells]]]]].
  pose proof (enrich_inv _ _ _ _ _ He) as [_ [_ [Hprof [_ [_ [Hm Hf]]]]]].
  apply column_profiles_length in Hprof.
  assert (Hheader : forallb no_linebreak (e_header e) = true).
  { unfold fields_table in Hcells. cbn [forallb snd] in Hcells.
    apply andb_true_iff in Hcells as [Hh _]. exact Hh. }
  destruct (geometry_hint_no_linebreak (e_header e) Hheader) as [Hg Hs].
  set (table := fields_table (e_header e) (e_col_infos e)) in *.
  set (reread := fun kv : str * list str =>
                   (fst kv,
                    map strip
                        (split_go [d] 0
                           (join "|"
                              (map strip
                                 (split_pipe
                                    (strip (join [d] (snd kv))))))))).
  assert (Hparse : parse_icsv_metadata
                     (write_icsv (e_metadata_lines e) (e_fields_lines e)
                        (e_header e) (e_rows e) (e_icsv_delim e))
                   = Some (map (fun kv => (fst kv, strip (snd kv)))
                               (metadata_table [d] (e_header e) (e_row_count e)
                                  (Some (e_nodata_value e))
                                  (fst (detect_geometry_hint (e_header e)))
                                  (snd (detect_geometry_hint (e_header e)))
                                  application_profile),
                           map reread table)).
  { rewrite Hm, Hf, Hdel. rewrite Hdel in Hdl. unfold parse_icsv_metadata.
    rewrite parse_lines_written.
    - rewrite metadata_table_delimiter.
      assert (Es : strip [d] = [d]).
      { apply strip_none. cbn [forallb]. rewrite Hd. reflexivity. }
      rewrite Es, resplit_nonempty, map_map. reflexivity.
    - apply metadata_table_no_linebreak; assumption.
    - rewrite forallb_forall in Hcells |- *. intros kv Hkv.
      apply join_no_linebreak; [assumption | apply Hcells, Hkv]. }
  assert (Hlen : Forall2 (fun kv written =>
                            length (snd kv)
                            = length (e_header e) + sum_counts d (snd written))
                         (map reread table) table).
  { apply Forall2_map_self. intros kv Hkv. unfold reread. cbn [snd].
    pose proof (fields_table_lengths (e_header e) (e_col_infos e) Hprof) as Hl.
    rewrite Forall_forall in Hl. specialize (Hl kv Hkv).
    rewrite resplit_length_counts; [rewrite Hl; reflexivity | assumption |].
    apply (nonempty_of_length (e_header e)); assumption. }
  exists (write_icsv (e_metadata_lines e) (e_fields_lines e) (e_header e)
                     (e_rows e) (e_icsv_delim e)).
  do 2 eexists.
  split; [unfold make_icsv_from_csv; rewrite He; reflexivity|].
  split; [exact Hparse|]. split; [|split; [|split]].
  - rewrite metadata_table_columns, strip_str_of_nat. reflexivity.
  - reflexivity.
  - exact Hlen.
  - apply Forall2_Forall_iff. revert Hlen. apply Forall2_impl.
    intros kv written E. rewrite E. split; intro H; lia.
Qed.
End Devo.

(** * Examples *)

(** The program run with the stand-ins. *)
Abbreviation ex_infer_column_type :=
  (infer_column_type unit None no_iso any_groups).
Abbreviation ex_column_profile :=
  (column_profile 4300 float_literal keep_literal never_lt unit None no_iso
     any_groups unit_extremum unit_extremum unit_isoformat).
Abbreviation ex_enrich :=
  (enrich 4300 float_literal keep_literal never_lt literal_repr unit None no_iso
     any_groups unit_extremum unit_extremum unit_isoformat tt no_sniff
     plain_csv_reader "devo.enrichment").
Abbreviation ex_make_icsv_from_csv :=
  (make_icsv_from_csv 4300 float_literal keep_literal never_lt literal_repr unit
     None no_iso any_groups unit_extremum unit_extremum unit_isoformat tt
     no_sniff plain_csv_reader plain_csv_writerow "devo.enrichment").
Abbreviation ex_validate_icsv :=
  (validate_icsv 4300 float_literal keep_literal plain_csv_reader
     plain_csv_writerow
     (fun _ _ => inl {| report_valid := true; report_issues := [] |})
     "tmp.csv").

(** C1, the claim as written fails: a column of missing tokens has no
    pruned value, so every pruned value matches [-?digits], and its type
    is [string].  The parsers play no part. *)
Lemma infer_column_type_all_missing_is_string :
  forallb (re_match INT_RE)
          (filter (fun v => negb (is_missing_cell v)) (map strip ["NA"; ""]))
  = true
  /\ ex_infer_column_type ["NA"; ""] ENRICHMENT_COMMON_MISSING = TString.
Proof. split; vm_compute; reflexivity. Qed.

(** C7 at the column [NA], blank, empty, and at the column [1], [NA],
    [ 2], whose profile counts one missing cell. *)
Lemma all_missing_column_witness :
  (forallb (fun c => is_missing_cell (strip c)) ["NA"; " "; ""] = true
   /\ exists info,
       ex_column_profile "c" ["NA"; " "; ""] = Some info
       /\ info_type _ info = TString
       /\ info_min _ info = None /\ info_max _ info = None
       /\ bound_cell _ literal_repr (info_min _ info) = ""
       /\ bound_cell _ literal_repr (info_max _ info) = ""
       /\ info_missing_count _ info = 3)
  /\ exists info,
      ex_column_profile "c" ["1"; "NA"; " 2"] = Some info
      /\ info_type _ info = TInteger
      /\ info_missing_count _ info = 1.
Proof.
  split.
  - split; [reflexivity|].
    apply (proj2 (all_missing_column 4300 float_literal keep_literal never_lt
                    literal_repr unit None no_iso any_groups unit_extremum
                    unit_extremum unit_isoformat "c" ["NA"; " "; ""])).
    reflexivity.
  - destruct (ex_column_profile "c" ["1"; "NA"; " 2"]) as [info|] eqn:E;
      [|vm_compute in E; discriminate].
    exists info. split; [reflexivity|].
    vm_compute in E. injection E as <-. split; [reflexivity|].
    exact (proj1 (all_missing_column 4300 float_literal keep_literal
                    never_lt literal_repr unit None no_iso any_groups
                    unit_extremum unit_extremum unit_isoformat "c"
                    ["1"; "NA"; " 2"])).
Defined.

(** C10, the claim as written fails: with the limit of 4300 digits an
    interpreter has unless told otherwise, a column holding one integer
    of 4301 digits is an [integer] column, the cast of its value raises,
    and it gets no minimum and no maximum. *)
Lemma integer_column_without_minmax :
  let v := repeat "1"%char 4301 in
  ex_infer_column_type (map strip [v]) ENRICHMENT_COMMON_MISSING = TInteger
  /\ filter (fun v => negb (is_missing_cell v)) (map strip [v]) = [v]
  /\ forallb (re_match INT_RE) [v] = true
  /\ py_int 4300 v = None
  /\ compute_numeric_minmax 4300 float_literal keep_literal never_lt [v]
       TInteger
     = (None, None).
Proof. intro v. repeat split; vm_compute; reflexivity. Qed.

(** C10 (as amended) at the column [1], [ 20], [NA]. *)
Lemma numeric_minmax_present_witness :
  ex_infer_column_type (map strip ["1"; " 20"; "NA"]) ENRICHMENT_COMMON_MISSING
  = TInteger
  /\ exists mn mx,
      compute_numeric_minmax 4300 float_literal keep_literal never_lt
        ["1"; "20"] TInteger
      = (Some (VInt _ mn), Some (VInt _ mx)).
Proof.
  split; [reflexivity|].
  exact (proj2 (proj2 (proj2
    (numeric_minmax_present 4300 float_literal keep_literal never_lt unit
       None no_iso any_groups ["1"; " 20"; "NA"] (or_introl eq_refl))))).
Defined.

(** C4 at an empty METADATA map. *)
Lemma check_metadata_errors_iff_witness :
  check_metadata [] [("fields", ["a"])] <> []
  /\ ((dict_get (@nil (str * str)) "field_delimiter" = None
       \/ dict_get (@nil (str * str)) "field_delimiter" = Some [])
      \/ dict_get [("fields", ["a"])] "fields" = None
      \/ exists key values,
          In (key, values) [("fields", ["a"])] /\ key <> "fields"
          /\ values <> []
          /\ length values
             <> length (dict_get_list [("fields", ["a"])] "fields")).
Proof.
  split; [discriminate|].
  apply (proj1 (check_metadata_errors_iff [] [("fields", ["a"])])).
  discriminate.
Defined.

(** C5, the claim as written fails: in [two_short_lists_icsv] the
    [types] list is not empty and shorter than [fields], and two
    inconsistency errors are reported. *)
Lemma two_inconsistency_errors :
  exists metadata fields_meta,
    parse_icsv_metadata two_short_lists_icsv = Some (metadata, fields_meta)
    /\ dict_get fields_meta "fields" = Some ["a"; "b"]
    /\ dict_get fields_meta "types" = Some ["integer"]
    /\ filter is_inconsistency_error (check_metadata metadata fields_meta)
       = ["Inconsistent count in 'types': expected 2, found 1";
          "Inconsistent count in 'min': expected 2, found 1"].
Proof. do 2 eexists. repeat split; vm_compute; reflexivity. Qed.

(** C5 (as amended) at a file whose [types] list alone is short. *)
Lemma validate_icsv_metadata_gate_witness :
  let content :=
    concat (map (fun l => l ++ [NL])
                ["# [METADATA]"; "# field_delimiter = |"; "# [FIELDS]";
                 "# fields = a|b"; "# types = integer"; "# [DATA]"]) in
  let message := "Inconsistent count in 'types': expected 2, found 1" in
  let meta_text :=
    "ERROR: " ++ message ++ [NL] ++ [NL]
      ++ "Please fix metadata issues above." ++ [NL] in
  ex_validate_icsv [("t.icsv", content)] "t.icsv" None
  = Some (false, "t_data_report.txt",
          [("t.icsv", content); ("t_metadata_report.txt", meta_text);
           ("t_data_report.txt", abort_notice)],
          [EvWrite "t_metadata_report.txt" meta_text;
           EvWrite "t_data_report.txt" abort_notice])
  /\ filter is_inconsistency_error
       (check_metadata [("field_delimiter", "|")]
                       [("fields", ["a"; "b"]); ("types", ["integer"])])
     = [message].
Proof.
  intros content message meta_text.
  pose proof (validate_icsv_metadata_gate 4300 float_literal keep_literal
                plain_csv_reader plain_csv_writerow
                (fun _ _ => inl {| report_valid := true; report_issues := [] |})
                "tmp.csv" [("t.icsv", content)] "t.icsv" None content
                [("field_delimiter", "|")]
                [("fields", ["a"; "b"]); ("types", ["integer"])]
                eq_refl eq_refl) as [Hgate Hone].
  split.
  - apply Hgate. discriminate.
  - apply (Hone ["a"; "b"] ["integer"] eq_refl eq_refl);
      [discriminate | repeat constructor |].
    intros key values [[= <- <-] | [[= <- <-] | []]] H1 H2; congruence.
Defined.

(** C6, the claim as written fails: a table without any missing token
    resolves to the empty token, and its METADATA block still has a
    [nodata] line. *)
Lemma empty_nodata_line_written :
  exists e,
    ex_enrich ("a,b" ++ [NL] ++ "1,2" ++ [NL]) (Some ",") None None = Some e
    /\ e_nodata_value _ e = ""
    /\ In "nodata = " (e_metadata_lines _ e).
Proof.
  eexists. split; [vm_compute; reflexivity|].
  split; [reflexivity|]. vm_compute. do 5 right. left. reflexivity.
Qed.

(** C6 (as amended) at a table with two [NA] cells and one empty cell. *)
Lemma nodata_line_of_enrichment_witness :
  exists e,
    ex_enrich ("a,b" ++ [NL] ++ ",NA" ++ [NL] ++ "NA,2" ++ [NL])
              (Some ",") None None = Some e
    /\ In ("nodata = " ++ e_nodata_value _ e) (e_metadata_lines _ e)
    /\ e_nodata_value _ e = "NA".
Proof.
  destruct (ex_enrich ("a,b" ++ [NL] ++ ",NA" ++ [NL] ++ "NA,2" ++ [NL])
                      (Some ",") None None) as [e|] eqn:E;
    [|vm_compute in E; discriminate].
  exists e. split; [reflexivity|].
  destruct (nodata_line_of_enrichment _ _ _ _ _ _ _ _ _ _ _ _ _ _ _ _ _ _ _ _
              _ E) as [_ [Hline Htoken]].
  split; [exact Hline|]. rewrite Htoken.
  assert (Hrows : e_raw_rows _ e = [[""; "NA"]; ["NA"; "2"]]).
  { vm_compute in E. injection E as <-. reflexivity. }
  rewrite Hrows. reflexivity.
Defined.

(** C3 with the answers of the sniffer on [mixed_csv]. *)
Lemma delimiter_sniffed_twice_witness :
  mixed_csv_sniff (concat (firstn 5 (file_lines mixed_csv))) = Some ";"
  /\ mixed_csv_sniff (concat (firstn 10 (file_lines mixed_csv))) = None
  /\ reader_delimiter mixed_csv_sniff mixed_csv None = ","
  /\ icsv_delimiter mixed_csv_sniff mixed_csv None = ";".
Proof.
  split; [reflexivity|]. split; [reflexivity|].
  exact (proj2 (proj2 (delimiter_sniffed_twice mixed_csv_sniff
                         eq_refl eq_refl))).
Defined.

(** C9, the claim as written fails: with a flexible parser that accepts
    month names, [Sep] is rejected by the digit test and accepted by the
    cascade. *)
Lemma digit_test_rejects_month_name :
  try_parse_datetime unit (Some month_name_parse) no_iso any_groups "Sep"
  = false
  /\ try_parse_datetime_no_digit_test unit (Some month_name_parse) no_iso
       any_groups "Sep" = true.
Proof. split; vm_compute; reflexivity. Qed.

(** C9 (as amended) without a flexible parser, at a digit-free value and
    at a date. *)
Lemma digit_test_neutral_witness :
  (try_parse_datetime unit None no_iso any_groups "soon"
   = try_parse_datetime_no_digit_test unit None no_iso any_groups "soon")
  /\ (try_parse_datetime unit None no_iso any_groups "2020-01-31"
      = try_parse_datetime_no_digit_test unit None no_iso any_groups
          "2020-01-31").
Proof.
  pose proof (proj2 (proj2 (proj2
                (digit_test_neutral_when_parsers_need_digit unit None
                   no_iso any_groups)))
                (fun _ _ => conj I eq_refl)) as H.
  split; apply H.
Defined.

(** * Further examples *)

Abbreviation ex_plain_blocks :=
  (plain_blocks float_literal literal_repr unit unit_isoformat tt
     "devo.enrichment").
Abbreviation ex_plain_lines :=
  (plain_lines float_literal literal_repr unit unit_isoformat tt
     "devo.enrichment").

(** C2, the claim as written fails: the table [a|b,c / 1,2] read with a
    comma has two columns; its file is written with [|], and the
    [fields] list read back has three names. *)
Lemma produced_icsv_fields_longer_than_header :
  exists text sch metadata fields_meta,
    ex_make_icsv_from_csv ("a|b,c" ++ [NL] ++ "1,2" ++ [NL]) (Some ",")
                          None None
    = Some (text, sch)
    /\ parse_icsv_metadata text = Some (metadata, fields_meta)
    /\ dict_get metadata "columns" = Some "2"
    /\ dict_get fields_meta "fields" = Some ["a"; "b"; "c"]
    /\ dict_get fields_meta "types" = Some ["integer"; "integer"].
Proof. do 4 eexists. repeat split; vm_compute; reflexivity. Qed.

(** C2 (as amended) at the same table: two columns, three names, two
    elements in the other lists. *)
Lemma icsv_round_trip_column_counts_witness :
  exists e text metadata fields_meta,
    ex_enrich ("a|b,c" ++ [NL] ++ "1,2" ++ [NL]) (Some ",") None None = Some e
    /\ e_icsv_delim _ e = "|"
    /\ ex_plain_lines None e = true
    /\ ex_make_icsv_from_csv ("a|b,c" ++ [NL] ++ "1,2" ++ [NL]) (Some ",")
                             None None
       = Some (text, e_schema _ e)
    /\ parse_icsv_metadata text = Some (metadata, fields_meta)
    /\ dict_get metadata "columns" = Some "2"
    /\ map (fun kv => length (snd kv)) fields_meta = [3; 2; 2; 2; 2; 2].
Proof.
  destruct (ex_enrich ("a|b,c" ++ [NL] ++ "1,2" ++ [NL]) (Some ",") None None)
    as [e|] eqn:E; [|vm_compute in E; discriminate].
  assert (Hshape : e_icsv_delim _ e = "|"
                   /\ ex_plain_lines None e = true
                   /\ e_header _ e = ["a|b"; "c"]
                   /\ map (fun written =>
                             length (e_header _ e)
                             + sum_counts "|" (snd written))
                          (fields_table _ literal_repr (e_header _ e)
                             (e_col_infos _ e))
                      = [3; 2; 2; 2; 2; 2]).
  { vm_compute in E. injection E as <-. repeat split. }
  destruct Hshape as [Hdel [Hplain [Hhead Hcounts]]].
  assert (Hne : e_header _ e <> []) by (rewrite Hhead; discriminate).
  destruct (icsv_round_trip_column_counts _ _ _ _ _ _ _ _ _ _ _ _ _ _ _
              plain_csv_writerow _ _ _ _ _ _ _ E Hdel eq_refl Hne Hplain)
    as [text [metadata [fields_meta [H1 [H2 [H3 [_ [H5 _]]]]]]]].
  apply Forall2_map_both in H5. rewrite Hcounts in H5.
  rewrite Hhead in H3.
  exists e, text, metadata, fields_meta. auto 10.
Defined.

(** The table [a,b / 1,2] read with a comma: the file is written with
    [|], and read back with two columns. *)
Lemma produced_icsv_column_counts_witness :
  exists e text metadata fields_meta,
    ex_enrich ("a,b" ++ [NL] ++ "1,2" ++ [NL]) (Some ",") None None = Some e
    /\ e_icsv_delim _ e = "|"
    /\ ex_plain_blocks "|" None e = true
    /\ ex_make_icsv_from_csv ("a,b" ++ [NL] ++ "1,2" ++ [NL]) (Some ",")
                             None None
       = Some (text, e_schema _ e)
    /\ parse_icsv_metadata text = Some (metadata, fields_meta)
    /\ dict_get metadata "columns" = Some "2"
    /\ Forall (fun kv => length (snd kv) = 2) fields_meta.
Proof.
  destruct (ex_enrich ("a,b" ++ [NL] ++ "1,2" ++ [NL]) (Some ",") None None)
    as [e|] eqn:E; [|vm_compute in E; discriminate].
  assert (Hshape : e_icsv_delim _ e = "|"
                   /\ ex_plain_blocks "|" None e = true
                   /\ e_header _ e = ["a"; "b"]).
  { vm_compute in E. injection E as <-. repeat split. }
  destruct Hshape as [Hdel [Hplain Hhead]].
  destruct (produced_icsv_column_counts _ _ _ _ _ _ _ _ _ _ _ _ _ _ _
              plain_csv_writerow _ _ _ _ _ _ _ E Hdel Hplain)
    as [text [metadata [fields_meta [H1 [H2 [H3 [_ H5]]]]]]].
  rewrite Hhead in H3, H5.
  exists e, text, metadata, fields_meta. auto 10.
Defined.

(** The same file under the metadata checks. *)
Lemma produced_icsv_passes_check_metadata_witness :
  exists e text metadata fields_meta,
    ex_enrich ("a,b" ++ [NL] ++ "1,2" ++ [NL]) (Some ",") None None = Some e
    /\ e_icsv_delim _ e = "|"
    /\ ex_plain_blocks "|" None e = true
    /\ ex_make_icsv_from_csv ("a,b" ++ [NL] ++ "1,2" ++ [NL]) (Some ",")
                             None None
       = Some (text, e_schema _ e)
    /\ parse_icsv_metadata text = Some (metadata, fields_meta)
    /\ check_metadata metadata fields_meta = [].
Proof.
  destruct (ex_enrich ("a,b" ++ [NL] ++ "1,2" ++ [NL]) (Some ",") None None)
    as [e|] eqn:E; [|vm_compute in E; discriminate].
  assert (Hshape : e_icsv_delim _ e = "|"
                   /\ ex_plain_blocks "|" None e = true).
  { vm_compute in E. injection E as <-. repeat split. }
  destruct Hshape as [Hdel Hplain].
  destruct (produced_icsv_passes_check_metadata _ _ _ _ _ _ _ _ _ _ _ _ _ _ _
              plain_csv_writerow _ _ _ _ _ _ _ E Hdel Hplain)
    as [text [metadata [fields_meta [H1 [H2 H3]]]]].
  exists e, text, metadata, fields_meta. auto 10.
Defined.

(** A table split by tabs and read with the tab forced. *)
Lemma blank_delimiter_not_read_back_witness :
  exists e text,
    ex_enrich ("a" ++ [TAB] ++ "b" ++ [NL] ++ "1" ++ [TAB] ++ "2" ++ [NL])
              (Some [TAB]) None None = Some e
    /\ e_icsv_delim _ e = [TAB]
    /\ ex_plain_lines None e = true
    /\ ex_make_icsv_from_csv
         ("a" ++ [TAB] ++ "b" ++ [NL] ++ "1" ++ [TAB] ++ "2" ++ [NL])
         (Some [TAB]) None None
       = Some (text, e_schema _ e)
    /\ parse_icsv_metadata text = None.
Proof.
  destruct (ex_enrich
              ("a" ++ [TAB] ++ "b" ++ [NL] ++ "1" ++ [TAB] ++ "2" ++ [NL])
              (Some [TAB]) None None)
    as [e|] eqn:E; [|vm_compute in E; discriminate].
  assert (Hshape : e_icsv_delim _ e = [TAB]
                   /\ ex_plain_lines None e = true).
  { vm_compute in E. injection E as <-. repeat split. }
  destruct Hshape as [Hdel Hplain].
  assert (Hblank : strip (e_icsv_delim _ e) = []) by (rewrite Hdel; reflexivity).
  destruct (blank_delimiter_not_read_back _ _ _ _ _ _ _ _ _ _ _ _ _ _ _
              plain_csv_writerow _ _ _ _ _ _ E Hblank Hplain)
    as [text [H1 H2]].
  exists e, text. auto 10.
Defined.

(** The integers [3], [-1], [20], and a list with a value that is no
    integer. *)
Lemma compute_numeric_minmax_bounds_witness :
  (exists mn mx,
      compute_numeric_minmax 4300 float_literal keep_literal never_lt
        ["3"; "-1"; "20"] TInteger
      = (Some (VInt _ mn), Some (VInt _ mx))
      /\ In mn [3; -1; 20]%Z /\ In mx [3; -1; 20]%Z
      /\ forall z, In z [3; -1; 20]%Z -> (mn <= z <= mx)%Z)
  /\ compute_numeric_minmax 4300 float_literal keep_literal never_lt
       ["3"; "x"] TInteger
     = (None, None).
Proof.
  split.
  - apply (proj1 (proj2 (proj2
             (compute_numeric_minmax_bounds 4300 float_literal keep_literal
                never_lt ["3"; "-1"; "20"]))));
      [discriminate | reflexivity].
  - apply (proj1 (proj2
             (compute_numeric_minmax_bounds 4300 float_literal keep_literal
                never_lt ["3"; "x"]))).
    reflexivity.
Defined.

(** A table with one short and one long row. *)
Lemma enrich_rows_rectangular_witness :
  exists e,
    ex_enrich ("a,b" ++ [NL] ++ "1" ++ [NL] ++ "2,3,4" ++ [NL]) (Some ",")
              None None = Some e
    /\ e_row_count _ e = length (e_raw_rows _ e)
    /\ Forall2 (fun raw r =>
                  length r = length (e_header _ e)
                  /\ forall j, j < length (e_header _ e) ->
                               nth j r [] = nth j raw [])
               (e_raw_rows _ e) (e_rows _ e)
    /\ Forall (fun h => strip h = h) (e_header _ e).
Proof.
  destruct (ex_enrich ("a,b" ++ [NL] ++ "1" ++ [NL] ++ "2,3,4" ++ [NL])
                      (Some ",") None None) as [e|] eqn:E;
    [|vm_compute in E; discriminate].
  exists e. split; [reflexivity|].
  exact (enrich_rows_rectangular _ _ _ _ _ _ _ _ _ _ _ _ _ _ _ _ _ _ _ _ _ E).
Defined.

(** The schema of a table with an integer and a text column. *)
Lemma enrich_schema_fields_witness :
  exists e,
    ex_enrich ("n,t" ++ [NL] ++ "1,x" ++ [NL] ++ "2,y" ++ [NL]) (Some ",")
              None None = Some e
    /\ Forall2 (fun (column_i : nat * str) (f : schema_field _) =>
                  field_name _ f = snd column_i
                  /\ field_type _ f
                     = coltype_name
                         (ex_infer_column_type
                            (map strip (column (e_rows _ e) (fst column_i)))
                            ENRICHMENT_COMMON_MISSING))
               (enumerate (e_header _ e)) (schema_fields _ (e_schema _ e)).
Proof.
  destruct (ex_enrich ("n,t" ++ [NL] ++ "1,x" ++ [NL] ++ "2,y" ++ [NL])
                      (Some ",") None None) as [e|] eqn:E;
    [|vm_compute in E; discriminate].
  exists e. split; [reflexivity|].
  exact (enrich_schema_fields _ _ _ _ _ _ _ _ _ _ _ _ _ _ _ _ _ _ _ _ _ E).
Defined.

Abbreviation ex_validation_table := (validation_table plain_csv_writerow).

(** A file with two columns and one row, and its complete run. *)
Lemma validate_icsv_true_only_if_witness :
  let content :=
    concat (map (fun l => l ++ [NL])
                ["# [METADATA]"; "# field_delimiter = |"; "# [FIELDS]";
                 "# fields = a|b"; "# [DATA]"; "a|b"; "1|2"]) in
  let fs := [("t.icsv", content)] in
  exists p fs' log metadata fields_meta header data_rows,
    ex_validate_icsv fs "t.icsv" None = Some (true, p, fs', log)
    /\ parse_icsv_metadata content = Some (metadata, fields_meta)
    /\ check_metadata metadata fields_meta = []
    /\ p = "t_data_report.txt"
    /\ log = [EvWrite "t_metadata_report.txt"
                      ("OK: Metadata checks passed." ++ [NL]);
              EvReadDataRows "t.icsv" (delimiter_of metadata);
              EvBuildSchema;
              EvWrite "tmp.csv"
                      (ex_validation_table (delimiter_of metadata)
                         fields_meta header data_rows);
              EvValidate "tmp.csv";
              EvWrite p "Data validation [OK]";
              EvRemove "tmp.csv"].
Proof.
  intros content fs.
  destruct (ex_validate_icsv fs "t.icsv" None)
    as [[[[b p] fs'] log]|] eqn:E; [|vm_compute in E; discriminate].
  assert (Hb : b = true).
  { pose proof E as E'. vm_compute in E'. injection E' as Hb _ _ _.
    symmetry. exact Hb. }
  subst b.
  destruct (validate_icsv_true_only_if _ _ _ _ _ _ _ _ _ _ _ _ _ E)
    as [c0 [m [f [c1 [h [rows [rep [H1 [H2 [H3 [H4 [H5 [H6 [H7 [H8 H9]]]]]]]]]]]]]]].
  injection H1 as <-.
  exists p, fs', log, m, f, h, rows.
  split; [reflexivity|]. split; [exact H2|]. split; [exact H3|].
  split; [exact H8 | exact H9].
Defined.

(** The same run leaves the two reports and nothing else. *)
Lemma validate_icsv_leaves_reports_witness :
  let content :=
    concat (map (fun l => l ++ [NL])
                ["# [METADATA]"; "# field_delimiter = |"; "# [FIELDS]";
                 "# fields = a|b"; "# [DATA]"; "a|b"; "1|2"]) in
  let fs := [("t.icsv", content)] in
  exists b p fs' log meta_text report_text,
    ex_validate_icsv fs "t.icsv" None = Some (b, p, fs', log)
    /\ p = "t_data_report.txt"
    /\ fs' = [("t.icsv", content); ("t_metadata_report.txt", meta_text);
              ("t_data_report.txt", report_text)]
    /\ dict_get fs' "tmp.csv" = None.
Proof.
  intros content fs.
  destruct (ex_validate_icsv fs "t.icsv" None)
    as [[[[b p] fs'] log]|] eqn:E; [|vm_compute in E; discriminate].
  destruct (validate_icsv_leaves_reports 4300 float_literal keep_literal
              plain_csv_reader plain_csv_writerow
              (fun _ _ => inl {| report_valid := true; report_issues := [] |})
              "tmp.csv" fs "t.icsv" None b p fs' log eq_refl)
    as [Hp [mt [rt [Hfs [_ Htmp]]]]].
  - intro F. vm_compute in F. discriminate.
  - intro F. vm_compute in F. discriminate.
  - exact E.
  - exists b, p, fs', log, mt, rt. split; [reflexivity|].
    split; [exact Hp|]. split; [|exact Htmp].
    rewrite Hfs, Hp. reflexivity.
Defined.

(** The same file under a name without [.icsv], and a file that
    declares the delimiter [ab]. *)
Lemma validate_icsv_without_icsv_in_path_witness :
  let content :=
    concat (map (fun l => l ++ [NL])
                ["# [METADATA]"; "# field_delimiter = |"; "# [FIELDS]";
                 "# fields = a|b"; "# [DATA]"; "a|b"; "1|2"]) in
  let content2 :=
    concat (map (fun l => l ++ [NL])
                ["# [METADATA]"; "# field_delimiter = ab"; "# [FIELDS]";
                 "# fields = a|b"; "# [DATA]"]) in
  let fs := [("t.txt", content)] in
  metadata_report_path "t.txt" = "t.txt"
  /\ data_report_path "t.txt" None = "t.txt"
  /\ (exists b fs' report_text,
        ex_validate_icsv fs "t.txt" None
        = Some (b, "t.txt", fs',
                [EvWrite "t.txt" ("OK: Metadata checks passed." ++ [NL]);
                 EvReadDataRows "t.txt" "|";
                 EvBuildSchema;
                 EvWrite "tmp.csv"
                         (ex_validation_table "|" [("fields", ["a"; "b"])]
                            [] []);
                 EvValidate "tmp.csv";
                 EvWrite "t.txt" report_text;
                 EvRemove "tmp.csv"]))
  /\ ex_validate_icsv [("t.txt", content2)] "t.txt" None = None.
Proof.
  intros content content2 fs.
  destruct (validate_icsv_without_icsv_in_path 4300 float_literal keep_literal
              plain_csv_reader
              plain_csv_writerow
              (fun _ _ => inl {| report_valid := true; report_issues := [] |})
              "tmp.csv" fs "t.txt" content
              [("field_delimiter", "|")] [("fields", ["a"; "b"])]
              eq_refl eq_refl eq_refl) as [H1 [H2 [_ H4]]].
  split; [exact H1|]. split; [exact H2|].
  split; [exact (proj2 (H4 eq_refl))|].
  destruct (validate_icsv_without_icsv_in_path 4300 float_literal keep_literal
              plain_csv_reader
              plain_csv_writerow
              (fun _ _ => inl {| report_valid := true; report_issues := [] |})
              "tmp.csv" [("t.txt", content2)] "t.txt" content2
              [("field_delimiter", "ab")] [("fields", ["a|b"])]
              eq_refl eq_refl eq_refl) as [_ [_ [_ H5]]].
  exact (proj2 (H5 eq_refl)).
Defined.

(** The FIELDS block of the file made from [a,b / 1,2], read back. *)
Lemma produced_icsv_read_back_witness :
  exists e text metadata fields_meta,
    ex_enrich ("a,b" ++ [NL] ++ "1,2" ++ [NL]) (Some ",") None None = Some e
    /\ ex_make_icsv_from_csv ("a,b" ++ [NL] ++ "1,2" ++ [NL]) (Some ",")
                             None None
       = Some (text, e_schema _ e)
    /\ parse_icsv_metadata text = Some (metadata, fields_meta)
    /\ dict_get metadata "field_delimiter" = Some "|"
    /\ fields_meta
       = [("fields", ["a"; "b"]); ("types", ["integer"; "integer"]);
          ("min", ["1"; "2"]); ("max", ["1"; "2"]);
          ("missing_count", ["0"; "0"]); ("description", [""; ""])].
Proof.
  destruct (ex_enrich ("a,b" ++ [NL] ++ "1,2" ++ [NL]) (Some ",") None None)
    as [e|] eqn:E; [|vm_compute in E; discriminate].
  assert (Hshape : e_icsv_delim _ e = "|"
                   /\ ex_plain_blocks "|" None e = true
                   /\ forallb (fun kv => forallb (cell_ok "|") (snd kv))
                              (fields_table _ literal_repr (e_header _ e)
                                 (e_col_infos _ e)) = true).
  { pose proof E as E'. vm_compute in E'. injection E' as <-.
    repeat split. }
  destruct Hshape as [Hdel [Hplain Hpipe]].
  destruct (produced_icsv_read_back _ _ _ _ _ _ _ _ _ _ _ _ _ _ _
              plain_csv_writerow _ _ _ _ _ _ _ E Hdel Hplain Hpipe)
    as [text [metadata [fields_meta [H1 [H2 [H3 H4]]]]]].
  exists e, text, metadata, fields_meta.
  split; [reflexivity|]. split; [exact H1|]. split; [exact H2|].
  rewrite H3, H4. clear H1 H2 H3 H4 Hdel Hplain Hpipe.
  vm_compute in E. injection E as <-. split; reflexivity.
Defined.

(** The two schemas of the same file. *)
Lemma produced_icsv_schemas_agree_witness :
  exists e text metadata fields_meta,
    ex_enrich ("a,b" ++ [NL] ++ "1,2" ++ [NL]) (Some ",") None None = Some e
    /\ ex_make_icsv_from_csv ("a,b" ++ [NL] ++ "1,2" ++ [NL]) (Some ",")
                             None None
       = Some (text, e_schema _ e)
    /\ parse_icsv_metadata text = Some (metadata, fields_meta)
    /\ map (fun f => (field_name _ f, field_type _ f, field_description _ f))
           (schema_fields _
              (build_schema_from_metadata 4300 float_literal keep_literal
                 fields_meta))
       = map (fun f => (field_name _ f, field_type _ f, field_description _ f))
             (schema_fields _ (e_schema _ e)).
Proof.
  destruct (ex_enrich ("a,b" ++ [NL] ++ "1,2" ++ [NL]) (Some ",") None None)
    as [e|] eqn:E; [|vm_compute in E; discriminate].
  assert (Hshape : e_icsv_delim _ e = "|"
                   /\ ex_plain_blocks "|" None e = true
                   /\ forallb (fun kv => forallb (cell_ok "|") (snd kv))
                              (fields_table _ literal_repr (e_header _ e)
                                 (e_col_infos _ e)) = true).
  { pose proof E as E'. vm_compute in E'. injection E' as <-.
    repeat split. }
  destruct Hshape as [Hdel [Hplain Hpipe]].
  destruct (produced_icsv_schemas_agree _ _ _ _ _ _ _ _ _ _ _ _ _ _ _
              plain_csv_writerow _ _ _ _ _ _ _ E Hdel Hplain Hpipe)
    as [text [metadata [fields_meta [H1 [H2 H3]]]]].
  exists e, text, metadata, fields_meta. auto.
Defined.

(** A key repeated after the [DATA] line is not seen. *)
Lemma parse_icsv_metadata_ignores_data_witness :
  parse_icsv_metadata
    (("# [METADATA]" ++ [NL] ++ "# k = v" ++ [NL])
       ++ "# [DATA]" ++ NL :: "# k = w" ++ [NL])
  = parse_icsv_metadata
      (("# [METADATA]" ++ [NL] ++ "# k = v" ++ [NL]) ++ "# [DATA]" ++ [NL]).
Proof.
  apply parse_icsv_metadata_ignores_data.
  right. exists ("# [METADATA]" ++ [NL] ++ "# k = v"). reflexivity.
Defined.

(** A column with one missing cell out of three. *)
Lemma column_profile_constraints_witness :
  exists info,
    ex_column_profile "c" ["1"; "NA"; " 2"] = Some info
    /\ info_missing_count _ info + 2 = 3
    /\ match info_constraints _ info with
       | Some c => required _ c
       | None => false
       end = false
    /\ info_constraints _ info <> None.
Proof.
  destruct (ex_column_profile "c" ["1"; "NA"; " 2"]) as [info|] eqn:E;
    [|vm_compute in E; discriminate].
  destruct (column_profile_constraints _ _ _ _ _ _ _ _ _ _ _ _ _ _ E)
    as [H1 [H2 [_ H4]]].
  change (info_missing_count _ info + 2 = 3) in H1.
  exists info. split; [reflexivity|]. split; [exact H1|].
  assert (Hm : info_missing_count _ info = 1) by lia.
  split.
  - rewrite H2, Hm. reflexivity.
  - intro F. apply H4 in F as [F _].
    vm_compute in E. injection E as <-. discriminate F.
Defined.

(** Without the flexible parser and with an ISO parser that rejects
    everything, a date with a [T] is a date for the type test and is left
    out of the least and greatest dates. *)
Lemma datetime_minmax_coverage_witness :
  try_parse_datetime unit None no_iso any_groups "2020-01-31T10:00:00" = true
  /\ compute_datetime_minmax unit None no_iso any_groups unit_extremum
       unit_extremum unit_isoformat ["2020-01-31T10:00:00"]
     = Some (None, None)
  /\ is_some (strptime unit any_groups "2020-01-31T10:00:00"
                       "%Y-%m-%dT%H:%M:%S%z")
     || is_some (strptime unit any_groups "2020-01-31T10:00:00"
                          "%Y-%m-%dT%H:%M:%S") = true.
Proof.
  split; [reflexivity|].
  destruct (datetime_minmax_coverage unit None no_iso any_groups
              unit_extremum unit_extremum unit_isoformat
              "2020-01-31T10:00:00")
    as [H1 [_ H2]];
    [discriminate | reflexivity | reflexivity | reflexivity |].
  split; [exact H1 | exact H2].
Defined.
